(** * StudyConnect server: meeting lifecycle, calendar mirroring, recommendations

    A shallow embedding of the Express/Prisma back end, followed by the
    properties of it that the specification states.

    The program:
    - [Js]               JSON values, thrown errors, truthiness, strings, sort
    - [Store]            the tables of [migration.sql], the world of a request,
                         the monad of an [async] function
    - [Prisma]           the Prisma client calls the code makes
    - [Calendar]         [src/calandrie.ts] and [src/calendar-fallback.ts]
    - [Validation]       [src/validation/meeting.ts]
    - [Meetings]         [src/routes/meetings.ts] with [middlewares/validate.ts]
    - [Recommendations]  [src/services/recommendations.ts]
    - [Sample], [Mirror] a small deployment to run requests on
    - [Server]           the recommendations route of [src/index.ts]
    - [Integrity], [Traffic]  the constraints of [migration.sql] and what a
                         run says to the calendar provider, as predicates

    Asynchronous handlers are sequential programs over one request, so they
    are written in a state-and-exception monad over a [World]: the database,
    the clock, the log of calls made to the calendar provider, and the
    console.  Writes made before a [throw] stay, as in JavaScript.  What the
    program cannot decide itself (the provider's answers, the ranking model's
    answer, [Date] parsing, [JSON.parse], generated ids, the process
    environment) is collected in a [Platform] record over which every
    statement is quantified.

    The properties: [ListFacts], [DeleteFacts], [JoinFacts], [PatchFacts],
    [AdminFacts], [CreateFacts], [TimeOrderFacts], [RecommendFacts], on top
    of [SortFacts], [AsyncFacts], [StoreFacts] and [AuthFacts]; then
    [LeaveFacts], [GateFacts], [CalendarFacts], [ScorerFacts],
    [InvariantFacts], [CallerFacts], [PayloadFacts] and [ReadFacts]. *)

From Stdlib Require Import ZArith List String Ascii Bool Lia.
From Stdlib Require Import Sorting.Sorted Sorting.Permutation.
Import ListNotations.
Local Open Scope string_scope.
Local Open Scope Z_scope.
Set Warnings "-register-all".

(* ------------------------------------------------------------------------- *)
(** ** JavaScript values                                                      *)
(* ------------------------------------------------------------------------- *)

Module Js.

(** JSON documents, as [bodyParser.json()] and [JSON.parse] produce them.
    Numbers are restricted to integers: no claim computes with a fraction. *)
Inductive json : Type :=
| JNull
| JBool (b : bool)
| JNum (n : Z)
| JStr (s : string)
| JArr (items : list json)
| JObj (fields : list (string * json)).

(** [o[k]] on a parsed object; [None] is [undefined]. *)
Fixpoint assoc (k : string) (fields : list (string * json)) : option json :=
  match fields with
  | [] => None
  | (k', v) :: rest => if String.eqb k k' then Some v else assoc k rest
  end.

(** The [code] property of a thrown error object ([e?.code]). *)
Inductive code : Type :=
| CodeNone
| CodeStr (s : string)
| CodeNum (n : Z).

Record exn : Type := mkExn { exn_name : string; exn_code : code }.

Definition code_is_str (c : code) (s : string) : bool :=
  match c with CodeStr s' => String.eqb s' s | _ => false end.

Definition code_is_num (c : code) (n : Z) : bool :=
  match c with CodeNum n' => Z.eqb n' n | _ => false end.

(** Truthiness of a [string | null | undefined]. *)
Definition truthy (s : option string) : bool :=
  match s with
  | Some s => negb (String.eqb s "")
  | None => false
  end.

Definition truthy_str (s : string) : bool := negb (String.eqb s "").

(** [x] where the code tests [if (x)] before using it. *)
Definition when_truthy (s : option string) : option string :=
  if truthy s then s else None.

(** [s.startsWith(p)] *)
Definition startsWith (p s : string) : bool := String.prefix p s.

(** [s.slice(n)] for [0 <= n] *)
Definition slice (n : nat) (s : string) : string :=
  String.substring n (String.length s - n) s.

(** [Array.prototype.sort] is stable: an insertion sort that keeps equal
    elements in their order.  [before a b] is [cmp(a, b) <= 0]. *)
Section Sort.
Context {A : Type} (before : A -> A -> bool).

Fixpoint insert (x : A) (l : list A) : list A :=
  match l with
  | [] => [x]
  | y :: r => if before x y then x :: l else y :: insert x r
  end.

Fixpoint sort (l : list A) : list A :=
  match l with
  | [] => []
  | x :: r => insert x (sort r)
  end.
End Sort.

End Js.

Export Js.

(* ------------------------------------------------------------------------- *)
(** ** The database ([migration.sql]) and the world a request runs in         *)
(* ------------------------------------------------------------------------- *)

Module Store.

(** A [Date] that Prisma stored: milliseconds since the epoch. *)
Definition Time : Type := Z.

(** Table "User" (the columns the meeting code reads). *)
Record User : Type := mkUser {
  user_id : string;
  user_email : string;
  user_name : option string;
  user_refreshToken : option string
}.

(** Table "Meeting". *)
Record Meeting : Type := mkMeeting {
  id : string;
  title : string;
  description : option string;
  subject : option string;
  level : option string;
  specialization : option string;
  startTime : Time;
  endTime : Time;
  location : option string;
  onlineUrl : option string;
  createdById : string;
  googleEventId : option string;
  createdAt : Time;
  updatedAt : Time
}.

(** Table "MeetingAttendee". *)
Record Attendee : Type := mkAttendee {
  att_id : string;
  att_meetingId : string;
  att_userId : string;
  att_status : string;
  att_createdAt : Time
}.

(** Rows are kept in insertion order. *)
Record DB : Type := mkDB {
  users : list User;
  meetings : list Meeting;
  attendees : list Attendee
}.

(** A meeting with [include: { attendees: true, createdBy: true }]. *)
Record MeetingFull : Type := mkFull {
  meeting : Meeting;
  full_attendees : list Attendee;
  full_createdBy : option User
}.

(** Requests to the calendar provider ([calendar.events.*]); times are kept
    as instants rather than as their [toISOString()] rendering. *)
Inductive grequest : Type :=
| EventsInsert (refreshToken : string) (summary : string)
    (descr loc : option string) (start finish : Time)
| EventsPatch (refreshToken eventId : string)
    (summary descr loc : option string) (start finish : option Time)
| EventsDelete (refreshToken eventId : string) (sendUpdates : option string)
| EventsList (refreshToken q : string) (timeMin timeMax : Time) (maxResults : Z).

(** [res.data] of a provider answer. *)
Record gdata : Type := mkGdata {
  data_id : option string;
  data_items : option (list (option string))   (* the [id] of each item *)
}.

(** [interface UserProfile] and [interface Meeting] of the recommendation
    service; they are here because the ranking model receives them. *)
Record UserProfile : Type := mkProfile {
  profile_userId : string;
  profile_name : option string;
  subjects : list string;
  levels : list string;
  specializations : list string;
  totalMeetingsJoined : nat
}.

Record Candidate : Type := mkCandidate {
  cand_id : string;
  cand_title : string;
  cand_description : option string;
  cand_subject : option string;
  cand_level : option string;
  cand_specialization : option string;
  cand_startTime : Time;
  attendeesCount : nat
}.

(** Everything a request can observe that this program does not compute. *)
Record Platform : Type := mkPlatform {
  (** [process.env] *)
  env : string -> option string;
  (** [new Date(s).getTime()]; [None] is [NaN] (an Invalid Date) *)
  Date_parse : string -> option Time;
  (** [z.string().datetime({ offset: true })] accepts [s] *)
  zod_datetime : string -> bool;
  (** the id generated for the n-th inserted row *)
  gen_id : nat -> string;
  (** the calendar provider: its answer may depend on the calls so far *)
  gapi : list grequest -> grequest -> exn + gdata;
  (** [model.generateContent(prompt)] then [result.response.text()]; the
      prompt is a rendering of the profile and the candidates *)
  gemini : UserProfile -> list Candidate -> exn + string;
  (** [JSON.parse]; [None] is a thrown [SyntaxError] *)
  JSON_parse : string -> option json
}.

Record World : Type := mkWorld {
  db : DB;
  clock : Time;               (* what [new Date()] reads *)
  inserted : nat;             (* rows inserted so far, drives [gen_id] *)
  gcalls : list grequest;     (* calls made to the provider, oldest first *)
  console : list string       (* console.warn / console.error lines *)
}.

Definition set_db (d : DB) (w : World) : World :=
  mkWorld d (clock w) (inserted w) (gcalls w) (console w).

(** The same world when the clock reads [t]. *)
Definition at_clock (t : Time) (w : World) : World :=
  mkWorld (db w) t (inserted w) (gcalls w) (console w).

(** *** The monad of an [async] function *)

Inductive outcome (A : Type) : Type :=
| Ret (a : A)
| Throw (e : exn).
Arguments Ret {A} a.
Arguments Throw {A} e.

Definition M (A : Type) : Type := World -> outcome A * World.

Definition ret {A} (a : A) : M A := fun w => (Ret a, w).

Definition throw {A} (e : exn) : M A := fun w => (Throw e, w).

Definition bind {A B} (m : M A) (k : A -> M B) : M B :=
  fun w => match m w with
           | (Ret a, w') => k a w'
           | (Throw e, w') => (Throw e, w')
           end.

(** [try { m } catch (e) { h e }]: what [m] wrote before throwing stays. *)
Definition try_catch {A} (m : M A) (h : exn -> M A) : M A :=
  fun w => match m w with
           | (Ret a, w') => (Ret a, w')
           | (Throw e, w') => h e w'
           end.

Definition get_db : M DB := fun w => (Ret (db w), w).
Definition put_db (d : DB) : M unit := fun w => (Ret tt, set_db d w).
Definition now : M Time := fun w => (Ret (clock w), w).

(** [m] touches neither the database, the clock nor the id generator. *)
Definition keeps_store {A} (m : M A) : Prop :=
  forall w, db (snd (m w)) = db w
            /\ clock (snd (m w)) = clock w
            /\ inserted (snd (m w)) = inserted w.

Definition log (line : string) : M unit :=
  fun w => (Ret tt, mkWorld (db w) (clock w) (inserted w) (gcalls w)
                            (console w ++ [line])).

End Store.

Export Store.

Declare Scope async_scope.
Delimit Scope async_scope with async.
Notation "x <- m ;; k" := (bind m (fun x => k))
  (at level 61, m at next level, right associativity) : async_scope.
Notation "m ;;; k" := (bind m (fun _ => k))
  (at level 61, right associativity) : async_scope.

(* ------------------------------------------------------------------------- *)
(** ** The Prisma client over that database                                   *)
(* ------------------------------------------------------------------------- *)

Module Prisma.

Local Open Scope async_scope.

(** [PrismaClientKnownRequestError]: P2002 unique constraint, P2003 foreign
    key constraint, P2025 record not found. *)
Definition known (c : string) : exn :=
  mkExn "PrismaClientKnownRequestError" (CodeStr c).

(** [PrismaClientValidationError], e.g. for an Invalid Date argument. *)
Definition invalid : exn := mkExn "PrismaClientValidationError" CodeNone.

Definition is_id (k : string) (m : Meeting) : bool := String.eqb (id m) k.
Definition of_meeting (k : string) (a : Attendee) : bool :=
  String.eqb (att_meetingId a) k.
Definition of_user (k : string) (a : Attendee) : bool :=
  String.eqb (att_userId a) k.
Definition of_pair (mid uid : string) (a : Attendee) : bool :=
  of_meeting mid a && of_user uid a.

Definition find_meeting (d : DB) (k : string) : option Meeting :=
  find (is_id k) (meetings d).

Definition find_user (d : DB) (k : string) : option User :=
  find (fun u => String.eqb (user_id u) k) (users d).

Definition has_user (d : DB) (k : string) : bool :=
  existsb (fun u => String.eqb (user_id u) k) (users d).

Definition has_meeting (d : DB) (k : string) : bool :=
  existsb (is_id k) (meetings d).

(** [include: { attendees: true }] has no [orderBy]: the engine finds the
    rows of a meeting through the unique index on ("meetingId", "userId") of
    [migration.sql] and returns them as the index has them, in the order of
    "userId". *)
Definition by_user (a b : Attendee) : bool :=
  String.leb (att_userId a) (att_userId b).

Definition attendees_of (d : DB) (k : string) : list Attendee :=
  sort by_user (filter (of_meeting k) (attendees d)).

(** The database without meeting [k] and without its attendee rows. *)
Definition without (k : string) (d : DB) : DB :=
  mkDB (users d)
    (filter (fun m => negb (is_id k m)) (meetings d))
    (filter (fun a => negb (of_meeting k a)) (attendees d)).

Definition with_relations (d : DB) (m : Meeting) : MeetingFull :=
  mkFull m (attendees_of d (id m)) (find_user d (createdById m)).

(** [data] of [prisma.meeting.create]; a date is [None] when the [Date]
    object handed over is an Invalid Date. *)
Record MeetingCreate : Type := mkCreate {
  c_title : string;
  c_description : option string;
  c_subject : option string;
  c_level : option string;
  c_specialization : option string;
  c_startTime : option Time;
  c_endTime : option Time;
  c_location : option string;
  c_onlineUrl : option string;
  c_createdById : string
}.

(** [data] of [prisma.meeting.update]: [None] is a key that is not there. *)
Record MeetingUpdate : Type := mkUpdate {
  u_title : option string;
  u_description : option (option string);
  u_subject : option (option string);
  u_level : option (option string);
  u_specialization : option (option string);
  u_startTime : option (option Time);
  u_endTime : option (option Time);
  u_location : option (option string);
  u_onlineUrl : option (option string);
  u_googleEventId : option (option string)
}.

Definition no_update : MeetingUpdate :=
  mkUpdate None None None None None None None None None None.

(** [where] of [prisma.meeting.findMany]. *)
Record MeetingWhere : Type := mkWhere {
  where_endTime_gt : option Time;
  where_subject_contains : option string;   (* with [mode: 'insensitive'] *)
  where_level_equals : option string;
  where_specialization_equals : option string;
  where_startTime_gte : option (option Time);
  where_startTime_lte : option (option Time);
  where_OR_contains : option string
    (* title, description or subject, each with [mode: 'insensitive'] *)
}.

Definition date_ok (d : option (option Time)) : bool :=
  match d with Some None => false | _ => true end.

Definition set_if {A} (v : option A) (old : A) : A :=
  match v with Some x => x | None => old end.

Definition set_date (v : option (option Time)) (old : Time) : Time :=
  match v with Some (Some t) => t | _ => old end.

Definition given {A} (v : option A) : bool :=
  match v with Some _ => true | None => false end.

(** [data] has at least one key. *)
Definition writes (u : MeetingUpdate) : bool :=
  given (u_title u) || given (u_description u) || given (u_subject u)
  || given (u_level u) || given (u_specialization u) || given (u_startTime u)
  || given (u_endTime u) || given (u_location u) || given (u_onlineUrl u)
  || given (u_googleEventId u).

(** The row after an update at time [t].  "updatedAt" has no default in
    [migration.sql] and the router never writes it: Prisma maintains it on
    every create and on every update that writes a column; an update whose
    [data] is empty writes nothing, and the row stays as it is. *)
Definition apply_update (t : Time) (u : MeetingUpdate) (m : Meeting) : Meeting :=
  mkMeeting (id m)
    (set_if (u_title u) (title m))
    (set_if (u_description u) (description m))
    (set_if (u_subject u) (subject m))
    (set_if (u_level u) (level m))
    (set_if (u_specialization u) (specialization m))
    (set_date (u_startTime u) (startTime m))
    (set_date (u_endTime u) (endTime m))
    (set_if (u_location u) (location m))
    (set_if (u_onlineUrl u) (onlineUrl m))
    (createdById m)
    (set_if (u_googleEventId u) (googleEventId m))
    (createdAt m)
    (if writes u then t else updatedAt m).

Definition nullable_equals (p : string) (s : option string) : bool :=
  match s with Some s => String.eqb s p | None => false end.

Definition opt_test {A} (c : option A) (f : A -> bool) : bool :=
  match c with Some x => f x | None => true end.

Definition date_test (c : option (option Time)) (f : Time -> bool) : bool :=
  match c with Some (Some t) => f t | _ => true end.

(** [{ contains: ..., mode: 'insensitive' }]: the database of
    [migration.sql] is SQLite, whose string filters have no [mode] argument;
    the client refuses a [where] that carries one.  The router types [where]
    as [any], so nothing stops it earlier. *)
Definition mode_ok (q : MeetingWhere) : bool :=
  negb (given (where_subject_contains q)) && negb (given (where_OR_contains q)).

(** The conditions of a [where] that the client accepts. *)
Definition matches (q : MeetingWhere) (m : Meeting) : bool :=
  opt_test (where_endTime_gt q) (fun t => t <? endTime m)
  && opt_test (where_level_equals q) (fun p => nullable_equals p (level m))
  && opt_test (where_specialization_equals q)
       (fun p => nullable_equals p (specialization m))
  && date_test (where_startTime_gte q) (fun t => t <=? startTime m)
  && date_test (where_startTime_lte q) (fun t => startTime m <=? t).

Definition starts_before (a b : Meeting) : bool := startTime a <=? startTime b.

Definition take {A} (n : option nat) (l : list A) : list A :=
  match n with Some n => firstn n l | None => l end.

(** The database after the row of meeting [k] became [m']. *)
Definition replaced (k : string) (m' : Meeting) (d : DB) : DB :=
  mkDB (users d) (map (fun x => if is_id k x then m' else x) (meetings d))
    (attendees d).

(** The rows [findMany] selects, in the order it returns them; rows with
    equal start times stay in table order. *)
Definition selected (q : MeetingWhere) (n : option nat) (d : DB) : list Meeting :=
  take n (sort starts_before (filter (matches q) (meetings d))).

Section Client.
Variable P : Platform.

Definition fresh_id : M string :=
  fun w => (Ret (gen_id P (inserted w)),
            mkWorld (db w) (clock w) (S (inserted w)) (gcalls w) (console w)).

(** [prisma.meeting.findUnique({ where: { id } })] *)
Definition meeting_findUnique (k : string) : M (option Meeting) :=
  d <- get_db ;; ret (find_meeting d k).

(** ... with [include: { attendees: true, createdBy: true }] *)
Definition meeting_findUnique_full (k : string) : M (option MeetingFull) :=
  d <- get_db ;; ret (option_map (with_relations d) (find_meeting d k)).

(** [prisma.meeting.findMany({ where, orderBy: { startTime: 'asc' }, take,
    include })] *)
Definition meeting_findMany (q : MeetingWhere) (n : option nat)
  : M (list MeetingFull) :=
  if mode_ok q then
    if date_ok (where_startTime_gte q) && date_ok (where_startTime_lte q) then
      d <- get_db ;;
      ret (map (with_relations d) (selected q n d))
    else throw invalid
  else throw invalid.

(** [prisma.meeting.create({ data })] *)
Definition meeting_create (c : MeetingCreate) : M Meeting :=
  match c_startTime c, c_endTime c with
  | Some s, Some e =>
      k <- fresh_id ;;
      t <- now ;;
      d <- get_db ;;
      if has_meeting d k then throw (known "P2002")
      else if negb (has_user d (c_createdById c)) then throw (known "P2003")
      else
        let m := mkMeeting k (c_title c) (c_description c) (c_subject c)
                   (c_level c) (c_specialization c) s e (c_location c)
                   (c_onlineUrl c) (c_createdById c) None t t in
        put_db (mkDB (users d) (meetings d ++ [m]) (attendees d)) ;;;
        ret m
  | _, _ => throw invalid
  end.

(** [prisma.meeting.update({ where: { id }, data })] *)
Definition meeting_update (k : string) (u : MeetingUpdate) : M Meeting :=
  if date_ok (u_startTime u) && date_ok (u_endTime u) then
    t <- now ;;
    d <- get_db ;;
    match find_meeting d k with
    | None => throw (known "P2025")
    | Some m =>
        let m' := apply_update t u m in
        put_db (replaced k m' d) ;;;
        ret m'
    end
  else throw invalid.

(** [prisma.meetingAttendee.create({ data: { meetingId, userId, status } })]:
    primary key, then the unique index on (meetingId, userId), then the two
    foreign keys. *)
Definition meetingAttendee_create (mid uid status : string) : M Attendee :=
  k <- fresh_id ;;
  t <- now ;;
  d <- get_db ;;
  if existsb (fun a => String.eqb (att_id a) k) (attendees d)
  then throw (known "P2002")
  else if existsb (of_pair mid uid) (attendees d) then throw (known "P2002")
  else if negb (has_meeting d mid && has_user d uid) then throw (known "P2003")
  else
    let a := mkAttendee k mid uid status t in
    put_db (mkDB (users d) (meetings d) (attendees d ++ [a])) ;;;
    ret a.

(** [prisma.meetingAttendee.deleteMany({ where })] *)
Definition meetingAttendee_deleteMany (sel : Attendee -> bool) : M unit :=
  d <- get_db ;;
  put_db (mkDB (users d) (meetings d)
            (filter (fun a => negb (sel a)) (attendees d))).

(** [prisma.meetingAttendee.findMany({ where: { userId } })] *)
Definition meetingAttendee_findMany (uid : string) : M (list Attendee) :=
  d <- get_db ;; ret (filter (of_user uid) (attendees d)).

(** [prisma.meeting.delete({ where: { id } })]; attendee rows that still
    reference the meeting go with it (ON DELETE CASCADE). *)
Definition meeting_delete (k : string) : M unit :=
  d <- get_db ;;
  match find_meeting d k with
  | None => throw (known "P2025")
  | Some _ =>
      put_db (without k d)
  end.

(** [prisma.$transaction([...])]: the operations run in order; if one
    throws, the database is as it was before the first. *)
Fixpoint run_all (ops : list (M unit)) : M unit :=
  match ops with
  | [] => ret tt
  | op :: rest => op ;;; run_all rest
  end.

Definition transaction (ops : list (M unit)) : M unit :=
  d0 <- get_db ;;
  try_catch (run_all ops) (fun e => put_db d0 ;;; throw e).

(** [prisma.user.findUnique({ where: { id } })] *)
Definition user_findUnique (k : string) : M (option User) :=
  d <- get_db ;; ret (find_user d k).
End Client.

End Prisma.

Export Prisma.

(* ------------------------------------------------------------------------- *)
(** ** Calendar adapter ([calandrie.ts], [calendar-fallback.ts])              *)
(* ------------------------------------------------------------------------- *)

Module Calendar.

Local Open Scope async_scope.

(** [e?.code !== 404 && e?.code !== 410] is false: the event is already gone. *)
Definition gone (e : exn) : bool :=
  code_is_num (exn_code e) 404 || code_is_num (exn_code e) 410.

(** [x || undefined] on a [string | null | undefined]. *)
Definition or_undefined (s : option string) : option string :=
  if truthy s then s else None.

(** [d.toISOString()] throws a [RangeError] outside the range of [Date]. *)
Definition toISOString (t : Time) : M Time :=
  if Z.abs t <=? 8640000000000000 then ret t
  else throw (mkExn "RangeError" CodeNone).

Section Adapter.
Variable P : Platform.

(** One request to the provider; it is logged whether or not it fails. *)
Definition call (r : grequest) : M gdata :=
  fun w =>
    let w' := mkWorld (db w) (clock w) (inserted w) (gcalls w ++ [r])
                (console w) in
    match gapi P (gcalls w) r with
    | inl e => (Throw e, w')
    | inr d => (Ret d, w')
    end.

(** [creator] stands for [params.creator?.refreshToken]. *)
Definition createCalendarEventForMeeting (creator : option string)
    (title : string) (description : option string) (start finish : Time)
    (location onlineUrl : option string) : M (option string) :=
  match creator with
  | Some token =>
      if truthy_str token then
        s <- toISOString start ;;
        e <- toISOString finish ;;
        res <- call (EventsInsert token title (or_undefined description)
                       (or_undefined location) s e) ;;
        ret (or_undefined (data_id res))
      else ret None
  | None => ret None
  end.

Definition updateGoogleEvent (refreshToken eventId : string)
    (summary : string) (description location : option string)
    (start finish : Time) : M unit :=
  s <- toISOString start ;;
  e <- toISOString finish ;;
  try_catch
    (call (EventsPatch refreshToken eventId
             (if truthy_str summary then Some summary else None)
             (or_undefined description) (or_undefined location)
             (Some s) (Some e)) ;;; ret tt)
    (fun e => if gone e then ret tt else throw e).

Definition deleteGoogleEvent (refreshToken eventId : string) : M unit :=
  try_catch
    (call (EventsDelete refreshToken eventId (Some "all")) ;;; ret tt)
    (fun e => if gone e then ret tt else throw e).

(** The [for (const e of data.items ?? [])] loop of the fallback. *)
Fixpoint delete_each (refreshToken : string) (items : list (option string))
  : M unit :=
  match items with
  | [] => ret tt
  | item :: rest =>
      try_catch
        (if truthy item
         then match item with
              | Some k => call (EventsDelete refreshToken k None) ;;; ret tt
              | None => ret tt
              end
         else ret tt)
        (fun err => if gone err then ret tt else throw err) ;;;
      delete_each refreshToken rest
  end.

Definition deleteGoogleEventByQuery (refreshToken summary : string)
    (timeMin timeMax : Time) : M unit :=
  res <- call (EventsList refreshToken summary timeMin timeMax 5) ;;
  delete_each refreshToken
    (match data_items res with Some l => l | None => [] end).

(** [windowMinutes] is never passed by the router: the default applies. *)
Definition windowMinutes : Z := 60.

Definition deleteGoogleEventWithFallback (creator : option string)
    (googleEventId : option string) (title : string) (start finish : Time)
  : M unit :=
  match creator with
  | Some token =>
      if truthy_str token then
        try_catch
          (if truthy googleEventId
           then match googleEventId with
                | Some k => deleteGoogleEvent token k
                | None => ret tt
                end
           else
             timeMin <- toISOString (start - windowMinutes * 60000) ;;
             timeMax <- toISOString (finish + windowMinutes * 60000) ;;
             deleteGoogleEventByQuery token title timeMin timeMax)
          (fun _ => ret tt)
      else ret tt
  | None => ret tt
  end.
End Adapter.

End Calendar.

Export Calendar.

(* ------------------------------------------------------------------------- *)
(** ** Request validation ([validation/meeting.ts], [middlewares/validate.ts]) *)
(* ------------------------------------------------------------------------- *)

Module Validation.

(** [z.infer<typeof CreateMeetingSchema>]: an optional nullable text is
    [None] when the key is missing, [Some None] when it is [null]. *)
Record CreateBody : Type := mkCreateBody {
  cb_title : string;
  cb_description : option (option string);
  cb_subject : option (option string);
  cb_level : option (option string);
  cb_specialization : option (option string);
  cb_startTime : string;
  cb_endTime : string;
  cb_location : option (option string);
  cb_onlineUrl : option (option string)
}.

(** [z.infer<typeof PatchMeetingSchema>] *)
Record PatchBody : Type := mkPatchBody {
  pb_title : option string;
  pb_description : option (option string);
  pb_subject : option (option string);
  pb_level : option (option string);
  pb_specialization : option (option string);
  pb_startTime : option string;
  pb_endTime : option string;
  pb_location : option (option string);
  pb_onlineUrl : option (option string)
}.

(** Field parsers; the outer [option] is the parse result. *)

Definition and_then {A B} (r : option A) (k : A -> option B) : option B :=
  match r with Some a => k a | None => None end.

Declare Scope parse_scope.
Notation "x <- r ;; k" := (and_then r (fun x => k))
  (at level 61, r at next level, right associativity) : parse_scope.
Local Open Scope parse_scope.

(** [z.string().min(1)] on a required key *)
Definition string_min1 (v : option json) : option string :=
  match v with
  | Some (JStr s) => if Nat.leb 1 (String.length s) then Some s else None
  | _ => None
  end.

(** [z.string().min(1).optional()] *)
Definition string_min1_optional (v : option json) : option (option string) :=
  match v with
  | None => Some None
  | Some _ => option_map Some (string_min1 v)
  end.

(** [z.string().optional().nullable()] *)
Definition string_optional_nullable (v : option json)
  : option (option (option string)) :=
  match v with
  | None => Some None
  | Some JNull => Some (Some None)
  | Some (JStr s) => Some (Some (Some s))
  | Some _ => None
  end.

Section Schemas.
Variable P : Platform.

(** [iso] *)
Definition iso (v : option json) : option string :=
  match v with
  | Some (JStr s) => if zod_datetime P s then Some s else None
  | _ => None
  end.

(** [iso.optional()] *)
Definition iso_optional (v : option json) : option (option string) :=
  match v with
  | None => Some None
  | Some _ => option_map Some (iso v)
  end.

(** [new Date(e).getTime() > new Date(s).getTime()]; a comparison with
    [NaN] is false. *)
Definition ends_after (s e : string) : bool :=
  match Date_parse P e, Date_parse P s with
  | Some te, Some ts => ts <? te
  | _, _ => false
  end.

Definition create_refine (v : CreateBody) : bool :=
  ends_after (cb_startTime v) (cb_endTime v).

Definition patch_refine (v : PatchBody) : bool :=
  match pb_startTime v, pb_endTime v with
  | Some s, Some e =>
      if truthy_str s && truthy_str e then ends_after s e else true
  | _, _ => true
  end.

(** [CreateMeetingSchema.safeParse(body)]; [None] is [success: false]. *)
Definition CreateMeetingSchema (body : json) : option CreateBody :=
  match body with
  | JObj o =>
      t <- string_min1 (assoc "title" o) ;;
      d <- string_optional_nullable (assoc "description" o) ;;
      su <- string_optional_nullable (assoc "subject" o) ;;
      l <- string_optional_nullable (assoc "level" o) ;;
      sp <- string_optional_nullable (assoc "specialization" o) ;;
      s <- iso (assoc "startTime" o) ;;
      e <- iso (assoc "endTime" o) ;;
      lo <- string_optional_nullable (assoc "location" o) ;;
      u <- string_optional_nullable (assoc "onlineUrl" o) ;;
      let v := mkCreateBody t d su l sp s e lo u in
      if create_refine v then Some v else None
  | _ => None
  end.

(** [PatchMeetingSchema.safeParse(body)] *)
Definition PatchMeetingSchema (body : json) : option PatchBody :=
  match body with
  | JObj o =>
      t <- string_min1_optional (assoc "title" o) ;;
      d <- string_optional_nullable (assoc "description" o) ;;
      su <- string_optional_nullable (assoc "subject" o) ;;
      l <- string_optional_nullable (assoc "level" o) ;;
      sp <- string_optional_nullable (assoc "specialization" o) ;;
      s <- iso_optional (assoc "startTime" o) ;;
      e <- iso_optional (assoc "endTime" o) ;;
      lo <- string_optional_nullable (assoc "location" o) ;;
      u <- string_optional_nullable (assoc "onlineUrl" o) ;;
      let v := mkPatchBody t d su l sp s e lo u in
      if patch_refine v then Some v else None
  | _ => None
  end.
End Schemas.

End Validation.

Export Validation.

(* ------------------------------------------------------------------------- *)
(** ** The meetings router ([routes/meetings.ts])                             *)
(* ------------------------------------------------------------------------- *)

Module Meetings.

Local Open Scope async_scope.

(** [req.user]: a "User" row put there by the session layer, or the
    synthetic administrator of [requireAuth]. *)
Record ReqUser : Type := mkReqUser {
  ru_id : string;
  ru_role : option string;
  ru_refreshToken : option string
}.

Record Query : Type := mkQuery {
  q_subject : option string;
  q_level : option string;
  q_specialization : option string;
  q_q : option string;
  q_from : option string;
  q_to : option string
}.

Record Request : Type := mkRequest {
  authorization : option string;   (* req.headers.authorization *)
  user : option ReqUser;
  param_id : string;               (* req.params.id *)
  query : Query;
  body : json
}.

Inductive payload : Type :=
| Failure (error : string)          (* { ok: false, error } *)
| Failed                            (* { ok: false } *)
| ValidationFailed                  (* { ok: false, error: 'Validation failed', ... } *)
| Success                           (* { ok: true } *)
| SuccessNote (note : string)       (* { ok: true, note } *)
| OneMeeting (m : option MeetingFull)
| ManyMeetings (l : list MeetingFull)
| OneAttendee (a : Attendee).

Record response : Type := mkResponse { status : Z; sent : payload }.

(** [res.json(x)] without [res.status(..)] *)
Definition json_ (p : payload) : response := mkResponse 200 p.

(** What a middleware does: call [next()] or answer. *)
Inductive step (A : Type) : Type :=
| Next (a : A)
| Respond (r : response).
Arguments Next {A} a.
Arguments Respond {A} r.

Definition admin : ReqUser := mkReqUser "admin" (Some "admin") None.

Definition set_user (u : ReqUser) (req : Request) : Request :=
  mkRequest (authorization req) (Some u) (param_id req) (query req) (body req).

(** [x === undefined ? null : x] as Prisma reads a create argument, and
    as [x ?? undefined] reads a column. *)
Definition collapse (v : option (option string)) : option string :=
  match v with Some x => x | None => None end.

Definition is_admin (u : option ReqUser) : bool :=
  match u with
  | Some u => match ru_role u with
              | Some r => String.eqb r "admin"
              | None => false
              end
  | None => false
  end.

Definition is_owner (m : Meeting) (u : option ReqUser) : bool :=
  match u with
  | Some u => String.eqb (createdById m) (ru_id u)
  | None => false
  end.

(** [meeting.createdBy?.refreshToken] *)
Definition creator_token (f : MeetingFull) : option string :=
  match full_createdBy f with
  | Some c => user_refreshToken c
  | None => None
  end.

(** A field of a partial update: overwritten by the payload when the key is
    there, kept when it is not. *)
Definition overwritten {A} (field : option A) (old new : A) : Prop :=
  match field with
  | Some v => new = v
  | None => new = old
  end.

(** [validate(schema)] *)
Definition validate {T} (schema : json -> option T) (req : Request) : step T :=
  match schema (body req) with
  | None => Respond (mkResponse 400 ValidationFailed)
  | Some data => Next data
  end.

Section Router.
Variable P : Platform.

(** Auth: cookie session OR dev bearer-admin *)
Definition requireAuth (req : Request) : step Request :=
  let bearer :=
    match env P "ADMIN_TOKEN", authorization req with
    | Some adminToken, Some auth =>
        if truthy_str adminToken && startsWith "Bearer " auth
        then String.eqb (slice 7 auth) adminToken
        else false
    | _, _ => false
    end in
  if bearer then Next (set_user admin req)
  else match user req with
       | None => Respond (mkResponse 401 (Failure "Not authenticated"))
       | Some _ => Next req
       end.

(** [req.user.id]; a [TypeError] when there is no user. *)
Definition the_user (req : Request) : M ReqUser :=
  match user req with
  | Some u => ret u
  | None => throw (mkExn "TypeError" CodeNone)
  end.

Definition list_where (t : Time) (q : Query) : MeetingWhere :=
  mkWhere (Some t)
    (when_truthy (q_subject q))
    (when_truthy (q_level q))
    (when_truthy (q_specialization q))
    (if truthy (q_from q) || truthy (q_to q)
     then option_map (Date_parse P) (when_truthy (q_from q)) else None)
    (if truthy (q_from q) || truthy (q_to q)
     then option_map (Date_parse P) (when_truthy (q_to q)) else None)
    (when_truthy (q_q q)).

(** LIST with filters: [r.get('/')] *)
Definition list_meetings (req : Request) : M response :=
  t <- now ;;
  items <- meeting_findMany (list_where t (query req)) None ;;
  ret (json_ (ManyMeetings items)).

(** The row that CREATE inserts for payload [b] and creator [u], with the
    calendar event id [g] it ends up with. *)
Definition created (b : CreateBody) (u : ReqUser) (ts te : Time)
    (g : option string) (w : World) : Meeting :=
  mkMeeting (gen_id P (inserted w)) (cb_title b) (collapse (cb_description b))
    (collapse (cb_subject b)) (collapse (cb_level b))
    (collapse (cb_specialization b)) ts te (collapse (cb_location b))
    (collapse (cb_onlineUrl b)) (ru_id u) g (clock w) (clock w).

(** The attendee row that CREATE inserts for the creator. *)
Definition enrolled (u : ReqUser) (w : World) : Attendee :=
  mkAttendee (gen_id P (S (inserted w))) (gen_id P (inserted w)) (ru_id u)
    "going" (clock w).

(** CREATE: the handler of [r.post('/')] *)
Definition create_handler (req : Request) (b : CreateBody) : M response :=
  u <- the_user req ;;
  m <- meeting_create P
         (mkCreate (cb_title b) (collapse (cb_description b))
            (collapse (cb_subject b)) (collapse (cb_level b))
            (collapse (cb_specialization b))
            (Date_parse P (cb_startTime b)) (Date_parse P (cb_endTime b))
            (collapse (cb_location b)) (collapse (cb_onlineUrl b))
            (ru_id u)) ;;
  (* add creator as attendee *)
  meetingAttendee_create P (id m) (ru_id u) "going" ;;;
  (* Try Google Calendar (best effort) *)
  try_catch
    (geid <- createCalendarEventForMeeting P (ru_refreshToken u) (cb_title b)
               (collapse (cb_description b)) (startTime m) (endTime m)
               (collapse (cb_location b)) (collapse (cb_onlineUrl b)) ;;
     match geid with
     | Some g => meeting_update (id m)
                   (mkUpdate None None None None None None None None None
                      (Some (Some g))) ;;; ret tt
     | None => ret tt
     end)
    (fun e => log "[calendar] insert failed:") ;;;
  full <- meeting_findUnique_full (id m) ;;
  ret (mkResponse 201 (OneMeeting full)).

Definition create (req : Request) : M response :=
  match requireAuth req with
  | Respond r => ret r
  | Next req =>
      match validate (CreateMeetingSchema P) req with
      | Respond r => ret r
      | Next b => create_handler req b
      end
  end.

(** [data] of the update in PATCH. *)
Definition patch_data (b : PatchBody) : MeetingUpdate :=
  mkUpdate (pb_title b) (pb_description b) (pb_subject b) (pb_level b)
    (pb_specialization b)
    (match pb_startTime b with
     | Some s => if truthy_str s then Some (Date_parse P s) else None
     | None => None
     end)
    (match pb_endTime b with
     | Some s => if truthy_str s then Some (Date_parse P s) else None
     | None => None
     end)
    (pb_location b) (pb_onlineUrl b) None.

(** The same for a date, which travels as an ISO string. *)
Definition overwritten_date (field : option string) (old new : Time) : Prop :=
  match field with
  | Some s => Date_parse P s = Some new
  | None => new = old
  end.

(** PATCH (edit + sync to Google): the handler of [r.patch('/:id')] *)
Definition patch_handler (req : Request) (b : PatchBody) : M response :=
  let k := param_id req in
  found <- meeting_findUnique_full k ;;
  match found with
  | None => ret (mkResponse 404 (Failure "Not found"))
  | Some f =>
      let m := meeting f in
      if negb (is_owner m (user req)) && negb (is_admin (user req))
      then ret (mkResponse 403 (Failure "Forbidden"))
      else
        updated <- meeting_update k (patch_data b) ;;
        d <- get_db ;;
        (* Best effort Google sync if we have event id + refresh token *)
        match when_truthy (googleEventId m), when_truthy (creator_token f) with
        | Some g, Some token =>
            try_catch
              (updateGoogleEvent P token g
                 (title updated) (description updated) (location updated)
                 (startTime updated) (endTime updated))
              (fun e => log "[calendar] update failed:")
        | _, _ => ret tt
        end ;;;
        ret (json_ (OneMeeting (Some (with_relations d updated))))
  end.

Definition patch (req : Request) : M response :=
  match requireAuth req with
  | Respond r => ret r
  | Next req =>
      match validate (PatchMeetingSchema P) req with
      | Respond r => ret r
      | Next b => patch_handler req b
      end
  end.

(** JOIN: the handler of [r.post('/:id/join')] *)
Definition join_handler (req : Request) : M response :=
  let k := param_id req in
  found <- meeting_findUnique k ;;
  match found with
  | None => ret (mkResponse 404 (Failure "Not found"))
  | Some m =>
      t <- now ;;
      if endTime m <=? t
      then ret (mkResponse 400 (Failure "Meeting already ended"))
      else
        try_catch
          (u <- the_user req ;;
           a <- meetingAttendee_create P k (ru_id u) "going" ;;
           ret (json_ (OneAttendee a)))
          (fun e =>
             if code_is_str (exn_code e) "P2002"
             then ret (mkResponse 200 (SuccessNote "Already joined"))
             else ret (mkResponse 400 (Failure "Join failed")))
  end.

Definition join (req : Request) : M response :=
  match requireAuth req with
  | Respond r => ret r
  | Next req => join_handler req
  end.

(** LEAVE *)
Definition leave_handler (req : Request) : M response :=
  u <- the_user req ;;
  meetingAttendee_deleteMany (of_pair (param_id req) (ru_id u)) ;;;
  ret (json_ Success).

Definition leave (req : Request) : M response :=
  match requireAuth req with
  | Respond r => ret r
  | Next req => leave_handler req
  end.

(** DETAIL *)
Definition detail (req : Request) : M response :=
  item <- meeting_findUnique_full (param_id req) ;;
  match item with
  | None => ret (mkResponse 404 Failed)
  | Some f => ret (json_ (OneMeeting (Some f)))
  end.

(** The two statements of the transaction in DELETE. *)
Definition delete_locally (k : string) : M unit :=
  transaction [ meetingAttendee_deleteMany (of_meeting k); meeting_delete k ].

(** What DELETE asks of the calendar adapter for a stored meeting. *)
Definition cleanup (f : MeetingFull) : M unit :=
  try_catch
    (deleteGoogleEventWithFallback P (creator_token f)
       (googleEventId (meeting f)) (title (meeting f))
       (startTime (meeting f)) (endTime (meeting f)))
    (fun e => log "[calendar] delete fallback failed:").

(** DELETE (creator or admin): the handler of [r.delete('/:id')] *)
Definition delete_handler (req : Request) : M response :=
  let k := param_id req in
  found <- meeting_findUnique_full k ;;
  match found with
  | None => ret (mkResponse 404 (Failure "Not found"))
  | Some f =>
      if negb (is_owner (meeting f) (user req)) && negb (is_admin (user req))
      then ret (mkResponse 403 (Failure "Forbidden"))
      else
        (* Best effort Google cleanup (never blocks DB deletion) *)
        cleanup f ;;;
        delete_locally k ;;;
        ret (json_ Success)
  end.

Definition delete (req : Request) : M response :=
  match requireAuth req with
  | Respond r => ret r
  | Next req => delete_handler req
  end.
End Router.

End Meetings.

Export Meetings.

(* ------------------------------------------------------------------------- *)
(** ** Recommendations ([services/recommendations.ts])                        *)
(* ------------------------------------------------------------------------- *)

Module Recommendations.

Local Open Scope async_scope.

(** [interface Recommendation]; score and reason of a ranking come from the
    model's JSON as they are ([None] is [undefined]). *)
Record Recommendation : Type := mkRec {
  rec_meeting : Candidate;
  score : option json;
  reason : option json
}.

(** [set.add(s)] on an insertion-ordered [Set<string>] *)
Definition add (s : string) (set : list string) : list string :=
  if existsb (String.eqb s) set then set else set ++ [s].

Definition add_truthy (s : option string) (set : list string) : list string :=
  match when_truthy s with Some s => add s set | None => set end.

(** The three sets after the [for (const attendance of attendedMeetings)]
    loop; [column] picks subject, level or specialization. *)
Definition collect (d : DB) (column : Meeting -> option string)
    (attended : list Attendee) : list string :=
  fold_left
    (fun set a =>
       match find_meeting d (att_meetingId a) with
       | Some m => add_truthy (column m) set
       | None => set
       end)
    attended [].

(** Build a profile of the user based on their activity *)
Definition getUserProfile (userId : string) : M (option UserProfile) :=
  u <- user_findUnique userId ;;
  match u with
  | None => ret None
  | Some u =>
      attended <- meetingAttendee_findMany userId ;;
      d <- get_db ;;
      ret (Some (mkProfile (user_id u) (user_name u)
                   (collect d subject attended)
                   (collect d level attended)
                   (collect d specialization attended)
                   (List.length attended)))
  end.

Definition upcoming (t : Time) : MeetingWhere :=
  mkWhere (Some t) None None None None None None.

Definition candidate (f : MeetingFull) : Candidate :=
  let m := meeting f in
  mkCandidate (id m) (title m) (description m) (subject m) (level m)
    (specialization m) (startTime m) (List.length (full_attendees f)).

(** Get available meetings user hasn't joined yet *)
Definition getAvailableMeetings (userId : string) : M (list Candidate) :=
  t <- now ;;
  joined <- meetingAttendee_findMany userId ;;
  let joinedIds := map att_meetingId joined in
  found <- meeting_findMany (upcoming t) (Some 20%nat) ;;
  ret (map candidate
         (filter (fun f => negb (existsb (String.eqb (id (meeting f))) joinedIds))
            found)).

(** [(a, b) => b.attendeesCount - a.attendeesCount] is [<= 0] *)
Definition more_popular (a b : Candidate) : bool :=
  Nat.leb (attendeesCount b) (attendeesCount a).

(** [.sort(...).slice(0, 5).map(...)] of both popularity branches *)
Definition popular (why : string) (available : list Candidate)
  : list Recommendation :=
  map (fun c => mkRec c (Some (JNum 50)) (Some (JStr why)))
    (firstn 5 (sort more_popular available)).

(** The popularity ranking as the specification words it: the [n] most
    attended eligible meetings, in descending order of attendee count, each
    with the fixed score [s] and the fixed reason [why]. *)
Definition popularity_ranking (n : nat) (s : Z) (why : string)
    (eligible : list Candidate) (recs : list Recommendation) : Prop :=
  let top := map rec_meeting recs in
  List.length top = Nat.min n (List.length eligible)
  /\ StronglySorted (fun a b => (attendeesCount b <= attendeesCount a)%nat) top
  /\ (exists rest,
        Permutation eligible (top ++ rest)
        /\ forall a b, In a top -> In b rest ->
                       (attendeesCount b <= attendeesCount a)%nat)
  /\ Forall (fun r => score r = Some (JNum s) /\ reason r = Some (JStr why)) recs.

(** [response.match(/\[[\s\S]*\]/)]: from the first opening bracket to the
    last closing bracket after it. *)
Fixpoint upto_last_close (s : string) : option string :=
  match s with
  | EmptyString => None
  | String c r =>
      match upto_last_close r with
      | Some t => Some (String c t)
      | None => if Ascii.eqb c "]" then Some (String c EmptyString) else None
      end
  end.

Fixpoint match_array (s : string) : option string :=
  match s with
  | EmptyString => None
  | String c r => if Ascii.eqb c "[" then upto_last_close s else match_array r
  end.

(** [r.id] on an element of the parsed array; reading a property of [null]
    throws, a property that is not there is [undefined]. *)
Definition prop (k : string) (r : json) : option json :=
  match r with
  | JObj o => assoc k o
  | _ => None
  end.

Definition is_null (r : json) : bool :=
  match r with JNull => true | _ => false end.

(** [meetingMap.get(r.id)] on [new Map(available.map(m => [m.id, m]))] *)
Definition map_get (available : list Candidate) (key : option json)
  : option Candidate :=
  match key with
  | Some (JStr k) =>
      find (fun c => String.eqb (cand_id c) k) (rev available)
  | _ => None
  end.

(** [rankings.filter(r => meetingMap.has(r.id)).map(r => ...)] *)
Definition rank (available : list Candidate) (rankings : json)
  : M (list Recommendation) :=
  match rankings with
  | JArr rs =>
      if existsb is_null rs then throw (mkExn "TypeError" CodeNone)
      else ret (flat_map
                  (fun r => match map_get available (prop "id" r) with
                            | Some c => [mkRec c (prop "score" r) (prop "reason" r)]
                            | None => []
                            end)
                  rs)
  | _ => throw (mkExn "TypeError" CodeNone)
  end.

Section Service.
Variable P : Platform.

(** [await model.generateContent(prompt)] and [result.response.text()] *)
Definition generateContent (profile : UserProfile)
    (available : list Candidate) : M string :=
  match gemini P profile available with
  | inl e => throw e
  | inr text => ret text
  end.

Definition parse (text : string) : M json :=
  match JSON_parse P text with
  | Some v => ret v
  | None => throw (mkExn "SyntaxError" CodeNone)
  end.

(** Use Gemini to rank meetings by relevance *)
Definition getRecommendations (userId : string) : M (list Recommendation) :=
  if negb (truthy (env P "GEMINI_API_KEY")) then
    log "[recommendations] GEMINI_API_KEY not set, returning empty recommendations" ;;;
    ret []
  else
    profile <- getUserProfile userId ;;
    match profile with
    | None => ret []
    | Some profile =>
        available <- getAvailableMeetings userId ;;
        if Nat.eqb (List.length available) 0 then ret []
        else if Nat.eqb (totalMeetingsJoined profile) 0 then
          (* If user has no history, return meetings sorted by popularity *)
          ret (popular "Popular session you might like" available)
        else
          try_catch
            (response <- generateContent profile available ;;
             match match_array response with
             | None =>
                 log "[recommendations] Failed to parse AI response:" ;;;
                 ret []
             | Some jsonMatch =>
                 rankings <- parse jsonMatch ;;
                 rank available rankings
             end)
            (fun error =>
               log "[recommendations] Gemini API error:" ;;;
               (* Fallback: return popular sessions *)
               ret (popular "Popular session" available))
    end.
End Service.

End Recommendations.

Export Recommendations.

(* ------------------------------------------------------------------------- *)
(** ** A small deployment, used to run the handlers on concrete requests      *)
(* ------------------------------------------------------------------------- *)

Module Sample.

Definition t17 : Time := 1758733200000.   (* 2025-09-24T17:00:00.000Z *)
Definition t18 : Time := 1758736800000.   (* 2025-09-24T18:00:00.000Z *)
Definition t19 : Time := 1758740400000.   (* 2025-09-24T19:00:00.000Z *)

Definition dates (s : string) : option Time :=
  if String.eqb s "2025-09-24T17:00:00.000Z" then Some t17
  else if String.eqb s "2025-09-24T18:00:00.000Z" then Some t18
  else if String.eqb s "2025-09-24T19:00:00.000Z" then Some t19
  else None.

Definition is_some {A} (o : option A) : bool :=
  match o with Some _ => true | None => false end.

Definition digit (n : nat) : string :=
  String (ascii_of_nat (48 + Nat.modulo n 10)) EmptyString.

Definition row_id (n : nat) : string := "row" ++ digit (Nat.div n 10) ++ digit n.

Definition failure (status : Z) : exn := mkExn "GaxiosError" (CodeNum status).

(** A deployment whose calendar provider and ranking model are both down. *)
Definition offline (adminToken geminiKey : option string) : Platform :=
  mkPlatform
    (fun k => if String.eqb k "ADMIN_TOKEN" then adminToken
              else if String.eqb k "GEMINI_API_KEY" then geminiKey
              else None)
    dates
    (fun s => is_some (dates s))
    row_id
    (fun _ _ => inl (failure 500))
    (fun _ _ => inl (failure 503))
    (fun _ => None).

(** The same deployment with a ranking model that answers [text]. *)
Definition answering (text : string) (parsed : option json) : Platform :=
  mkPlatform
    (fun k => if String.eqb k "GEMINI_API_KEY" then Some "key" else None)
    dates
    (fun s => is_some (dates s))
    row_id
    (fun _ _ => inl (failure 500))
    (fun _ _ => inr text)
    (fun _ => parsed).

Definition alice : User :=
  mkUser "alice" "alice@example.org" (Some "Alice") (Some "rt-alice").
Definition bob : User := mkUser "bob" "bob@example.org" None None.

Definition as_user (u : User) : ReqUser :=
  mkReqUser (user_id u) None (user_refreshToken u).

(** A meeting of Alice from 17:00 to 18:00, mirrored as event "ev1". *)
Definition algebra : Meeting :=
  mkMeeting "m1" "Algebra" (Some "Ch3 review") (Some "Math") (Some "1ere")
    (Some "ISI") t17 t18 (Some "Library room A") None "alice" (Some "ev1")
    1000 1000.

(** A meeting of Bob from 18:00 to 19:00, never mirrored. *)
Definition physics : Meeting :=
  mkMeeting "m2" "Physics" None (Some "Physics") None None t18 t19 None None
    "bob" None 2000 2000.

Definition going (k mid uid : string) : Attendee := mkAttendee k mid uid "going" 1000.

Definition campus : DB :=
  mkDB [alice; bob] [algebra; physics]
    [going "a1" "m1" "alice"; going "a2" "m2" "bob"; going "a3" "m2" "alice"].

Definition at_time (t : Time) (d : DB) : World := mkWorld d t 0 [] [].

Definition no_query : Query := mkQuery None None None None None None.

Definition request (u : option ReqUser) (k : string) (b : json) : Request :=
  mkRequest None u k no_query b.

(** A valid CREATE payload. *)
Definition revision : json :=
  JObj [("title", JStr "Revision"); ("subject", JStr "Math");
        ("startTime", JStr "2025-09-24T18:00:00.000Z");
        ("endTime", JStr "2025-09-24T19:00:00.000Z")].

(** A PATCH payload that moves the start, and nothing else. *)
Definition postpone : json :=
  JObj [("startTime", JStr "2025-09-24T19:00:00.000Z")].

(** A PATCH payload with a [null], an empty string, a new text and a new
    end time. *)
Definition retitle : json :=
  JObj [("description", JNull); ("location", JStr ""); ("subject", JStr "Maths");
        ("endTime", JStr "2025-09-24T19:00:00.000Z")].

End Sample.

(* ------------------------------------------------------------------------- *)
(** ** Deployments whose calendar provider answers                            *)
(* ------------------------------------------------------------------------- *)

Module Mirror.

(** The provider answers every request with the data [d]. *)
Definition answering_calendar (d : gdata) : Platform :=
  mkPlatform (fun _ => None) Sample.dates
    (fun s => Sample.is_some (Sample.dates s)) Sample.row_id
    (fun _ _ => inr d) (fun _ _ => inl (Sample.failure 503)) (fun _ => None).

(** The provider answers every request with "404 Not Found". *)
Definition vanished : Platform :=
  mkPlatform (fun _ => None) Sample.dates
    (fun s => Sample.is_some (Sample.dates s)) Sample.row_id
    (fun _ _ => inl (Sample.failure 404)) (fun _ _ => inl (Sample.failure 503))
    (fun _ => None).

(** An answer to an insert, and an answer to a list: two events with an id,
    one without, one with an empty id. *)
Definition inserted_as (k : string) : gdata := mkGdata (Some k) None.

Definition found : gdata :=
  mkGdata None (Some [Some "e1"; None; Some ""; Some "e2"]).

(** The provider lists [found]; the event "e1" is gone already (404), and
    every other request succeeds. *)
Definition half_gone : Platform :=
  mkPlatform (fun _ => None) Sample.dates
    (fun s => Sample.is_some (Sample.dates s)) Sample.row_id
    (fun _ r => match r with
                | EventsList _ _ _ _ _ => inr found
                | EventsDelete _ k _ =>
                    if String.eqb k "e1" then inl (Sample.failure 404)
                    else inr (mkGdata None None)
                | _ => inr (mkGdata None None)
                end)
    (fun _ _ => inl (Sample.failure 503)) (fun _ => None).

(** The provider lists [found] and refuses every delete (403). *)
Definition read_only : Platform :=
  mkPlatform (fun _ => None) Sample.dates
    (fun s => Sample.is_some (Sample.dates s)) Sample.row_id
    (fun _ r => match r with
                | EventsList _ _ _ _ _ => inr found
                | _ => inl (Sample.failure 403)
                end)
    (fun _ _ => inl (Sample.failure 503)) (fun _ => None).

(** An answer of the ranking model, parsed: a session "zz" that is not
    stored, then the algebra session. *)
Definition ranked : json :=
  JArr [JObj [("id", JStr "zz"); ("score", JNum 95); ("reason", JStr "New")];
        JObj [("id", JStr "m1"); ("score", JNum 90);
              ("reason", JStr "Math again")]].



End Mirror.

(* ------------------------------------------------------------------------- *)
(** ** The recommendations route of the server ([src/index.ts])               *)
(* ------------------------------------------------------------------------- *)

Module Server.

Local Open Scope async_scope.

Inductive rec_payload : Type :=
| Ranked (l : list Recommendation)     (* the array itself *)
| RecFailure (error : string).         (* { ok: false, error } *)

Record rec_response : Type := mkRecResponse {
  rec_status : Z;
  rec_sent : rec_payload
}.

Section Routes.
Variable P : Platform.

(** AI-powered recommendations: [app.get('/api/recommendations')] *)
Definition recommendations (user : option ReqUser) : M rec_response :=
  match user with
  | None => ret (mkRecResponse 401 (RecFailure "Not authenticated"))
  | Some u =>
      try_catch
        (l <- getRecommendations P (ru_id u) ;;
         ret (mkRecResponse 200 (Ranked l)))
        (fun error =>
           log "[recommendations] Error:" ;;;
           ret (mkRecResponse 500 (RecFailure "Failed to get recommendations")))
  end.
End Routes.

End Server.

Export Server.

(* ------------------------------------------------------------------------- *)
(** ** What the constraints of [migration.sql] say of a database              *)
(* ------------------------------------------------------------------------- *)

Module Integrity.

(** The columns of the unique index "MeetingAttendee_meetingId_userId_key". *)
Definition pair_of (a : Attendee) : string * string :=
  (att_meetingId a, att_userId a).

(** Primary keys, the unique index and the three foreign keys. *)
Record consistent (d : DB) : Prop := mkConsistent {
  meeting_keys : NoDup (map id (meetings d));
  attendee_keys : NoDup (map att_id (attendees d));
  attendee_pairs : NoDup (map pair_of (attendees d));
  attendee_refs :
    forall a, In a (attendees d) ->
              has_meeting d (att_meetingId a) = true
              /\ has_user d (att_userId a) = true;
  meeting_refs :
    forall m, In m (meetings d) -> has_user d (createdById m) = true
}.

(** The order of the two dates of every meeting. *)
Definition ordered (d : DB) : Prop :=
  forall m, In m (meetings d) -> startTime m < endTime m.

(** [m] keeps the property [I] of the database, however it ends. *)
Definition preserves (I : DB -> Prop) {A} (m : M A) : Prop :=
  forall w, I (db w) -> I (db (snd (m w))).

End Integrity.

Export Integrity.

(* ------------------------------------------------------------------------- *)
(** ** What a computation does to the provider log and to the console         *)
(* ------------------------------------------------------------------------- *)

Module Traffic.

(** [m] writes nothing on the console, and the provider log only grows. *)
Definition only_calls {A} (m : M A) : Prop :=
  forall w, console (snd (m w)) = console w
            /\ exists calls, gcalls (snd (m w)) = (gcalls w ++ calls)%list.

(** The ids the fallback loop tries to delete: those of the listed items
    that have a non-empty [id]. *)
Definition listed_ids (items : list (option string)) : list string :=
  flat_map (fun item => match when_truthy item with
                        | Some k => [k]
                        | None => []
                        end) items.

(** The provider's answer to the [i]-th of the requests [reqs], sent one
    after the other when the log was [before]. *)
Definition answer_at (P : Platform) (before reqs : list grequest) (i : nat)
  : option (exn + gdata) :=
  match nth_error reqs i with
  | Some r => Some (gapi P (before ++ firstn i reqs) r)
  | None => None
  end.

(** An answer that lets a loop over deletes go on: a success, or an error
    404 or 410. *)
Definition passes (a : option (exn + gdata)) : bool :=
  match a with
  | Some (inl e) => gone e
  | _ => true
  end.

(** [t] is an instant that [toISOString] can render. *)
Definition renderable (t : Time) : bool := Z.abs t <=? 8640000000000000.


(** The [id] of a ranking entry is a string, the id of one of the
    candidates. *)
Definition names_candidate (available : list Candidate) (entry : json) : bool :=
  match prop "id" entry with
  | Some (JStr k) => existsb (fun c => String.eqb (cand_id c) k) available
  | _ => false
  end.

(** The character [c] occurs in [s]. *)
Fixpoint occurs (c : ascii) (s : string) : bool :=
  match s with
  | EmptyString => false
  | String x r => Ascii.eqb x c || occurs c r
  end.

End Traffic.

Export Traffic.

(* ========================================================================= *)
(** * Properties                                                              *)
(* ========================================================================= *)

(** ** Sorting *)

Module SortFacts.
Section Ordered.
Context {A : Type} (before : A -> A -> bool).
Hypothesis total : forall a b, before a b = false -> before b a = true.
Hypothesis trans :
  forall a b c, before a b = true -> before b c = true -> before a c = true.

Let R (a b : A) : Prop := before a b = true.

Lemma insert_perm (x : A) (l : list A) :
  Permutation (x :: l) (insert before x l).
Proof.
  induction l as [|y r IH]; cbn.
  - reflexivity.
  - destruct (before x y).
    + reflexivity.
    + rewrite perm_swap. now apply perm_skip.
Qed.

Lemma sort_perm (l : list A) : Permutation l (sort before l).
Proof.
  induction l as [|x r IH]; cbn.
  - constructor.
  - rewrite <- insert_perm. now apply perm_skip.
Qed.

Lemma insert_sorted (x : A) (l : list A) :
  StronglySorted R l -> StronglySorted R (insert before x l).
Proof.
  induction 1 as [|y r Hs IH Hall]; cbn.
  - repeat constructor.
  - destruct (before x y) eqn:E.
    + constructor; [now constructor|].
      constructor; [exact E|].
      eapply Forall_impl; [|exact Hall].
      intros z Hz. eapply trans; eauto.
    + constructor; [exact IH|].
      eapply Permutation_Forall; [apply insert_perm|].
      constructor; [now apply total | exact Hall].
Qed.

Lemma sort_sorted (l : list A) : StronglySorted R (sort before l).
Proof.
  induction l as [|x r IH]; cbn.
  - constructor.
  - now apply insert_sorted.
Qed.
End Ordered.

Lemma in_firstn {A} (n : nat) (l : list A) (x : A) :
  In x (firstn n l) -> In x l.
Proof.
  revert n. induction l as [|y r IH]; intros [|n]; cbn; try tauto.
  intros [->|H]; eauto.
Qed.

Lemma in_skipn {A} (n : nat) (l : list A) (x : A) :
  In x (skipn n l) -> In x l.
Proof.
  revert n. induction l as [|y r IH]; intros [|n]; cbn; try tauto.
  intros H. eauto.
Qed.

Lemma sorted_firstn {A} (R : A -> A -> Prop) (n : nat) (l : list A) :
  StronglySorted R l -> StronglySorted R (firstn n l).
Proof.
  intros H. revert n.
  induction H as [|x r Hs IH Hall]; intros [|n]; cbn; try constructor.
  - apply IH.
  - rewrite Forall_forall in *. intros y Hy.
    apply Hall. eapply in_firstn; eauto.
Qed.

Lemma sorted_split {A} (R : A -> A -> Prop) (n : nat) (l : list A) :
  StronglySorted R l ->
  forall a b, In a (firstn n l) -> In b (skipn n l) -> R a b.
Proof.
  intros H. revert n.
  induction H as [|x r Hs IH Hall]; intros [|n] a b Ha Hb; cbn in *;
    try contradiction.
  destruct Ha as [<-|Ha].
  - rewrite Forall_forall in Hall. apply Hall.
    eapply in_skipn; eauto.
  - eapply IH; eauto.
Qed.

Lemma sorted_impl {A} (R S : A -> A -> Prop) (l : list A) :
  (forall a b, R a b -> S a b) -> StronglySorted R l -> StronglySorted S l.
Proof.
  intros HRS. induction 1 as [|x r Hs IH Hall]; constructor; auto.
  eapply Forall_impl; [|exact Hall]. auto.
Qed.

Lemma sorted_map {A B} (f : A -> B) (R : A -> A -> Prop) (S : B -> B -> Prop)
    (l : list A) :
  (forall a b, R a b -> S (f a) (f b)) ->
  StronglySorted R l -> StronglySorted S (map f l).
Proof.
  intros HRS. induction 1 as [|x r Hs IH Hall]; cbn; constructor; auto.
  rewrite Forall_forall in *. intros y Hy.
  apply in_map_iff in Hy as (z & <- & Hz). auto.
Qed.
End SortFacts.

(** ** Listing *)

Module ListFacts.

Lemma starts_before_total (a b : Meeting) :
  starts_before a b = false -> starts_before b a = true.
Proof. unfold starts_before. intros H. apply Z.leb_gt in H. apply Z.leb_le. lia. Qed.

Lemma starts_before_trans (a b c : Meeting) :
  starts_before a b = true -> starts_before b c = true ->
  starts_before a c = true.
Proof. unfold starts_before. rewrite !Z.leb_le. lia. Qed.

Lemma matches_not_ended (q : MeetingWhere) (t : Time) (m : Meeting) :
  where_endTime_gt q = Some t -> matches q m = true -> t < endTime m.
Proof.
  unfold matches. intros ->. cbn.
  rewrite !andb_true_iff. intros [[[[H _] _] _] _].
  now apply Z.ltb_lt.
Qed.

Lemma meeting_of_relations (d : DB) (l : list Meeting) :
  map meeting (map (with_relations d) l) = l.
Proof.
  rewrite map_map. cbn. apply map_id.
Qed.

Lemma selected_matches (q : MeetingWhere) (n : option nat) (d : DB) (m : Meeting) :
  In m (selected q n d) -> In m (meetings d) /\ matches q m = true.
Proof.
  unfold selected. intros H.
  assert (In m (sort starts_before (filter (matches q) (meetings d)))) as H'.
  { destruct n; cbn in H; [eapply SortFacts.in_firstn; eauto | exact H]. }
  eapply Permutation_in in H'.
  2: { apply Permutation_sym, SortFacts.sort_perm. }
  now apply filter_In in H'.
Qed.

Lemma selected_sorted (q : MeetingWhere) (n : option nat) (d : DB) :
  StronglySorted (fun a b => startTime a <= startTime b) (selected q n d).
Proof.
  unfold selected.
  assert (StronglySorted (fun a b => startTime a <= startTime b)
            (sort starts_before (filter (matches q) (meetings d)))) as H.
  { eapply SortFacts.sorted_impl.
    2: { apply SortFacts.sort_sorted.
         - exact starts_before_total.
         - exact starts_before_trans. }
    intros a b Hab. apply Z.leb_le. exact Hab. }
  destruct n; cbn; [now apply SortFacts.sorted_firstn | exact H].
Qed.

Lemma findMany_run (q : MeetingWhere) (n : option nat) (w : World) :
  mode_ok q = true ->
  date_ok (where_startTime_gte q) && date_ok (where_startTime_lte q) = true ->
  meeting_findMany q n w = (Ret (map (with_relations (db w)) (selected q n (db w))), w).
Proof.
  intros Hmode H. unfold meeting_findMany. rewrite Hmode, H. reflexivity.
Qed.

Lemma findMany_refused (q : MeetingWhere) (n : option nat) (w : World) :
  mode_ok q && (date_ok (where_startTime_gte q) && date_ok (where_startTime_lte q))
  = false ->
  meeting_findMany q n w = (Throw invalid, w).
Proof.
  intros H. unfold meeting_findMany.
  destruct (mode_ok q); [|reflexivity]. cbn in H. now rewrite H.
Qed.

Lemma list_mode_ok (P : Platform) (t : Time) (q : Query) :
  mode_ok (list_where P t q) = false ->
  truthy (q_subject q) = true \/ truthy (q_q q) = true.
Proof.
  unfold mode_ok, list_where, when_truthy. cbn.
  destruct (truthy (q_subject q)); [now left|].
  destruct (truthy (q_q q)); [now right|]. discriminate.
Qed.

(** C3. Whatever the filters, the list that [GET /] sends holds no meeting
    whose end time is at or before the time of the query, and it is in
    ascending order of start time; the request changes nothing.  When it
    does not answer, Prisma refused the query: for a [subject] or [q] filter,
    whose case-insensitive mode the SQLite client does not have, or for a
    [from] or [to] that is not a date. *)
Theorem list_hides_ended_and_orders (P : Platform) (req : Request) (w : World) :
  exists out, list_meetings P req w = (out, w) /\
    match out with
    | Ret resp =>
        exists items, resp = mkResponse 200 (ManyMeetings items) /\
          (forall m, endTime m <= clock w -> ~ In m (map meeting items)) /\
          StronglySorted
            (fun a b => startTime (meeting a) <= startTime (meeting b)) items
    | Throw e =>
        e = invalid /\
        (truthy (q_subject (query req)) = true
         \/ truthy (q_q (query req)) = true
         \/ option_map (Date_parse P) (when_truthy (q_from (query req))) = Some None
         \/ option_map (Date_parse P) (when_truthy (q_to (query req))) = Some None)
    end.
Proof.
  unfold list_meetings, bind, now.
  set (q := list_where P (clock w) (query req)).
  destruct (mode_ok q) eqn:Hmode.
  2: { rewrite (findMany_refused q None w) by now rewrite Hmode.
       eexists. split; [reflexivity|]. split; [reflexivity|].
       destruct (list_mode_ok P _ _ Hmode); auto. }
  destruct (date_ok (where_startTime_gte q) && date_ok (where_startTime_lte q))
    eqn:Hok.
  - rewrite (findMany_run q None w Hmode Hok).
    eexists. split; [reflexivity|].
    eexists. split; [reflexivity|]. split.
    + intros m Hend Hin. rewrite meeting_of_relations in Hin.
      apply selected_matches in Hin as [_ Hm].
      apply (matches_not_ended q (clock w)) in Hm; [lia | reflexivity].
    + eapply SortFacts.sorted_map; [|apply selected_sorted].
      cbn. auto.
  - rewrite (findMany_refused q None w) by now rewrite Hmode, Hok.
    eexists. split; [reflexivity|]. split; [reflexivity|].
    right. right.
    apply andb_false_iff in Hok. subst q. unfold list_where in Hok. cbn in Hok.
    destruct (truthy (q_from (query req)) || truthy (q_to (query req))).
    + destruct Hok as [H|H]; [left|right];
        match type of H with
        | date_ok ?x = false => destruct x as [[?|]|]; cbn in H; congruence
        end.
    + cbn in Hok. destruct Hok; discriminate.
Qed.

(** At 18:00 on the sample campus the algebra session (17:00 to 18:00) has
    ended: it is not listed although it is stored; the physics session is. *)
Example list_at_six :
  fst (list_meetings (Sample.offline None None)
         (Sample.request None "" JNull) (Sample.at_time Sample.t18 Sample.campus))
  = Ret (mkResponse 200
           (ManyMeetings [with_relations Sample.campus Sample.physics])).
Proof. reflexivity. Qed.

End ListFacts.

(** ** The monad and the calendar adapter *)

Module AsyncFacts.

Local Open Scope async_scope.

Lemma keeps_ret {A} (a : A) : keeps_store (ret a).
Proof. intros w. cbn. auto. Qed.

Lemma keeps_throw {A} (e : exn) : keeps_store (@throw A e).
Proof. intros w. cbn. auto. Qed.

Lemma keeps_log (line : string) : keeps_store (log line).
Proof. intros w. cbn. auto. Qed.

Lemma keeps_bind {A B} (m : M A) (k : A -> M B) :
  keeps_store m -> (forall a, keeps_store (k a)) -> keeps_store (bind m k).
Proof.
  intros Hm Hk w. unfold bind.
  destruct (Hm w) as (H1 & H2 & H3).
  destruct (m w) as [[a|e] w1]; cbn in *.
  - destruct (Hk a w1) as (K1 & K2 & K3). repeat split; congruence.
  - auto.
Qed.

Lemma keeps_try_catch {A} (m : M A) (h : exn -> M A) :
  keeps_store m -> (forall e, keeps_store (h e)) -> keeps_store (try_catch m h).
Proof.
  intros Hm Hh w. unfold try_catch.
  destruct (Hm w) as (H1 & H2 & H3).
  destruct (m w) as [[a|e] w1]; cbn in *.
  - auto.
  - destruct (Hh e w1) as (K1 & K2 & K3). repeat split; congruence.
Qed.

Lemma keeps_toISOString (t : Time) : keeps_store (toISOString t).
Proof.
  unfold toISOString. destruct (Z.abs t <=? _); [apply keeps_ret | apply keeps_throw].
Qed.

Create HintDb keeps.
#[global] Hint Resolve keeps_ret keeps_throw keeps_log keeps_toISOString : keeps.

Ltac keeps :=
  repeat first
    [ progress auto with keeps
    | apply keeps_bind; [|intros ?]
    | apply keeps_try_catch; [|intros ?]
    | match goal with
      | |- keeps_store (if ?c then _ else _) => destruct c
      | |- keeps_store (match ?c with _ => _ end) => destruct c
      end ].

Section Adapter.
Variable P : Platform.

Lemma keeps_call (r : grequest) : keeps_store (call P r).
Proof. intros w. unfold call. destruct (gapi P (gcalls w) r); cbn; auto. Qed.

Hint Resolve keeps_call : keeps.

Lemma keeps_create_event creator title description start finish location url :
  keeps_store (createCalendarEventForMeeting P creator title description
                 start finish location url).
Proof. unfold createCalendarEventForMeeting. keeps. Qed.

Lemma keeps_update_event token k summary description location start finish :
  keeps_store (updateGoogleEvent P token k summary description location
                 start finish).
Proof. unfold updateGoogleEvent. keeps. Qed.

Lemma keeps_delete_event token k : keeps_store (deleteGoogleEvent P token k).
Proof. unfold deleteGoogleEvent. keeps. Qed.

Lemma keeps_delete_each token items : keeps_store (delete_each P token items).
Proof.
  induction items as [|item rest IH]; cbn [delete_each].
  - keeps.
  - apply keeps_bind; [|intros _; exact IH]. keeps.
Qed.

Lemma keeps_delete_by_query token summary timeMin timeMax :
  keeps_store (deleteGoogleEventByQuery P token summary timeMin timeMax).
Proof.
  unfold deleteGoogleEventByQuery.
  apply keeps_bind; [keeps | intros ?; apply keeps_delete_each].
Qed.

Hint Resolve keeps_delete_event keeps_delete_by_query : keeps.

Lemma keeps_delete_with_fallback creator k title start finish :
  keeps_store (deleteGoogleEventWithFallback P creator k title start finish).
Proof. unfold deleteGoogleEventWithFallback. keeps. Qed.

(** The helper's own contract: "Never throws (errors are swallowed)". *)
Lemma delete_with_fallback_never_throws creator k title start finish w :
  exists w', deleteGoogleEventWithFallback P creator k title start finish w
             = (Ret tt, w').
Proof.
  unfold deleteGoogleEventWithFallback.
  destruct creator as [token|]; [|eexists; reflexivity].
  destruct (truthy_str token); [|eexists; reflexivity].
  unfold try_catch.
  match goal with
  | |- context [match ?m w with _ => _ end] => destruct (m w) as [[[]|e] w1]
  end;
    eexists; reflexivity.
Qed.
End Adapter.

End AsyncFacts.

(** ** The store *)

Module StoreFacts.

Lemma set_db_same (w : World) : set_db (db w) w = w.
Proof. now destruct w. Qed.

Lemma set_db_twice (d d' : DB) (w : World) : set_db d (set_db d' w) = set_db d w.
Proof. reflexivity. Qed.

Lemma filter_twice {A} (f : A -> bool) (l : list A) :
  filter f (filter f l) = filter f l.
Proof.
  induction l as [|x r IH]; cbn; [reflexivity|].
  destruct (f x) eqn:E; cbn; rewrite ?E, IH; reflexivity.
Qed.

Lemma find_filter_out {A} (f : A -> bool) (l : list A) :
  find f (filter (fun x => negb (f x)) l) = None.
Proof.
  induction l as [|x r IH]; cbn; [reflexivity|].
  destruct (f x) eqn:E; cbn; rewrite ?E; exact IH.
Qed.

Lemma filter_filter_out {A} (f : A -> bool) (l : list A) :
  filter f (filter (fun x => negb (f x)) l) = [].
Proof.
  induction l as [|x r IH]; cbn; [reflexivity|].
  destruct (f x) eqn:E; cbn; rewrite ?E; exact IH.
Qed.

(** Nothing of meeting [k] is left in [without k d]; the rest is as it was. *)
Lemma without_meeting (k : string) (d : DB) : find_meeting (without k d) k = None.
Proof. apply find_filter_out. Qed.

Lemma without_attendees (k : string) (d : DB) : attendees_of (without k d) k = [].
Proof.
  unfold attendees_of. cbn [attendees without].
  now rewrite filter_filter_out.
Qed.

Lemma without_others (k : string) (d : DB) :
  users (without k d) = users d
  /\ (forall m, In m (meetings (without k d)) <->
               In m (meetings d) /\ id m <> k)
  /\ (forall a, In a (attendees (without k d)) <->
               In a (attendees d) /\ att_meetingId a <> k).
Proof.
  split; [reflexivity|]. split; intros x; cbn; rewrite filter_In;
    unfold is_id, of_meeting; rewrite negb_true_iff, String.eqb_neq; tauto.
Qed.

Lemma find_meeting_id (d : DB) (k : string) (m : Meeting) :
  find_meeting d k = Some m -> id m = k /\ In m (meetings d).
Proof.
  intros H. apply find_some in H as [Hin H]. split; [|exact Hin].
  now apply String.eqb_eq.
Qed.

Lemma find_meeting_has (d : DB) (k : string) (m : Meeting) :
  find_meeting d k = Some m -> has_meeting d k = true.
Proof.
  intros H. apply find_some in H as [Hin H].
  apply existsb_exists. eauto.
Qed.

Lemma has_meeting_find (d : DB) (k : string) :
  has_meeting d k = false -> find_meeting d k = None.
Proof.
  unfold has_meeting, find_meeting.
  induction (meetings d) as [|x r IH]; cbn; [reflexivity|].
  destruct (is_id k x); cbn; [discriminate | exact IH].
Qed.

(** The transaction of DELETE is all or nothing: it removes the meeting and
    every attendee row of it, or it throws and the world is as before. *)
Lemma delete_locally_atomic (k : string) (w : World) :
  match find_meeting (db w) k with
  | Some _ => delete_locally k w = (Ret tt, set_db (without k (db w)) w)
  | None => delete_locally k w = (Throw (known "P2025"), w)
  end.
Proof.
  unfold delete_locally, transaction, try_catch, bind, run_all,
    meetingAttendee_deleteMany, meeting_delete, bind, get_db, put_db, ret, throw.
  cbn. unfold find_meeting.
  destruct (find (is_id k) (meetings (db w))) as [m|]; cbn.
  - unfold without, set_db. cbn. rewrite filter_twice. reflexivity.
  - now destruct w.
Qed.

End StoreFacts.

(** ** Authentication and authorization *)

Module AuthFacts.

Lemma requireAuth_next (P : Platform) (req req' : Request) :
  requireAuth P req = Next req' ->
  (exists u, user req' = Some u)
  /\ param_id req' = param_id req
  /\ body req' = body req
  /\ query req' = query req.
Proof.
  unfold requireAuth.
  match goal with |- context [if ?c then _ else _] => destruct c end.
  - intros [= <-]. cbn. eauto.
  - destruct (user req) eqn:E; [|discriminate].
    intros [= <-]. eauto.
Qed.

Lemma allowed_iff (m : Meeting) (u : option ReqUser) :
  negb (is_owner m u) && negb (is_admin u) = false <->
  is_owner m u || is_admin u = true.
Proof. destruct (is_owner m u), (is_admin u); cbn; intuition congruence. Qed.

End AuthFacts.

(** ** DELETE *)

Module DeleteFacts.

Import StoreFacts AuthFacts AsyncFacts.

Section Delete.
Variable P : Platform.

(** The cleanup step always completes, and the store is as it was. *)
Lemma cleanup_run (f : MeetingFull) (w : World) :
  exists w1, cleanup P f w = (Ret tt, w1) /\ db w1 = db w
             /\ clock w1 = clock w /\ inserted w1 = inserted w.
Proof.
  unfold cleanup, try_catch.
  pose proof (keeps_delete_with_fallback P (creator_token f)
                (googleEventId (meeting f)) (title (meeting f))
                (startTime (meeting f)) (endTime (meeting f)) w) as H.
  destruct (deleteGoogleEventWithFallback P _ _ _ _ _ w) as [[[]|e] w1];
    cbn in *; eexists; (split; [reflexivity | exact H]).
Qed.

Lemma delete_handler_allowed (req : Request) (w : World) (m : Meeting) :
  find_meeting (db w) (param_id req) = Some m ->
  is_owner m (user req) || is_admin (user req) = true ->
  exists w1,
    cleanup P (with_relations (db w) m) w = (Ret tt, w1)
    /\ db w1 = db w
    /\ delete_handler P req w
       = (Ret (mkResponse 200 Success),
          set_db (without (param_id req) (db w)) w1).
Proof.
  intros Hm Hok. apply allowed_iff in Hok.
  destruct (cleanup_run (with_relations (db w) m) w) as (w1 & Hc & Hd & _).
  exists w1. split; [exact Hc|]. split; [exact Hd|].
  unfold delete_handler, bind at 1, meeting_findUnique_full, bind, get_db, ret.
  rewrite Hm. cbn [option_map meeting with_relations]. rewrite Hok, Hc.
  pose proof (delete_locally_atomic (param_id req) w1) as Ha.
  rewrite Hd, Hm in Ha. rewrite Ha. reflexivity.
Qed.

(** C1. For an owner or administrator and a stored meeting, DELETE first
    runs the calendar cleanup on the untouched store; whatever the provider
    does (every [gapi] of [P], throwing or not) that step ends normally and
    leaves the store alone.  Then the meeting and all its attendee rows are
    removed together and the answer is 200 [{ ok: true }].  The local
    deletion is one unit on any store: both removals, or an error and no
    change at all. *)
Theorem delete_survives_calendar_failure
    (req req' : Request) (w : World) (m : Meeting) :
  requireAuth P req = Next req' ->
  find_meeting (db w) (param_id req) = Some m ->
  is_owner m (user req') || is_admin (user req') = true ->
  exists w1 w',
    cleanup P (with_relations (db w) m) w = (Ret tt, w1)
    /\ db w1 = db w
    /\ delete P req w = (Ret (mkResponse 200 Success), w')
    /\ w' = set_db (without (param_id req) (db w)) w1
    /\ find_meeting (db w') (param_id req) = None
    /\ attendees_of (db w') (param_id req) = []
    /\ (forall k w0,
          delete_locally k w0 = (Ret tt, set_db (without k (db w0)) w0)
          \/ delete_locally k w0 = (Throw (known "P2025"), w0)).
Proof.
  intros Hauth Hm Hok.
  destruct (requireAuth_next P req req' Hauth) as (_ & Hid & _ & _).
  rewrite <- Hid in Hm.
  destruct (delete_handler_allowed req' w m Hm Hok) as (w1 & Hc & Hd & Hrun).
  rewrite Hid in Hrun.
  exists w1, (set_db (without (param_id req) (db w)) w1).
  repeat split; try assumption.
  - unfold delete. rewrite Hauth. exact Hrun.
  - apply without_meeting.
  - apply without_attendees.
  - intros k w0. pose proof (delete_locally_atomic k w0) as Ha.
    destruct (find_meeting (db w0) k); auto.
Qed.

(** DELETE of a meeting that is not stored. *)
Lemma delete_handler_missing (req : Request) (w : World) :
  find_meeting (db w) (param_id req) = None ->
  delete_handler P req w = (Ret (mkResponse 404 (Failure "Not found")), w).
Proof.
  intros Hm.
  unfold delete_handler, bind, meeting_findUnique_full, bind, get_db, ret.
  rewrite Hm. reflexivity.
Qed.
End Delete.

(** Alice deletes her algebra session while the calendar provider answers
    every call with a 500: the event deletion is tried and fails, the
    meeting and its attendee row are gone all the same. *)
Lemma delete_survives_calendar_failure_witness :
  let P := Sample.offline None None in
  let req := Sample.request (Some (Sample.as_user Sample.alice)) "m1" JNull in
  let w := Sample.at_time Sample.t17 Sample.campus in
  exists w1 w',
    cleanup P (with_relations (db w) Sample.algebra) w = (Ret tt, w1)
    /\ db w1 = db w
    /\ delete P req w = (Ret (mkResponse 200 Success), w')
    /\ w' = set_db (without (param_id req) (db w)) w1
    /\ find_meeting (db w') (param_id req) = None
    /\ attendees_of (db w') (param_id req) = []
    /\ (forall k w0,
          delete_locally k w0 = (Ret tt, set_db (without k (db w0)) w0)
          \/ delete_locally k w0 = (Throw (known "P2025"), w0)).
Proof.
  intros P req w.
  apply (delete_survives_calendar_failure P req req w Sample.algebra);
    reflexivity.
Defined.

Example delete_tries_the_calendar_first :
  let P := Sample.offline None None in
  let req := Sample.request (Some (Sample.as_user Sample.alice)) "m1" JNull in
  let w' := snd (delete P req (Sample.at_time Sample.t17 Sample.campus)) in
  gcalls w' = [EventsDelete "rt-alice" "ev1" (Some "all")]
  /\ map id (meetings (db w')) = ["m2"]
  /\ map att_id (attendees (db w')) = ["a2"; "a3"].
Proof. repeat split. Qed.

End DeleteFacts.

(** ** JOIN *)

Module JoinFacts.

Import StoreFacts AuthFacts.

Section Join.
Variable P : Platform.

(** The world after one id has been drawn. *)
Lemma attendee_create_duplicate (mid uid st : string) (w : World) :
  existsb (of_pair mid uid) (attendees (db w)) = true ->
  exists w', meetingAttendee_create P mid uid st w = (Throw (known "P2002"), w')
             /\ db w' = db w /\ clock w' = clock w.
Proof.
  intros H. unfold meetingAttendee_create, bind, fresh_id, now, get_db, throw.
  cbn. rewrite H.
  match goal with |- context [if ?c then _ else _] => destruct c end;
    eexists; repeat split.
Qed.

Lemma attendee_create_new (mid uid st : string) (w : World) :
  existsb (fun a => String.eqb (att_id a) (gen_id P (inserted w)))
    (attendees (db w)) = false ->
  existsb (of_pair mid uid) (attendees (db w)) = false ->
  has_meeting (db w) mid = true ->
  has_user (db w) uid = true ->
  let a := mkAttendee (gen_id P (inserted w)) mid uid st (clock w) in
  meetingAttendee_create P mid uid st w
  = (Ret a,
     mkWorld (mkDB (users (db w)) (meetings (db w)) (attendees (db w) ++ [a]))
       (clock w) (S (inserted w)) (gcalls w) (console w)).
Proof.
  intros Hk Hp Hm Hu.
  unfold meetingAttendee_create, bind, fresh_id, now, get_db, put_db, ret.
  cbn. rewrite Hk, Hp, Hm, Hu. reflexivity.
Qed.

Lemma join_handler_missing (req : Request) (w : World) :
  find_meeting (db w) (param_id req) = None ->
  join_handler P req w = (Ret (mkResponse 404 (Failure "Not found")), w).
Proof.
  intros H. unfold join_handler, bind, meeting_findUnique, bind, get_db, ret.
  rewrite H. reflexivity.
Qed.

Lemma join_handler_ended (req : Request) (w : World) (m : Meeting) :
  find_meeting (db w) (param_id req) = Some m ->
  endTime m <= clock w ->
  join_handler P req w
  = (Ret (mkResponse 400 (Failure "Meeting already ended")), w).
Proof.
  intros H Hend. unfold join_handler, bind, meeting_findUnique, bind, get_db, ret, now.
  rewrite H. apply Z.leb_le in Hend. rewrite Hend. reflexivity.
Qed.

Lemma join_handler_open (req : Request) (w : World) (m : Meeting) :
  find_meeting (db w) (param_id req) = Some m ->
  clock w < endTime m ->
  join_handler P req w
  = try_catch
      (bind (the_user req) (fun u =>
       bind (meetingAttendee_create P (param_id req) (ru_id u) "going") (fun a =>
       ret (json_ (OneAttendee a)))))
      (fun e =>
         if code_is_str (exn_code e) "P2002"
         then ret (mkResponse 200 (SuccessNote "Already joined"))
         else ret (mkResponse 400 (Failure "Join failed"))) w.
Proof.
  intros H Hend.
  unfold join_handler, bind at 1, meeting_findUnique, bind at 1, get_db, ret at 1.
  rewrite H. unfold bind at 1, now. apply Z.leb_gt in Hend. rewrite Hend. reflexivity.
Qed.

Lemma join_handler_again (req : Request) (u : ReqUser) (w : World) (m : Meeting) :
  user req = Some u ->
  find_meeting (db w) (param_id req) = Some m ->
  clock w < endTime m ->
  existsb (of_pair (param_id req) (ru_id u)) (attendees (db w)) = true ->
  exists w', join_handler P req w
             = (Ret (mkResponse 200 (SuccessNote "Already joined")), w')
             /\ db w' = db w /\ clock w' = clock w.
Proof.
  intros Hu Hm Hend Hdup. rewrite (join_handler_open req w m Hm Hend).
  destruct (attendee_create_duplicate (param_id req) (ru_id u) "going" w Hdup)
    as (w' & Hrun & Hdb & Hclock).
  exists w'. unfold try_catch, bind, the_user. rewrite Hu. unfold ret at 1.
  rewrite Hrun. cbn. auto.
Qed.

Lemma join_handler_first (req : Request) (u : ReqUser) (w : World) (m : Meeting) :
  user req = Some u ->
  find_meeting (db w) (param_id req) = Some m ->
  clock w < endTime m ->
  has_user (db w) (ru_id u) = true ->
  existsb (fun a => String.eqb (att_id a) (gen_id P (inserted w)))
    (attendees (db w)) = false ->
  existsb (of_pair (param_id req) (ru_id u)) (attendees (db w)) = false ->
  let a := mkAttendee (gen_id P (inserted w)) (param_id req) (ru_id u) "going"
             (clock w) in
  join_handler P req w
  = (Ret (mkResponse 200 (OneAttendee a)),
     mkWorld (mkDB (users (db w)) (meetings (db w)) (attendees (db w) ++ [a]))
       (clock w) (S (inserted w)) (gcalls w) (console w)).
Proof.
  intros Hu Hm Hend Huser Hfresh Hnew a.
  rewrite (join_handler_open req w m Hm Hend).
  unfold try_catch, bind, the_user. rewrite Hu. unfold ret at 1.
  rewrite (attendee_create_new (param_id req) (ru_id u) "going" w Hfresh Hnew
             (find_meeting_has _ _ _ Hm) Huser).
  reflexivity.
Qed.

(** C5. JOIN on a meeting whose end time is at or before the current time
    is answered 400 "Meeting already ended"; JOIN on an id that is not stored
    is answered 404 "Not found".  In both cases the world after the request
    is the world before it: no attendee row is written. *)
Theorem join_rejects_ended_or_missing (req req' : Request) (w : World) :
  requireAuth P req = Next req' ->
  (forall m, find_meeting (db w) (param_id req) = Some m ->
             endTime m <= clock w ->
             join P req w
             = (Ret (mkResponse 400 (Failure "Meeting already ended")), w))
  /\ (find_meeting (db w) (param_id req) = None ->
      join P req w = (Ret (mkResponse 404 (Failure "Not found")), w)).
Proof.
  intros Hauth.
  destruct (requireAuth_next P req req' Hauth) as (_ & Hid & _ & _).
  unfold join. rewrite Hauth. split.
  - intros m Hm Hend. apply (join_handler_ended req' w m); congruence.
  - intros Hm. apply join_handler_missing. congruence.
Qed.

(** C4, amended.  A user with a "User" row joins a meeting that has not
    ended, twice in a row (the second time at [t2], still before the end).
    Both calls
    are answered 200, the second with the note "Already joined", and
    afterwards the store holds exactly one attendee row for the pair.  The
    store is assumed to respect its unique index on (meetingId, userId) and
    the id generator to produce an unused id. *)
Theorem join_twice_keeps_one_record
    (req req' : Request) (u : ReqUser) (w0 : World) (m : Meeting) (t2 : Time) :
  requireAuth P req = Next req' ->
  user req' = Some u ->
  find_meeting (db w0) (param_id req) = Some m ->
  clock w0 < endTime m ->
  t2 < endTime m ->
  has_user (db w0) (ru_id u) = true ->
  existsb (fun a => String.eqb (att_id a) (gen_id P (inserted w0)))
    (attendees (db w0)) = false ->
  (List.length (filter (of_pair (param_id req) (ru_id u)) (attendees (db w0)))
   <= 1)%nat ->
  exists r1 w1 w2,
    join P req w0 = (Ret r1, w1)
    /\ status r1 = 200
    /\ join P req (at_clock t2 w1)
       = (Ret (mkResponse 200 (SuccessNote "Already joined")), w2)
    /\ List.length (filter (of_pair (param_id req) (ru_id u))
                      (attendees (db w2))) = 1%nat.
Proof.
  intros Hauth Hu Hm Hopen Hopen2 Huser Hfresh Huniq.
  destruct (requireAuth_next P req req' Hauth) as (_ & Hid & _ & _).
  unfold join. rewrite Hauth. rewrite <- Hid in *.
  destruct (existsb (of_pair (param_id req') (ru_id u)) (attendees (db w0))) eqn:Hdup.
  - (* the row is already there: both calls meet the unique index *)
    destruct (join_handler_again req' u w0 m Hu Hm Hopen Hdup)
      as (w1 & Hrun1 & Hdb1 & _).
    assert (find_meeting (db (at_clock t2 w1)) (param_id req') = Some m) as Hm2
        by (cbn; rewrite Hdb1; exact Hm).
    assert (existsb (of_pair (param_id req') (ru_id u))
              (attendees (db (at_clock t2 w1))) = true)
      as Hdup2 by (cbn; rewrite Hdb1; exact Hdup).
    destruct (join_handler_again req' u (at_clock t2 w1) m Hu Hm2 Hopen2 Hdup2)
      as (w2 & Hrun2 & Hdb2 & _).
    exists (mkResponse 200 (SuccessNote "Already joined")), w1, w2.
    repeat split; try assumption.
    rewrite Hdb2. cbn. rewrite Hdb1.
    apply existsb_exists in Hdup as (a & Hin & Ha).
    assert (In a (filter (of_pair (param_id req') (ru_id u))
                    (attendees (db w0)))) as Hin'
        by (apply filter_In; auto).
    destruct (filter (of_pair (param_id req') (ru_id u)) (attendees (db w0)))
      as [|x [|y r]];
      cbn in *; [contradiction | reflexivity | lia].
  - (* first call inserts the row, second call meets the unique index *)
    pose proof (join_handler_first req' u w0 m Hu Hm Hopen Huser Hfresh Hdup)
      as Hrun1. cbn zeta in Hrun1.
    set (a := mkAttendee (gen_id P (inserted w0)) (param_id req') (ru_id u)
                "going" (clock w0))
      in *.
    set (w1 := mkWorld _ _ _ _ _) in Hrun1.
    assert (find_meeting (db (at_clock t2 w1)) (param_id req') = Some m)
      as Hm2 by exact Hm.
    assert (of_pair (param_id req') (ru_id u) a = true) as Ha
        by (unfold of_pair, of_meeting, of_user; cbn; now rewrite !String.eqb_refl).
    assert (existsb (of_pair (param_id req') (ru_id u))
              (attendees (db (at_clock t2 w1))) = true)
      as Hdup2.
    { unfold w1. cbn [at_clock db attendees]. rewrite existsb_app.
      cbn [existsb]. rewrite Ha. now rewrite orb_true_r. }
    destruct (join_handler_again req' u (at_clock t2 w1) m Hu Hm2 Hopen2 Hdup2)
      as (w2 & Hrun2 & Hdb2 & _).
    exists (mkResponse 200 (OneAttendee a)), w1, w2.
    repeat split; try assumption.
    rewrite Hdb2. unfold w1. cbn [at_clock db attendees].
    rewrite filter_app. cbn [filter]. rewrite Ha.
    rewrite length_app. cbn [List.length].
    assert (filter (of_pair (param_id req') (ru_id u)) (attendees (db w0)) = []) as ->.
    { destruct (filter _ (attendees (db w0))) as [|x r] eqn:E; [reflexivity|].
      assert (In x (filter (of_pair (param_id req') (ru_id u))
                      (attendees (db w0)))) as Hx
          by (rewrite E; now left).
      apply filter_In in Hx as [Hin Hx].
      assert (existsb (of_pair (param_id req') (ru_id u)) (attendees (db w0)) = true)
        by (apply existsb_exists; eauto).
      congruence. }
    reflexivity.
Qed.

End Join.

(** At 18:00 Alice cannot join the algebra session that ends at 18:00, and
    nobody can join a meeting that does not exist. *)
Lemma join_rejects_ended_or_missing_witness :
  let P := Sample.offline None None in
  let w := Sample.at_time Sample.t18 Sample.campus in
  let ended := Sample.request (Some (Sample.as_user Sample.alice)) "m1" JNull in
  let missing := Sample.request (Some (Sample.as_user Sample.alice)) "m9" JNull in
  join P ended w = (Ret (mkResponse 400 (Failure "Meeting already ended")), w)
  /\ join P missing w = (Ret (mkResponse 404 (Failure "Not found")), w).
Proof.
  intros P w ended missing. split.
  - apply (proj1 (join_rejects_ended_or_missing P ended ended w eq_refl)
             Sample.algebra); [reflexivity | cbn; lia].
  - apply (proj2 (join_rejects_ended_or_missing P missing missing w eq_refl)).
    reflexivity.
Defined.

(** Bob joins Alice's algebra session at 17:00 and again a second later. *)
Lemma join_twice_keeps_one_record_witness :
  let P := Sample.offline None None in
  let req := Sample.request (Some (Sample.as_user Sample.bob)) "m1" JNull in
  let w0 := Sample.at_time Sample.t17 Sample.campus in
  exists r1 w1 w2,
    join P req w0 = (Ret r1, w1)
    /\ status r1 = 200
    /\ join P req (at_clock (Sample.t17 + 1000) w1)
       = (Ret (mkResponse 200 (SuccessNote "Already joined")), w2)
    /\ List.length (filter (of_pair "m1" "bob") (attendees (db w2))) = 1%nat.
Proof.
  intros P req w0.
  apply (join_twice_keeps_one_record P req req (Sample.as_user Sample.bob) w0
           Sample.algebra (Sample.t17 + 1000));
    try reflexivity; cbn; lia.
Defined.

(** C4 as stated fails.  [requireAuth] authenticates the bearer of
    ADMIN_TOKEN as the user "admin", and no "User" row has that id on the
    sample campus.  This caller joins the algebra session, which has not
    ended, twice in a row: both calls are answered 400 "Join failed", none
    with the note "Already joined", and there is no attendee row for the
    pair afterwards, where the claim has exactly one. *)
Lemma bearer_admin_joins_twice_in_vain :
  let P := Sample.offline (Some "s3cret") None in
  let req := mkRequest (Some "Bearer s3cret") None "m1" Sample.no_query JNull in
  let w0 := Sample.at_time Sample.t17 Sample.campus in
  requireAuth P req = Next (set_user admin req)
  /\ find_meeting (db w0) "m1" = Some Sample.algebra
  /\ clock w0 < endTime Sample.algebra
  /\ exists w1 w2,
       join P req w0 = (Ret (mkResponse 400 (Failure "Join failed")), w1)
       /\ join P req (at_clock (Sample.t17 + 1000) w1)
          = (Ret (mkResponse 400 (Failure "Join failed")), w2)
       /\ filter (of_pair "m1" "admin") (attendees (db w2)) = [].
Proof.
  intros P req w0. split; [reflexivity|]. split; [reflexivity|].
  split; [reflexivity|].
  eexists. eexists. split; [reflexivity|]. split; reflexivity.
Qed.

End JoinFacts.

(** ** PATCH *)

Module PatchFacts.

Import StoreFacts AuthFacts AsyncFacts.

(** A best-effort step: whatever [m] does, the step ends normally. *)
Lemma best_effort (m : M unit) (line : string) (w : World) :
  keeps_store m ->
  exists w', try_catch m (fun _ => log line) w = (Ret tt, w')
             /\ db w' = db w /\ clock w' = clock w /\ inserted w' = inserted w.
Proof.
  intros H. unfold try_catch. specialize (H w).
  destruct (m w) as [[[]|e] w1]; cbn in *; eexists; (split; [reflexivity | exact H]).
Qed.

Lemma find_replaced (k : string) (m' : Meeting) (l : list Meeting) (m : Meeting) :
  find (is_id k) l = Some m ->
  is_id k m' = true ->
  find (is_id k) (map (fun x => if is_id k x then m' else x) l) = Some m'.
Proof.
  intros H Hk. induction l as [|x r IH]; cbn in *; [discriminate|].
  destruct (is_id k x) eqn:E.
  - now rewrite Hk.
  - rewrite E. auto.
Qed.

Lemma meeting_update_run (k : string) (u : MeetingUpdate) (w : World) (m : Meeting) :
  date_ok (u_startTime u) && date_ok (u_endTime u) = true ->
  find_meeting (db w) k = Some m ->
  meeting_update k u w
  = (Ret (apply_update (clock w) u m),
     set_db (replaced k (apply_update (clock w) u m) (db w)) w).
Proof.
  intros Hd Hm. unfold meeting_update. rewrite Hd.
  unfold bind, now, get_db, put_db, ret. rewrite Hm. reflexivity.
Qed.

Lemma meeting_update_invalid (k : string) (u : MeetingUpdate) (w : World) :
  date_ok (u_startTime u) && date_ok (u_endTime u) = false ->
  meeting_update k u w = (Throw invalid, w).
Proof. intros Hd. unfold meeting_update. now rewrite Hd. Qed.

Lemma find_after_replace (k : string) (u : MeetingUpdate) (t : Time) (d : DB)
    (m : Meeting) :
  find_meeting d k = Some m ->
  find_meeting (replaced k (apply_update t u m) d) k = Some (apply_update t u m).
Proof.
  intros Hm. unfold find_meeting, replaced. cbn [meetings].
  eapply find_replaced; [exact Hm|].
  apply find_meeting_id in Hm as [Hid _].
  unfold is_id. cbn. rewrite Hid. apply String.eqb_refl.
Qed.

Section Patch.
Variable P : Platform.

Lemma patch_handler_missing (req : Request) (b : PatchBody) (w : World) :
  find_meeting (db w) (param_id req) = None ->
  patch_handler P req b w = (Ret (mkResponse 404 (Failure "Not found")), w).
Proof.
  intros Hm.
  unfold patch_handler, bind, meeting_findUnique_full, bind, get_db, ret.
  rewrite Hm. reflexivity.
Qed.

Lemma patch_handler_forbidden (req : Request) (b : PatchBody) (w : World)
    (m : Meeting) :
  find_meeting (db w) (param_id req) = Some m ->
  is_owner m (user req) = false ->
  is_admin (user req) = false ->
  patch_handler P req b w = (Ret (mkResponse 403 (Failure "Forbidden")), w).
Proof.
  intros Hm Ho Ha.
  unfold patch_handler, bind, meeting_findUnique_full, bind, get_db, ret.
  rewrite Hm. cbn. rewrite Ho, Ha. reflexivity.
Qed.

Lemma patch_handler_allowed (req : Request) (b : PatchBody) (w : World)
    (m : Meeting) :
  find_meeting (db w) (param_id req) = Some m ->
  is_owner m (user req) || is_admin (user req) = true ->
  date_ok (u_startTime (patch_data P b)) && date_ok (u_endTime (patch_data P b))
  = true ->
  let m' := apply_update (clock w) (patch_data P b) m in
  exists w',
    patch_handler P req b w
    = (Ret (mkResponse 200 (OneMeeting (Some (with_relations (db w') m')))), w')
    /\ db w' = replaced (param_id req) m' (db w).
Proof.
  intros Hm Hok Hd m'. apply allowed_iff in Hok.
  unfold patch_handler, bind at 1, meeting_findUnique_full, bind at 1, get_db, ret at 1.
  rewrite Hm. cbn [option_map meeting with_relations]. rewrite Hok.
  unfold bind at 1. rewrite (meeting_update_run _ _ w m Hd Hm). fold m'.
  unfold bind at 1, get_db. cbn [db set_db].
  set (w1 := set_db (replaced (param_id req) m' (db w)) w).
  unfold bind.
  match goal with
  | |- context [match ?step w1 with _ => _ end] =>
      assert (exists w', step w1 = (Ret tt, w') /\ db w' = db w1) as (w' & -> & Hdb)
  end.
  { destruct (when_truthy (googleEventId m)) as [g|];
      [destruct (when_truthy _) as [token|]|].
    - destruct (best_effort
                  (updateGoogleEvent P token g (title m') (description m')
                     (location m') (startTime m') (endTime m'))
                  "[calendar] update failed:" w1
                  (keeps_update_event P _ _ _ _ _ _ _)) as (w' & H & Hdb & _).
      eauto.
    - eexists; split; reflexivity.
    - eexists; split; reflexivity. }
  exists w'. rewrite Hdb. split; reflexivity.
Qed.

Lemma patch_dates_ok (b : PatchBody) :
  (forall s, pb_startTime b = Some s \/ pb_endTime b = Some s ->
             s <> "" /\ Date_parse P s <> None) ->
  date_ok (u_startTime (patch_data P b)) && date_ok (u_endTime (patch_data P b))
  = true.
Proof.
  intros H. unfold patch_data. cbn [u_startTime u_endTime].
  apply andb_true_iff. split.
  - destruct (pb_startTime b) as [s|]; [|reflexivity].
    destruct (H s (or_introl eq_refl)) as [_ Hp].
    destruct (truthy_str s); [|reflexivity].
    destruct (Date_parse P s); [reflexivity | congruence].
  - destruct (pb_endTime b) as [s|]; [|reflexivity].
    destruct (H s (or_intror eq_refl)) as [_ Hp].
    destruct (truthy_str s); [|reflexivity].
    destruct (Date_parse P s); [reflexivity | congruence].
Qed.

Lemma patched_date (field : option string) (old : Time) :
  (forall s, field = Some s -> s <> "" /\ Date_parse P s <> None) ->
  overwritten_date P field old
    (set_date (match field with
               | Some s => if truthy_str s then Some (Date_parse P s) else None
               | None => None
               end) old).
Proof.
  intros H. destruct field as [s|]; cbn; [|reflexivity].
  destruct (H s eq_refl) as [Hne Hp].
  unfold truthy_str. apply String.eqb_neq in Hne. rewrite Hne. cbn.
  destruct (Date_parse P s); [reflexivity | congruence].
Qed.

Lemma patched_field {A} (field : option A) (old : A) :
  overwritten field old (set_if field old).
Proof. now destruct field. Qed.

(** C7. For a stored meeting, an owner or administrator and a payload that
    passed [PatchMeetingSchema] (each date in it a non-empty string denoting
    an instant), PATCH answers 200 with the updated meeting, and in the
    stored row every field whose key is in the payload has the payload's
    value (also when that value is [null] or the empty string) while every
    field whose key is missing has its former value; id, creator, calendar
    event id and creation time stay, and so do all other rows.  The
    bookkeeping column "updatedAt" is set to the time of the request when
    the payload writes a column, and stays when the payload is empty. *)
Theorem patch_overwrites_present_fields
    (req req' : Request) (b : PatchBody) (w : World) (m : Meeting) :
  requireAuth P req = Next req' ->
  PatchMeetingSchema P (body req) = Some b ->
  (forall s, pb_startTime b = Some s \/ pb_endTime b = Some s ->
             s <> "" /\ Date_parse P s <> None) ->
  find_meeting (db w) (param_id req) = Some m ->
  is_owner m (user req') || is_admin (user req') = true ->
  exists m' w',
    patch P req w
    = (Ret (mkResponse 200 (OneMeeting (Some (with_relations (db w') m')))), w')
    /\ find_meeting (db w') (param_id req) = Some m'
    /\ overwritten (pb_title b) (title m) (title m')
    /\ overwritten (pb_description b) (description m) (description m')
    /\ overwritten (pb_subject b) (subject m) (subject m')
    /\ overwritten (pb_level b) (level m) (level m')
    /\ overwritten (pb_specialization b) (specialization m) (specialization m')
    /\ overwritten_date P (pb_startTime b) (startTime m) (startTime m')
    /\ overwritten_date P (pb_endTime b) (endTime m) (endTime m')
    /\ overwritten (pb_location b) (location m) (location m')
    /\ overwritten (pb_onlineUrl b) (onlineUrl m) (onlineUrl m')
    /\ (id m' = id m /\ createdById m' = createdById m
        /\ googleEventId m' = googleEventId m /\ createdAt m' = createdAt m
        /\ updatedAt m'
           = if writes (patch_data P b) then clock w else updatedAt m)
    /\ db w' = replaced (param_id req) m' (db w).
Proof.
  intros Hauth Hb Hdates Hm Hok.
  destruct (requireAuth_next P req req' Hauth) as (_ & Hid & Hbody & _).
  rewrite <- Hid in *.
  destruct (patch_handler_allowed req' b w m Hm Hok (patch_dates_ok b Hdates))
    as (w' & Hrun & Hdb).
  exists (apply_update (clock w) (patch_data P b) m), w'.
  split.
  { unfold patch, validate. rewrite Hauth, Hbody, Hb. exact Hrun. }
  split.
  { rewrite Hdb. now apply find_after_replace. }
  cbn [apply_update patch_data title description subject level specialization
       startTime endTime location onlineUrl id createdById googleEventId
       createdAt updatedAt u_title u_description u_subject u_level
       u_specialization u_startTime u_endTime u_location u_onlineUrl
       u_googleEventId set_if].
  repeat split; try apply patched_field; try exact Hdb.
  - apply patched_date. intros s Hs. apply Hdates. now left.
  - apply patched_date. intros s Hs. apply Hdates. now right.
Qed.

(** C9. For a stored meeting and an authenticated caller who is neither its
    creator nor an administrator, the PATCH handler answers 403 "Forbidden"
    whatever the payload, and so does the route for every payload that
    passes validation; after the request the world is the world before it,
    also when validation answered first. *)
Theorem patch_forbidden_changes_nothing
    (req req' : Request) (w : World) (m : Meeting) :
  requireAuth P req = Next req' ->
  find_meeting (db w) (param_id req) = Some m ->
  is_owner m (user req') = false ->
  is_admin (user req') = false ->
  (forall b, patch_handler P req' b w
             = (Ret (mkResponse 403 (Failure "Forbidden")), w))
  /\ (forall b, PatchMeetingSchema P (body req) = Some b ->
                patch P req w = (Ret (mkResponse 403 (Failure "Forbidden")), w))
  /\ snd (patch P req w) = w.
Proof.
  intros Hauth Hm Ho Ha.
  destruct (requireAuth_next P req req' Hauth) as (_ & Hid & Hbody & _).
  rewrite <- Hid in Hm.
  assert (forall b, patch_handler P req' b w
                    = (Ret (mkResponse 403 (Failure "Forbidden")), w)) as H
      by (intros b; now apply (patch_handler_forbidden req' b w m)).
  split; [exact H|]. unfold patch, validate. rewrite Hauth, Hbody. split.
  - intros b ->. apply H.
  - destruct (PatchMeetingSchema P (body req)) as [b|]; [now rewrite H | reflexivity].
Qed.

End Patch.

(** Alice clears the description, blanks the location, renames the subject
    and extends her algebra session to 19:00. *)
Lemma patch_overwrites_present_fields_witness :
  let P := Sample.offline None None in
  let req := Sample.request (Some (Sample.as_user Sample.alice)) "m1"
               Sample.retitle in
  let w := Sample.at_time Sample.t17 Sample.campus in
  exists m' w',
    patch P req w
    = (Ret (mkResponse 200 (OneMeeting (Some (with_relations (db w') m')))), w')
    /\ find_meeting (db w') "m1" = Some m'
    /\ title m' = "Algebra"
    /\ description m' = None
    /\ subject m' = Some "Maths"
    /\ location m' = Some ""
    /\ startTime m' = Sample.t17
    /\ endTime m' = Sample.t19.
Proof.
  intros P req w.
  destruct (patch_overwrites_present_fields P req req
              (mkPatchBody None (Some None) (Some (Some "Maths")) None None None
                 (Some "2025-09-24T19:00:00.000Z") (Some (Some "")) None)
              w Sample.algebra eq_refl eq_refl) as (m' & w' & H);
    [ intros s [H|H]; [discriminate H|];
      injection H as <-; split; discriminate
    | reflexivity | reflexivity | ].
  exists m', w'. cbn in H.
  destruct H as (H0 & H1 & H2 & H3 & H4 & _ & _ & H7 & H8 & H9 & _).
  injection H8 as H8.
  repeat split; auto.
Defined.

(** Bob tries to rename Alice's algebra session. *)
Lemma patch_forbidden_changes_nothing_witness :
  let P := Sample.offline None None in
  let req := Sample.request (Some (Sample.as_user Sample.bob)) "m1"
               (JObj [("title", JStr "Mine now")]) in
  let w := Sample.at_time Sample.t17 Sample.campus in
  patch P req w = (Ret (mkResponse 403 (Failure "Forbidden")), w).
Proof.
  intros P req w.
  apply (proj1 (proj2 (patch_forbidden_changes_nothing P req req w Sample.algebra
                         eq_refl eq_refl eq_refl eq_refl))
           (mkPatchBody (Some "Mine now") None None None None None None None None)).
  reflexivity.
Defined.

End PatchFacts.

(** ** The bearer administrator *)

Module AdminFacts.

Import StoreFacts AuthFacts DeleteFacts PatchFacts.

Lemma substring_all (s : string) : String.substring 0 (String.length s) s = s.
Proof. induction s as [|c r IH]; cbn; [reflexivity | now rewrite IH]. Qed.

Lemma bearer_prefix (tok : string) : startsWith "Bearer " ("Bearer " ++ tok) = true.
Proof.
  unfold startsWith. apply String.prefix_correct. cbn. now destruct tok.
Qed.

Lemma bearer_token (tok : string) : slice 7 ("Bearer " ++ tok) = tok.
Proof. unfold slice. cbn. rewrite Nat.sub_0_r. apply substring_all. Qed.

Section Admin.
Variable P : Platform.

(** C10. When ADMIN_TOKEN is set (to a non-empty value, which is what the
    guard [process.env.ADMIN_TOKEN && ...] tests), a request whose header is
    [Authorization: Bearer <ADMIN_TOKEN>] passes [requireAuth] with
    [req.user] replaced by the synthetic user of id "admin" and role
    "admin", whether or not a session user was there.  That user passes the
    owner-or-admin test of every meeting: DELETE removes any stored meeting
    and PATCH updates any stored meeting with any valid payload. *)
Theorem bearer_admin_may_patch_and_delete (req : Request) (tok : string) :
  env P "ADMIN_TOKEN" = Some tok ->
  tok <> "" ->
  authorization req = Some ("Bearer " ++ tok) ->
  requireAuth P req = Next (set_user admin req)
  /\ (forall m, is_owner m (Some admin) || is_admin (Some admin) = true)
  /\ (forall w m,
        find_meeting (db w) (param_id req) = Some m ->
        exists w',
          delete P req w = (Ret (mkResponse 200 Success), w')
          /\ db w' = without (param_id req) (db w))
  /\ (forall w m b,
        find_meeting (db w) (param_id req) = Some m ->
        PatchMeetingSchema P (body req) = Some b ->
        (forall s, pb_startTime b = Some s \/ pb_endTime b = Some s ->
                   s <> "" /\ Date_parse P s <> None) ->
        let m' := apply_update (clock w) (patch_data P b) m in
        exists w',
          patch P req w
          = (Ret (mkResponse 200 (OneMeeting (Some (with_relations (db w') m')))),
             w')
          /\ find_meeting (db w') (param_id req) = Some m').
Proof.
  intros Henv Htok Hauth.
  assert (requireAuth P req = Next (set_user admin req)) as Hpass.
  { unfold requireAuth. rewrite Henv, Hauth, bearer_prefix, bearer_token.
    unfold truthy_str. apply String.eqb_neq in Htok. rewrite Htok.
    cbn. now rewrite String.eqb_refl. }
  split; [exact Hpass|]. split; [intros m; apply orb_true_r|]. split.
  - intros w m Hm.
    destruct (delete_handler_allowed P (set_user admin req) w m Hm
                (orb_true_r _)) as (w1 & _ & Hdb & Hrun).
    eexists. unfold delete. rewrite Hpass. split; [exact Hrun|]. reflexivity.
  - intros w m b Hm Hb Hdates m'.
    destruct (patch_handler_allowed P (set_user admin req) b w m Hm
                (orb_true_r _) (patch_dates_ok P b Hdates)) as (w' & Hrun & Hdb).
    exists w'. unfold patch, validate. rewrite Hpass. cbn [body set_user].
    rewrite Hb. split; [exact Hrun|].
    rewrite Hdb. now apply find_after_replace.
Qed.

End Admin.

(** With ADMIN_TOKEN=s3cret and no session at all, the bearer of the token
    is the administrator, and deletes Bob's physics session. *)
Lemma bearer_admin_may_patch_and_delete_witness :
  let P := Sample.offline (Some "s3cret") None in
  let req := mkRequest (Some "Bearer s3cret") None "m2" Sample.no_query JNull in
  let w := Sample.at_time Sample.t17 Sample.campus in
  requireAuth P req = Next (set_user admin req)
  /\ exists w', delete P req w = (Ret (mkResponse 200 Success), w')
                /\ db w' = without "m2" Sample.campus.
Proof.
  intros P req w.
  destruct (bearer_admin_may_patch_and_delete P req "s3cret" eq_refl)
    as (Hpass & _ & Hdel & _); [discriminate | reflexivity |].
  split; [exact Hpass|].
  apply (Hdel w Sample.physics). reflexivity.
Defined.

(** The guard is a truthiness test: an ADMIN_TOKEN that is set to the empty
    string switches the bearer path off. *)
Example empty_admin_token_is_off :
  requireAuth (Sample.offline (Some "") None)
    (mkRequest (Some "Bearer ") None "m2" Sample.no_query JNull)
  = Respond (mkResponse 401 (Failure "Not authenticated")).
Proof. reflexivity. Qed.

End AdminFacts.

(** ** CREATE *)

Module CreateFacts.

Import StoreFacts AuthFacts AsyncFacts PatchFacts JoinFacts.

Section Create.
Variable P : Platform.

Lemma create_schema_refine (body : json) (b : CreateBody) :
  CreateMeetingSchema P body = Some b -> create_refine P b = true.
Proof.
  unfold CreateMeetingSchema. destruct body; try discriminate.
  unfold and_then.
  repeat match goal with
         | |- context [match ?x with Some _ => _ | None => None end] =>
             destruct x; try discriminate
         end.
  cbv zeta.
  match goal with |- context [if ?c then _ else _] => destruct c eqn:E end;
    [intros [= <-]; exact E | discriminate].
Qed.

Lemma create_refine_dates (b : CreateBody) :
  create_refine P b = true ->
  exists ts te, Date_parse P (cb_startTime b) = Some ts
                /\ Date_parse P (cb_endTime b) = Some te /\ ts < te.
Proof.
  unfold create_refine, ends_after.
  destruct (Date_parse P (cb_endTime b)) as [te|]; [|discriminate].
  destruct (Date_parse P (cb_startTime b)) as [ts|]; [|discriminate].
  intros H. apply Z.ltb_lt in H. eauto.
Qed.

Lemma meeting_create_run (c : MeetingCreate) (ts te : Time) (w : World) :
  c_startTime c = Some ts ->
  c_endTime c = Some te ->
  has_meeting (db w) (gen_id P (inserted w)) = false ->
  has_user (db w) (c_createdById c) = true ->
  let m := mkMeeting (gen_id P (inserted w)) (c_title c) (c_description c)
             (c_subject c) (c_level c) (c_specialization c) ts te
             (c_location c) (c_onlineUrl c) (c_createdById c) None
             (clock w) (clock w) in
  meeting_create P c w
  = (Ret m,
     mkWorld (mkDB (users (db w)) (meetings (db w) ++ [m]) (attendees (db w)))
       (clock w) (S (inserted w)) (gcalls w) (console w)).
Proof.
  intros Hs He Hk Hu m. unfold meeting_create. rewrite Hs, He.
  unfold bind, fresh_id, now, get_db, put_db, ret. cbn.
  rewrite Hk, Hu. reflexivity.
Qed.

Lemma find_appended (k : string) (l : list Meeting) (m : Meeting) :
  existsb (is_id k) l = false -> is_id k m = true ->
  find (is_id k) (l ++ [m]) = Some m.
Proof.
  intros Hl Hm. induction l as [|x r IH]; cbn in *.
  - now rewrite Hm.
  - apply orb_false_iff in Hl as [Hx Hr]. rewrite Hx. auto.
Qed.

Lemma replace_appended (k : string) (l : list Meeting) (m m' : Meeting) :
  existsb (is_id k) l = false -> is_id k m = true ->
  map (fun x => if is_id k x then m' else x) (l ++ [m]) = (l ++ [m'])%list.
Proof.
  intros Hl Hm. induction l as [|x r IH]; cbn in *.
  - now rewrite Hm.
  - apply orb_false_iff in Hl as [Hx Hr]. rewrite Hx. now rewrite IH.
Qed.

Lemma no_row_no_pair (k uid : string) (l : list Attendee) :
  existsb (of_meeting k) l = false -> existsb (of_pair k uid) l = false.
Proof.
  induction l as [|x r IH]; cbn; [reflexivity|].
  intros H. apply orb_false_iff in H as [Hx Hr].
  unfold of_pair at 1. rewrite Hx. cbn. auto.
Qed.

Lemma filter_none {A} (f : A -> bool) (l : list A) :
  existsb f l = false -> filter f l = [].
Proof.
  induction l as [|x r IH]; cbn; [reflexivity|].
  intros H. apply orb_false_iff in H as [Hx Hr]. rewrite Hx. auto.
Qed.

Lemma create_handler_run (req : Request) (u : ReqUser) (b : CreateBody)
    (ts te : Time) (w : World) :
  user req = Some u ->
  Date_parse P (cb_startTime b) = Some ts ->
  Date_parse P (cb_endTime b) = Some te ->
  has_user (db w) (ru_id u) = true ->
  has_meeting (db w) (gen_id P (inserted w)) = false ->
  existsb (of_meeting (gen_id P (inserted w))) (attendees (db w)) = false ->
  existsb (fun a => String.eqb (att_id a) (gen_id P (S (inserted w))))
    (attendees (db w)) = false ->
  exists g w',
    create_handler P req b w
    = (Ret (mkResponse 201
              (OneMeeting (Some (with_relations (db w') (created P b u ts te g w))))),
       w')
    /\ db w' = mkDB (users (db w)) (meetings (db w) ++ [created P b u ts te g w])
                 (attendees (db w) ++ [enrolled P u w]).
Proof.
  intros Hu Hs He Huser Hk Hrows Hka.
  pose (m0 := created P b u ts te None w).
  assert (is_id (gen_id P (inserted w)) m0 = true) as Hm0
      by (unfold is_id; cbn; apply String.eqb_refl).
  unfold create_handler, bind at 1, the_user. rewrite Hu. unfold ret at 1.
  (* the meeting row *)
  unfold bind at 1.
  match goal with
  | |- context [meeting_create P ?c] =>
      rewrite (meeting_create_run c ts te w Hs He Hk Huser)
  end.
  cbn zeta.
  cbn [c_title c_description c_subject c_level c_specialization c_location
       c_onlineUrl c_createdById].
  change (mkMeeting (gen_id P (inserted w)) (cb_title b)
            (collapse (cb_description b)) (collapse (cb_subject b))
            (collapse (cb_level b)) (collapse (cb_specialization b)) ts te
            (collapse (cb_location b)) (collapse (cb_onlineUrl b)) (ru_id u)
            None (clock w) (clock w)) with m0.
  set (w1 := mkWorld _ _ _ _ _).
  (* the attendee row of the creator *)
  unfold bind at 1.
  change (id m0) with (gen_id P (inserted w)).
  rewrite (attendee_create_new P (gen_id P (inserted w)) (ru_id u) "going" w1).
  2: exact Hka.
  2: { apply no_row_no_pair. exact Hrows. }
  2: { unfold has_meeting, w1. cbn [db meetings]. rewrite existsb_app.
       cbn [existsb]. rewrite Hm0. now rewrite orb_true_r. }
  2: exact Huser.
  cbn zeta. subst w1.
  cbn [db users meetings attendees clock inserted gcalls console].
  change (mkAttendee (gen_id P (S (inserted w))) (gen_id P (inserted w))
            (ru_id u) "going" (clock w)) with (enrolled P u w).
  set (w2 := mkWorld _ _ _ _ _).
  (* the calendar, best effort *)
  assert (forall w3, db w3 = db w2 ->
            find_meeting (db w3) (gen_id P (inserted w)) = Some m0) as Hfind.
  { intros w3 ->. apply find_appended; assumption. }
  unfold bind at 1, try_catch, bind at 1.
  pose proof (keeps_create_event P (ru_refreshToken u) (cb_title b)
                (collapse (cb_description b)) (startTime m0) (endTime m0)
                (collapse (cb_location b)) (collapse (cb_onlineUrl b)) w2)
    as (Hdb & Hclock & _).
  destruct (createCalendarEventForMeeting P _ _ _ _ _ _ _ w2)
    as [[[g0|]|e] w3]; cbn [fst snd] in Hdb, Hclock.
  - (* an event id came back: it is stored on the meeting *)
    unfold bind at 1.
    match goal with
    | |- context [meeting_update ?k ?upd w3] =>
        rewrite (meeting_update_run k upd w3 m0 eq_refl (Hfind w3 Hdb))
    end.
    unfold ret at 1. unfold bind at 1, meeting_findUnique_full, bind at 1, get_db, ret.
    cbn [db set_db].
    rewrite find_after_replace by (apply Hfind; exact Hdb).
    rewrite Hclock. unfold w2 at 1 2 3. cbn [clock].
    match goal with
    | |- exists g w', (_, ?final) = _ /\ _ => exists (Some g0), final
    end.
    split; [reflexivity|].
    cbn [db set_db]. rewrite Hdb. unfold replaced, w2.
    cbn [db users meetings attendees].
    rewrite replace_appended by assumption.
    reflexivity.
  - (* no event id *)
    unfold ret at 1. unfold bind at 1, meeting_findUnique_full, bind at 1, get_db, ret.
    rewrite (Hfind w3 Hdb).
    exists None, w3. split; [reflexivity | exact Hdb].
  - (* the adapter threw: one warning, nothing else *)
    unfold log. unfold bind at 1, meeting_findUnique_full, bind at 1, get_db, ret.
    cbn [db]. rewrite (Hfind w3 Hdb).
    match goal with
    | |- exists g w', (_, ?final) = _ /\ _ => exists None, final
    end.
    split; [reflexivity | exact Hdb].
Qed.

(** C2, amended.  For an authenticated creator with a "User" row and a
    payload that passes [CreateMeetingSchema], CREATE answers 201 with the
    full created
    meeting, whatever the calendar provider does (every [gapi] of [P]: it
    may throw, return no id, or return an id [g]).  The meeting is stored
    with the creator as [createdById], and its attendee rows are exactly one
    row for the creator with status "going".  The calendar decides nothing
    but the stored event id.  The id generator is assumed to give ids that
    no stored row bears or refers to. *)
Theorem create_enrolls_creator_despite_calendar
    (req req' : Request) (u : ReqUser) (b : CreateBody) (w : World) :
  requireAuth P req = Next req' ->
  user req' = Some u ->
  CreateMeetingSchema P (body req) = Some b ->
  has_user (db w) (ru_id u) = true ->
  has_meeting (db w) (gen_id P (inserted w)) = false ->
  existsb (of_meeting (gen_id P (inserted w))) (attendees (db w)) = false ->
  existsb (fun a => String.eqb (att_id a) (gen_id P (S (inserted w))))
    (attendees (db w)) = false ->
  exists ts te g w',
    let m := created P b u ts te g w in
    Date_parse P (cb_startTime b) = Some ts
    /\ Date_parse P (cb_endTime b) = Some te
    /\ create P req w
       = (Ret (mkResponse 201 (OneMeeting (Some (with_relations (db w') m)))), w')
    /\ find_meeting (db w') (id m) = Some m
    /\ createdById m = ru_id u
    /\ attendees_of (db w') (id m) = [enrolled P u w]
    /\ att_userId (enrolled P u w) = ru_id u
    /\ att_status (enrolled P u w) = "going".
Proof.
  intros Hauth Hu Hb Huser Hk Hrows Hka.
  destruct (requireAuth_next P req req' Hauth) as (_ & _ & Hbody & _).
  destruct (create_refine_dates b (create_schema_refine _ _ Hb))
    as (ts & te & Hs & He & _).
  destruct (create_handler_run req' u b ts te w Hu Hs He Huser Hk Hrows Hka)
    as (g & w' & Hrun & Hdb).
  exists ts, te, g, w'. cbn zeta.
  split; [exact Hs|]. split; [exact He|]. split.
  { unfold create, validate. rewrite Hauth, Hbody, Hb. exact Hrun. }
  rewrite Hdb. repeat split.
  - unfold find_meeting. cbn [meetings]. apply find_appended; [exact Hk|].
    unfold is_id. cbn. apply String.eqb_refl.
  - unfold attendees_of. cbn [attendees created id]. rewrite filter_app.
    rewrite (filter_none _ _ Hrows). cbn [filter app].
    unfold of_meeting. cbn. now rewrite String.eqb_refl.
Qed.

End Create.

(** Alice creates a revision session while the calendar provider answers
    every call with a 500. *)
Lemma create_enrolls_creator_despite_calendar_witness :
  let P := Sample.offline None None in
  let u := Sample.as_user Sample.alice in
  let req := Sample.request (Some u) "" Sample.revision in
  let w := Sample.at_time Sample.t17 Sample.campus in
  exists b g w',
    let m := created P b u Sample.t18 Sample.t19 g w in
    create P req w
    = (Ret (mkResponse 201 (OneMeeting (Some (with_relations (db w') m)))), w')
    /\ find_meeting (db w') (id m) = Some m
    /\ attendees_of (db w') (id m) = [enrolled P u w].
Proof.
  intros P u req w.
  destruct (create_enrolls_creator_despite_calendar P req req u
              (mkCreateBody "Revision" None (Some (Some "Math")) None None
                 "2025-09-24T18:00:00.000Z" "2025-09-24T19:00:00.000Z" None None)
              w eq_refl eq_refl eq_refl eq_refl eq_refl eq_refl eq_refl)
    as (ts & te & g & w' & Hs & He & Hrun & Hm & _ & Hatt & _).
  injection Hs as <-. injection He as <-.
  eexists. exists g, w'. cbn zeta. repeat split; eassumption.
Defined.

(** In that run the failure is logged, the meeting has no calendar event
    id, and the answer is the 201 all the same. *)
Example create_when_calendar_is_down :
  let P := Sample.offline None None in
  let u := Sample.as_user Sample.alice in
  let r := create P (Sample.request (Some u) "" Sample.revision)
             (Sample.at_time Sample.t17 Sample.campus) in
  console (snd r) = ["[calendar] insert failed:"]
  /\ map id (meetings (db (snd r))) = ["m1"; "m2"; "row00"]
  /\ map googleEventId (meetings (db (snd r))) = [Some "ev1"; None; None]
  /\ exists f, fst r = Ret (mkResponse 201 (OneMeeting (Some f)))
               /\ map att_userId (full_attendees f) = ["alice"]
               /\ map att_status (full_attendees f) = ["going"].
Proof. repeat split. eexists. repeat split. Qed.

(** C2 as stated fails.  The bearer of ADMIN_TOKEN is authenticated as the
    user "admin", and no "User" row has that id on the sample campus.  This
    caller sends the valid sample payload: the insert of the meeting violates
    the foreign key of "createdById", CREATE throws instead of answering 201,
    and neither a meeting nor an attendee row is stored. *)
Lemma bearer_admin_create_enrolls_nobody :
  let P := Sample.offline (Some "s3cret") None in
  let req := mkRequest (Some "Bearer s3cret") None "" Sample.no_query
               Sample.revision in
  let w := Sample.at_time Sample.t17 Sample.campus in
  requireAuth P req = Next (set_user admin req)
  /\ (exists b, CreateMeetingSchema P (body req) = Some b)
  /\ exists w',
       create P req w = (Throw (known "P2003"), w')
       /\ meetings (db w') = meetings (db w)
       /\ attendees (db w') = attendees (db w)
       /\ filter (of_user "admin") (attendees (db w')) = [].
Proof.
  intros P req w. split; [reflexivity|]. split; [eexists; reflexivity|].
  eexists. split; [reflexivity|]. repeat split.
Qed.

End CreateFacts.

(** ** The order of start and end *)

Module TimeOrderFacts.

Import StoreFacts AuthFacts PatchFacts CreateFacts.

Lemma patch_schema_refine (P : Platform) (body : json) (b : PatchBody) :
  PatchMeetingSchema P body = Some b -> patch_refine P b = true.
Proof.
  unfold PatchMeetingSchema. destruct body; try discriminate.
  unfold and_then.
  repeat match goal with
         | |- context [match ?x with Some _ => _ | None => None end] =>
             destruct x; try discriminate
         end.
  cbv zeta.
  match goal with |- context [if ?c then _ else _] => destruct c eqn:E end;
    [intros [= <-]; exact E | discriminate].
Qed.

(** The rows of the table keep [startTime < endTime] through CREATE: the
    schema's refinement compares the two dates of the payload. *)
Lemma create_keeps_time_order
    (P : Platform) (req req' : Request) (u : ReqUser) (b : CreateBody) (w : World) :
  requireAuth P req = Next req' ->
  user req' = Some u ->
  CreateMeetingSchema P (body req) = Some b ->
  has_user (db w) (ru_id u) = true ->
  has_meeting (db w) (gen_id P (inserted w)) = false ->
  existsb (of_meeting (gen_id P (inserted w))) (attendees (db w)) = false ->
  existsb (fun a => String.eqb (att_id a) (gen_id P (S (inserted w))))
    (attendees (db w)) = false ->
  (forall m, In m (meetings (db w)) -> startTime m < endTime m) ->
  forall m, In m (meetings (db (snd (create P req w)))) -> startTime m < endTime m.
Proof.
  intros Hauth Hu Hb Huser Hk Hrows Hka Hinv.
  destruct (requireAuth_next P req req' Hauth) as (_ & _ & Hbody & _).
  destruct (create_refine_dates P b (create_schema_refine P _ _ Hb))
    as (ts & te & Hs & He & Hlt).
  destruct (create_handler_run P req' u b ts te w Hu Hs He Huser Hk Hrows Hka)
    as (g & w' & Hrun & Hdb).
  unfold create, validate. rewrite Hauth, Hbody, Hb, Hrun. cbn [snd].
  rewrite Hdb. cbn [meetings]. intros m Hin.
  apply in_app_or in Hin as [Hin|[<-|[]]]; [auto | exact Hlt].
Qed.

(** PATCH keeps it too when the payload carries both dates. *)
Lemma patch_keeps_time_order_with_both_dates
    (P : Platform) (req req' : Request) (b : PatchBody) (w : World) (m : Meeting)
    (s e : string) :
  requireAuth P req = Next req' ->
  PatchMeetingSchema P (body req) = Some b ->
  pb_startTime b = Some s -> pb_endTime b = Some e ->
  s <> "" -> e <> "" ->
  find_meeting (db w) (param_id req) = Some m ->
  (forall x, In x (meetings (db w)) -> startTime x < endTime x) ->
  forall x, In x (meetings (db (snd (patch P req w)))) -> startTime x < endTime x.
Proof.
  intros Hauth Hb Hs He Hsne Hene Hm Hinv.
  destruct (requireAuth_next P req req' Hauth) as (_ & Hid & Hbody & _).
  pose proof (patch_schema_refine P _ _ Hb) as Href.
  unfold patch_refine in Href. rewrite Hs, He in Href.
  unfold truthy_str in Href.
  apply String.eqb_neq in Hsne, Hene. rewrite Hsne, Hene in Href. cbn in Href.
  unfold ends_after in Href.
  destruct (Date_parse P e) as [te|] eqn:Ee; [|discriminate].
  destruct (Date_parse P s) as [ts|] eqn:Es; [|discriminate].
  apply Z.ltb_lt in Href.
  unfold patch, validate. rewrite Hauth, Hbody, Hb. rewrite <- Hid in Hm.
  destruct (is_owner m (user req') || is_admin (user req')) eqn:Hok.
  - assert (date_ok (u_startTime (patch_data P b))
            && date_ok (u_endTime (patch_data P b)) = true) as Hd.
    { unfold patch_data. cbn [u_startTime u_endTime].
      rewrite Hs, He. unfold truthy_str. rewrite Hsne, Hene, Es, Ee.
      reflexivity. }
    destruct (patch_handler_allowed P req' b w m Hm Hok Hd) as (w' & -> & Hdb).
    cbn [snd]. rewrite Hdb. unfold replaced. cbn [meetings].
    intros x Hx. apply in_map_iff in Hx as (y & Hy & Hin).
    destruct (is_id (param_id req') y); [|subst; auto].
    subst x. unfold patch_data. cbn. rewrite Hs, He.
    unfold truthy_str. rewrite Hsne, Hene, Es, Ee. cbn. exact Href.
  - apply orb_false_iff in Hok as [Ho Ha].
    rewrite (patch_handler_forbidden P req' b w m Hm Ho Ha). exact Hinv.
Qed.

(** C6, where it fails.  Alice's algebra session runs from 17:00 to 18:00.
    She sends PATCH with only [startTime] = 19:00.  The payload passes
    [PatchMeetingSchema], whose refinement compares the dates only when both
    are there, and the stored meeting then starts an hour after it ends. *)
Theorem patch_can_put_start_after_end :
  let P := Sample.offline None None in
  let req := Sample.request (Some (Sample.as_user Sample.alice)) "m1"
               Sample.postpone in
  let w := Sample.at_time Sample.t17 Sample.campus in
  (forall m, In m (meetings (db w)) -> startTime m < endTime m)
  /\ PatchMeetingSchema P (body req)
     = Some (mkPatchBody None None None None None
               (Some "2025-09-24T19:00:00.000Z") None None None)
  /\ exists m' w',
       patch P req w
       = (Ret (mkResponse 200 (OneMeeting (Some (with_relations (db w') m')))), w')
       /\ find_meeting (db w') "m1" = Some m'
       /\ startTime m' = Sample.t19
       /\ endTime m' = Sample.t18
       /\ endTime m' < startTime m'.
Proof.
  intros P req w. split; [|split].
  - intros m [<-|[<-|[]]]; cbn; unfold Sample.t17, Sample.t18, Sample.t19; lia.
  - reflexivity.
  - exists (apply_update Sample.t17
              (patch_data P (mkPatchBody None None None None None
                               (Some "2025-09-24T19:00:00.000Z") None None None))
              Sample.algebra), (snd (patch P req w)).
    split; [vm_compute; reflexivity|]. repeat split.
Qed.

End TimeOrderFacts.

(** ** Recommendations *)

Module RecommendFacts.

Import StoreFacts.

Lemma more_popular_total (a b : Candidate) :
  more_popular a b = false -> more_popular b a = true.
Proof.
  unfold more_popular. intros H. apply Nat.leb_gt in H. apply Nat.leb_le. lia.
Qed.

Lemma more_popular_trans (a b c : Candidate) :
  more_popular a b = true -> more_popular b c = true -> more_popular a c = true.
Proof. unfold more_popular. rewrite !Nat.leb_le. lia. Qed.

Lemma by_popularity_sorted (l : list Candidate) :
  StronglySorted (fun a b => (attendeesCount b <= attendeesCount a)%nat)
    (sort more_popular l).
Proof.
  eapply SortFacts.sorted_impl.
  2: { apply SortFacts.sort_sorted;
         [exact more_popular_total | exact more_popular_trans]. }
  intros a b H. now apply Nat.leb_le.
Qed.

(** What both popularity branches return is the popularity ranking. *)
Lemma popular_is_the_popularity_ranking (why : string) (available : list Candidate) :
  popularity_ranking 5 50 why available (popular why available).
Proof.
  unfold popularity_ranking, popular. cbn zeta.
  rewrite map_map. cbn [rec_meeting]. rewrite map_id.
  pose proof (SortFacts.sort_perm more_popular available) as Hperm.
  pose proof (by_popularity_sorted available) as Hsorted.
  repeat split.
  - rewrite length_firstn. now rewrite <- (Permutation_length Hperm).
  - now apply SortFacts.sorted_firstn.
  - exists (skipn 5 (sort more_popular available)). split.
    + now rewrite firstn_skipn.
    + intros a b Ha Hb.
      apply (SortFacts.sorted_split _ 5 _ Hsorted a b Ha Hb).
  - apply Forall_forall. intros r Hr.
    apply in_map_iff in Hr as (c & <- & _). cbn. auto.
Qed.


Lemma getAvailableMeetings_run (userId : string) (w : World) :
  exists available, getAvailableMeetings userId w = (Ret available, w).
Proof.
  unfold getAvailableMeetings, bind, now, meetingAttendee_findMany, bind,
    get_db, ret, meeting_findMany. cbn. eexists. reflexivity.
Qed.

Section Service.
Variable P : Platform.

(** The service up to the call of the ranking model, for a user with a
    history and candidates, when the API key is configured. *)
Lemma getRecommendations_ranked
    (userId : string) (w : World) (profile : UserProfile)
    (available : list Candidate) :
  truthy (env P "GEMINI_API_KEY") = true ->
  getUserProfile userId w = (Ret (Some profile), w) ->
  totalMeetingsJoined profile <> 0%nat ->
  getAvailableMeetings userId w = (Ret available, w) ->
  available <> [] ->
  getRecommendations P userId w
  = try_catch
      (bind (generateContent P profile available) (fun response =>
         match match_array response with
         | None =>
             bind (log "[recommendations] Failed to parse AI response:")
               (fun _ => ret [])
         | Some jsonMatch =>
             bind (parse P jsonMatch) (fun rankings => rank available rankings)
         end))
      (fun error =>
         bind (log "[recommendations] Gemini API error:")
           (fun _ => ret (popular "Popular session" available))) w.
Proof.
  intros Hkey Hprofile Hhist Havail Hne.
  unfold getRecommendations. rewrite Hkey. cbn [negb].
  unfold bind at 1. rewrite Hprofile. unfold bind at 1. rewrite Havail.
  destruct available as [|c r]; [congruence|]. cbn [List.length Nat.eqb].
  apply Nat.eqb_neq in Hhist. rewrite Hhist. reflexivity.
Qed.

(** C8, amended.  For a user with a history and a non-empty candidate
    set: when GEMINI_API_KEY is configured and the ranking call throws, or
    the bracketed part of its answer is not valid JSON, or that JSON holds a
    [null] entry, the service logs the error and returns the popularity
    ranking: the five most attended candidates in descending order of
    attendee count, each with score 50 and reason "Popular session".  When
    the answer holds no bracketed part at all, or GEMINI_API_KEY is not
    configured, it logs that and returns the empty list.  The store is not
    touched in any case. *)
Theorem recommend_falls_back_when_ranking_throws
    (userId : string) (w : World) (profile : UserProfile)
    (available : list Candidate) :
  getUserProfile userId w = (Ret (Some profile), w) ->
  totalMeetingsJoined profile <> 0%nat ->
  getAvailableMeetings userId w = (Ret available, w) ->
  available <> [] ->
  let fallback := popular "Popular session" available in
  let logged line :=
    mkWorld (db w) (clock w) (inserted w) (gcalls w) (console w ++ [line]) in
  popularity_ranking 5 50 "Popular session" available fallback
  /\ (truthy (env P "GEMINI_API_KEY") = true ->
      (forall e, gemini P profile available = inl e ->
         getRecommendations P userId w
         = (Ret fallback, logged "[recommendations] Gemini API error:"))
      /\ (forall text j,
            gemini P profile available = inr text ->
            match_array text = Some j ->
            JSON_parse P j = None ->
            getRecommendations P userId w
            = (Ret fallback, logged "[recommendations] Gemini API error:"))
      /\ (forall text j rs,
            gemini P profile available = inr text ->
            match_array text = Some j ->
            JSON_parse P j = Some (JArr rs) ->
            existsb is_null rs = true ->
            getRecommendations P userId w
            = (Ret fallback, logged "[recommendations] Gemini API error:"))
      /\ (forall text,
            gemini P profile available = inr text ->
            match_array text = None ->
            getRecommendations P userId w
            = (Ret [], logged "[recommendations] Failed to parse AI response:")))
  /\ (truthy (env P "GEMINI_API_KEY") = false ->
      getRecommendations P userId w
      = (Ret [],
         logged "[recommendations] GEMINI_API_KEY not set, returning empty recommendations")).
Proof.
  intros Hprofile Hhist Havail Hne fallback logged.
  split; [apply popular_is_the_popularity_ranking|]. split.
  - intros Hkey.
    rewrite (getRecommendations_ranked userId w profile available
               Hkey Hprofile Hhist Havail Hne).
    unfold try_catch, generateContent.
    repeat split.
    + intros e ->. reflexivity.
    + intros text j Hg Hm Hj. rewrite Hg. unfold bind at 1, ret at 1.
      rewrite Hm. unfold bind at 1, parse. rewrite Hj. reflexivity.
    + intros text j rs Hg Hm Hj Hnull. rewrite Hg. unfold bind at 1, ret at 1.
      rewrite Hm. unfold bind at 1, parse. rewrite Hj.
      unfold ret at 1, rank. rewrite Hnull. reflexivity.
    + intros text Hg Hm. rewrite Hg. unfold bind at 1, ret at 1.
      rewrite Hm. reflexivity.
  - intros Hkey. unfold getRecommendations. rewrite Hkey. reflexivity.
Qed.

End Service.

(** Bob has joined one meeting and may still join the algebra session. *)
Lemma bob_has_history_and_a_candidate :
  let w := Sample.at_time 0 Sample.campus in
  exists profile,
    getUserProfile "bob" w = (Ret (Some profile), w)
    /\ totalMeetingsJoined profile = 1%nat
    /\ getAvailableMeetings "bob" w
       = (Ret [candidate (with_relations Sample.campus Sample.algebra)], w).
Proof. eexists. repeat split. Qed.

(** With the ranking model down, Bob gets the popularity ranking. *)
Lemma recommend_falls_back_when_ranking_throws_witness :
  let P := Sample.offline None (Some "key") in
  let w := Sample.at_time 0 Sample.campus in
  let available := [candidate (with_relations Sample.campus Sample.algebra)] in
  fst (getRecommendations P "bob" w) = Ret (popular "Popular session" available)
  /\ popularity_ranking 5 50 "Popular session" available
       (popular "Popular session" available).
Proof.
  intros P w available.
  destruct (recommend_falls_back_when_ranking_throws P "bob" w
              (mkProfile "bob" None ["Physics"] [] [] 1) available
              eq_refl ltac:(discriminate) eq_refl ltac:(discriminate))
    as (Hrank & Hkey & _).
  destruct (Hkey eq_refl) as (Hthrow & _).
  split; [|exact Hrank].
  now rewrite (Hthrow (Sample.failure 503) eq_refl).
Defined.

(** C8 as stated fails.  Bob has a history and a candidate; the ranking
    model answers with prose, a malformed response.  The service returns the
    empty list, which is not the popularity ranking of a non-empty candidate
    set.  The same happens when no API key is configured, that is, when the
    ranking collaborator is unavailable. *)
Lemma recommend_returns_nothing_on_a_malformed_answer :
  let w := Sample.at_time 0 Sample.campus in
  let available := [candidate (with_relations Sample.campus Sample.algebra)] in
  (exists profile,
     getUserProfile "bob" w = (Ret (Some profile), w)
     /\ totalMeetingsJoined profile <> 0%nat)
  /\ getAvailableMeetings "bob" w = (Ret available, w)
  /\ available <> []
  /\ fst (getRecommendations (Sample.answering "Sorry, no suggestions." None)
            "bob" w) = Ret []
  /\ fst (getRecommendations (Sample.offline None None) "bob" w) = Ret []
  /\ ~ popularity_ranking 5 50 "Popular session" available [].
Proof.
  intros w available. repeat split.
  - eexists. split; [reflexivity | discriminate].
  - discriminate.
  - intros (Hlen & _). discriminate Hlen.
Qed.

End RecommendFacts.

(** ** LEAVE, and how the routes compose *)

Module LeaveFacts.

Import StoreFacts AuthFacts JoinFacts DeleteFacts.

Lemma filter_all {A} (f : A -> bool) (l : list A) :
  existsb (fun x => negb (f x)) l = false -> filter f l = l.
Proof.
  induction l as [|x r IH]; cbn; [reflexivity|].
  intros H. apply orb_false_iff in H as [Hx Hr].
  apply negb_false_iff in Hx. rewrite Hx. now rewrite IH.
Qed.

Lemma existsb_negb_negb {A} (f : A -> bool) (l : list A) :
  existsb (fun x => negb (negb (f x))) l = existsb f l.
Proof.
  induction l as [|x r IH]; cbn; [reflexivity|].
  now rewrite negb_involutive, IH.
Qed.

(** The store after the rows of ([k], [uid]) are gone. *)
Lemma leave_handler_run (req : Request) (u : ReqUser) (w : World) :
  user req = Some u ->
  leave_handler req w
  = (Ret (mkResponse 200 Success),
     set_db (mkDB (users (db w)) (meetings (db w))
               (filter (fun a => negb (of_pair (param_id req) (ru_id u) a))
                  (attendees (db w)))) w).
Proof.
  intros Hu. unfold leave_handler, bind, the_user. rewrite Hu. reflexivity.
Qed.

Section Leave.
Variable P : Platform.

(** X1. LEAVE by an authenticated user is answered 200 [{ ok: true }]; it
    removes the attendee rows of that user for that meeting and no other
    row: users and meetings are as before, and an attendee row is there
    afterwards exactly when it was there before and is of another meeting or
    another user. *)
Theorem leave_removes_only_the_callers_row
    (req req' : Request) (u : ReqUser) (w : World) :
  requireAuth P req = Next req' ->
  user req' = Some u ->
  exists w',
    leave P req w = (Ret (mkResponse 200 Success), w')
    /\ users (db w') = users (db w)
    /\ meetings (db w') = meetings (db w)
    /\ (forall a, In a (attendees (db w')) <->
                  In a (attendees (db w))
                  /\ ~ (att_meetingId a = param_id req /\ att_userId a = ru_id u))
    /\ gcalls w' = gcalls w.
Proof.
  intros Hauth Hu.
  destruct (requireAuth_next P req req' Hauth) as (_ & Hid & _ & _).
  unfold leave. rewrite Hauth, (leave_handler_run req' u w Hu), Hid.
  eexists. split; [reflexivity|]. cbn [db set_db users meetings attendees gcalls].
  split; [reflexivity|]. split; [reflexivity|]. split; [|reflexivity].
  intros a. rewrite filter_In.
  unfold of_pair, of_meeting, of_user.
  rewrite negb_true_iff, andb_false_iff, !String.eqb_neq.
  destruct (String.eqb_spec (att_meetingId a) (param_id req));
    destruct (String.eqb_spec (att_userId a) (ru_id u)); tauto.
Qed.

(** X2. LEAVE is idempotent: a second LEAVE by the same user for the same
    meeting is answered 200 again and leaves the world exactly as the first
    one left it; and when the user has no attendee row for the meeting, LEAVE
    changes nothing at all. *)
Theorem leave_is_idempotent (req req' : Request) (u : ReqUser) (w : World) :
  requireAuth P req = Next req' ->
  user req' = Some u ->
  leave P req (snd (leave P req w))
  = (Ret (mkResponse 200 Success), snd (leave P req w))
  /\ (existsb (of_pair (param_id req) (ru_id u)) (attendees (db w)) = false ->
      leave P req w = (Ret (mkResponse 200 Success), w)).
Proof.
  intros Hauth Hu.
  destruct (requireAuth_next P req req' Hauth) as (_ & Hid & _ & _).
  unfold leave. rewrite Hauth, !(leave_handler_run req' u _ Hu), Hid.
  cbn [snd]. split.
  - f_equal. unfold set_db. cbn. now rewrite filter_twice.
  - intros Hno. f_equal. rewrite filter_all.
    + destruct w as [[us ms ats] c n g l]. reflexivity.
    + now rewrite existsb_negb_negb.
Qed.

(** X3. JOIN followed by LEAVE is a round trip on the store: for a user who
    was not attending a meeting that has not ended, the database after the
    two requests is the database before them. *)
Theorem join_then_leave_restores_the_store
    (req req' : Request) (u : ReqUser) (w : World) (m : Meeting) :
  requireAuth P req = Next req' ->
  user req' = Some u ->
  find_meeting (db w) (param_id req) = Some m ->
  clock w < endTime m ->
  has_user (db w) (ru_id u) = true ->
  existsb (fun a => String.eqb (att_id a) (gen_id P (inserted w)))
    (attendees (db w)) = false ->
  existsb (of_pair (param_id req) (ru_id u)) (attendees (db w)) = false ->
  exists a w1 w2,
    join P req w = (Ret (mkResponse 200 (OneAttendee a)), w1)
    /\ In a (attendees (db w1))
    /\ leave P req w1 = (Ret (mkResponse 200 Success), w2)
    /\ db w2 = db w.
Proof.
  intros Hauth Hu Hm Hopen Huser Hfresh Hnew.
  destruct (requireAuth_next P req req' Hauth) as (_ & Hid & _ & _).
  rewrite <- Hid in *.
  pose proof (join_handler_first P req' u w m Hu Hm Hopen Huser Hfresh Hnew)
    as Hjoin. cbn zeta in Hjoin.
  unfold join, leave. rewrite Hauth, Hjoin.
  eexists. eexists. eexists. split; [reflexivity|]. split.
  { cbn. apply in_or_app. right. now left. }
  rewrite (leave_handler_run req' u _ Hu). split; [reflexivity|].
  cbn [db set_db users meetings attendees].
  rewrite filter_app. cbn [filter].
  assert (of_pair (param_id req') (ru_id u)
            (mkAttendee (gen_id P (inserted w)) (param_id req') (ru_id u)
               "going" (clock w)) = true) as ->
      by (unfold of_pair, of_meeting, of_user; cbn; now rewrite !String.eqb_refl).
  cbn [negb]. rewrite app_nil_r, filter_all.
  - now destruct (db w).
  - now rewrite existsb_negb_negb.
Qed.

(** X4. After a successful DELETE the meeting is gone for the other routes:
    DETAIL of its id is answered 404, and so is JOIN. *)
Theorem deleted_meeting_is_not_found
    (req req' : Request) (w : World) (m : Meeting) :
  requireAuth P req = Next req' ->
  find_meeting (db w) (param_id req) = Some m ->
  is_owner m (user req') || is_admin (user req') = true ->
  exists w',
    delete P req w = (Ret (mkResponse 200 Success), w')
    /\ detail req w' = (Ret (mkResponse 404 Failed), w')
    /\ join P req w' = (Ret (mkResponse 404 (Failure "Not found")), w').
Proof.
  intros Hauth Hm Hok.
  destruct (requireAuth_next P req req' Hauth) as (_ & Hid & _ & _).
  rewrite <- Hid in Hm.
  destruct (delete_handler_allowed P req' w m Hm Hok) as (w1 & _ & _ & Hrun).
  eexists. unfold delete. rewrite Hauth. split; [exact Hrun|].
  set (w' := set_db _ w1).
  assert (find_meeting (db w') (param_id req') = None) as Hgone
      by apply without_meeting.
  split.
  - unfold detail, bind, meeting_findUnique_full, bind, get_db, ret.
    rewrite <- Hid, Hgone. reflexivity.
  - unfold join. rewrite Hauth. now apply join_handler_missing.
Qed.

End Leave.

(** Alice leaves Bob's physics session. *)
Lemma leave_removes_only_the_callers_row_witness :
  let P := Sample.offline None None in
  let req := Sample.request (Some (Sample.as_user Sample.alice)) "m2" JNull in
  let w := Sample.at_time Sample.t17 Sample.campus in
  exists w',
    leave P req w = (Ret (mkResponse 200 Success), w')
    /\ users (db w') = users (db w)
    /\ meetings (db w') = meetings (db w)
    /\ (forall a, In a (attendees (db w')) <->
                  In a (attendees (db w))
                  /\ ~ (att_meetingId a = "m2" /\ att_userId a = "alice"))
    /\ gcalls w' = gcalls w.
Proof.
  intros P req w.
  apply (leave_removes_only_the_callers_row P req req
           (Sample.as_user Sample.alice) w); reflexivity.
Defined.

(** Bob, who is not attending the algebra session, leaves it twice. *)
Lemma leave_is_idempotent_witness :
  let P := Sample.offline None None in
  let req := Sample.request (Some (Sample.as_user Sample.bob)) "m1" JNull in
  let w := Sample.at_time Sample.t17 Sample.campus in
  leave P req (snd (leave P req w))
  = (Ret (mkResponse 200 Success), snd (leave P req w))
  /\ leave P req w = (Ret (mkResponse 200 Success), w).
Proof.
  intros P req w.
  destruct (leave_is_idempotent P req req (Sample.as_user Sample.bob) w
              eq_refl eq_refl) as [Htwice Hnone].
  split; [exact Htwice | apply Hnone; reflexivity].
Defined.

(** Bob joins the algebra session at 17:00 and leaves it again. *)
Lemma join_then_leave_restores_the_store_witness :
  let P := Sample.offline None None in
  let req := Sample.request (Some (Sample.as_user Sample.bob)) "m1" JNull in
  let w := Sample.at_time Sample.t17 Sample.campus in
  exists a w1 w2,
    join P req w = (Ret (mkResponse 200 (OneAttendee a)), w1)
    /\ In a (attendees (db w1))
    /\ leave P req w1 = (Ret (mkResponse 200 Success), w2)
    /\ db w2 = db w.
Proof.
  intros P req w.
  apply (join_then_leave_restores_the_store P req req
           (Sample.as_user Sample.bob) w Sample.algebra);
    reflexivity.
Defined.

(** Alice deletes her algebra session; it cannot be read or joined any more. *)
Lemma deleted_meeting_is_not_found_witness :
  let P := Sample.offline None None in
  let req := Sample.request (Some (Sample.as_user Sample.alice)) "m1" JNull in
  let w := Sample.at_time Sample.t17 Sample.campus in
  exists w',
    delete P req w = (Ret (mkResponse 200 Success), w')
    /\ detail req w' = (Ret (mkResponse 404 Failed), w')
    /\ join P req w' = (Ret (mkResponse 404 (Failure "Not found")), w').
Proof.
  intros P req w.
  apply (deleted_meeting_is_not_found P req req w Sample.algebra); reflexivity.
Defined.

End LeaveFacts.

(** ** Who gets through [requireAuth] *)

Module GateFacts.

Import StoreFacts AuthFacts AdminFacts DeleteFacts.

Lemma bearer_inv (auth : string) :
  startsWith "Bearer " auth = true -> auth = "Bearer " ++ slice 7 auth.
Proof.
  unfold startsWith. intros H. apply String.prefix_correct in H.
  do 7 (destruct auth as [|? auth]; [cbn in H; discriminate|]).
  cbn in H. injection H as -> -> -> -> -> -> -> _.
  unfold slice. cbn. now rewrite Nat.sub_0_r, substring_all.
Qed.

Section Gate.
Variable P : Platform.

(** X5. [requireAuth] lets a request through in two ways only: it carries
    [Authorization: Bearer <ADMIN_TOKEN>] for a configured, non-empty
    ADMIN_TOKEN, and then continues as the synthetic administrator; or it
    has a session user, and then continues unchanged.  A wrong token, a
    token without the [Bearer ] prefix or a token when ADMIN_TOKEN is not
    configured never authenticates a request without a session. *)
Theorem requireAuth_passes_token_or_session (req req' : Request) :
  requireAuth P req = Next req' ->
  (exists tok,
     env P "ADMIN_TOKEN" = Some tok /\ tok <> ""
     /\ authorization req = Some ("Bearer " ++ tok)
     /\ req' = set_user admin req)
  \/ (req' = req /\ exists u, user req = Some u).
Proof.
  unfold requireAuth.
  destruct (env P "ADMIN_TOKEN") as [tok|] eqn:Henv;
    [destruct (authorization req) as [auth|] eqn:Hauth|].
  - destruct (truthy_str tok && startsWith "Bearer " auth) eqn:Hguard.
    + apply andb_true_iff in Hguard as [Htok Hpre].
      destruct (String.eqb_spec (slice 7 auth) tok) as [Heq|Hne].
      * intros [= <-]. left. exists tok. repeat split.
        -- unfold truthy_str in Htok. apply negb_true_iff in Htok.
           now apply String.eqb_neq.
        -- f_equal. rewrite <- Heq. now apply bearer_inv.
      * destruct (user req) as [u|]; [|discriminate].
        intros [= <-]. right. eauto.
    + destruct (user req) as [u|]; [|discriminate].
      intros [= <-]. right. eauto.
  - destruct (user req) as [u|]; [|discriminate].
    intros [= <-]. right. eauto.
  - destruct (user req) as [u|]; [|discriminate].
    intros [= <-]. right. eauto.
Qed.

(** X6. When [requireAuth] turns a request down, the answer is 401
    "Not authenticated", and CREATE, PATCH, JOIN, LEAVE and DELETE all send
    that answer without touching the world: no row is written and the
    calendar provider is not called. *)
Theorem unauthenticated_requests_change_nothing
    (req : Request) (r : response) (w : World) :
  requireAuth P req = Respond r ->
  r = mkResponse 401 (Failure "Not authenticated")
  /\ create P req w = (Ret r, w)
  /\ patch P req w = (Ret r, w)
  /\ join P req w = (Ret r, w)
  /\ leave P req w = (Ret r, w)
  /\ delete P req w = (Ret r, w).
Proof.
  intros H. unfold create, patch, join, leave, delete. rewrite H.
  repeat split. unfold requireAuth in H.
  destruct (match env P "ADMIN_TOKEN" with Some _ => _ | None => _ end);
    [discriminate|].
  destruct (user req); [discriminate|]. now injection H as <-.
Qed.

(** X7. DELETE by an authenticated caller who is neither the creator nor an
    administrator is answered 403 "Forbidden", and DELETE of an id that is
    not stored is answered 404 "Not found"; in both cases the world is as
    before: nothing is deleted and the calendar provider is not called. *)
Theorem delete_forbidden_or_missing_changes_nothing
    (req req' : Request) (w : World) :
  requireAuth P req = Next req' ->
  (forall m, find_meeting (db w) (param_id req) = Some m ->
             is_owner m (user req') = false ->
             is_admin (user req') = false ->
             delete P req w = (Ret (mkResponse 403 (Failure "Forbidden")), w))
  /\ (find_meeting (db w) (param_id req) = None ->
      delete P req w = (Ret (mkResponse 404 (Failure "Not found")), w)).
Proof.
  intros Hauth.
  destruct (requireAuth_next P req req' Hauth) as (_ & Hid & _ & _).
  unfold delete. rewrite Hauth. split.
  - intros m Hm Ho Ha.
    unfold delete_handler, bind, meeting_findUnique_full, bind, get_db, ret.
    rewrite Hid, Hm. cbn. rewrite Ho, Ha. reflexivity.
  - intros Hm. apply delete_handler_missing. congruence.
Qed.

End Gate.

(** A session user passes as they are; the bearer of the token passes as the
    administrator. *)
Lemma requireAuth_passes_token_or_session_witness :
  let P := Sample.offline (Some "s3cret") None in
  let req := mkRequest (Some "Bearer s3cret") None "m2" Sample.no_query JNull in
  (exists tok,
     env P "ADMIN_TOKEN" = Some tok /\ tok <> ""
     /\ authorization req = Some ("Bearer " ++ tok)
     /\ set_user admin req = set_user admin req)
  \/ (set_user admin req = req /\ exists u, user req = Some u).
Proof.
  intros P req.
  apply (requireAuth_passes_token_or_session P req (set_user admin req)).
  reflexivity.
Defined.

(** Nobody, with a wrong token, asks for Bob's physics session to be
    deleted. *)
Lemma unauthenticated_requests_change_nothing_witness :
  let P := Sample.offline (Some "s3cret") None in
  let req := mkRequest (Some "Bearer guess") None "m2" Sample.no_query JNull in
  let w := Sample.at_time Sample.t17 Sample.campus in
  let r := mkResponse 401 (Failure "Not authenticated") in
  r = mkResponse 401 (Failure "Not authenticated")
  /\ create P req w = (Ret r, w)
  /\ patch P req w = (Ret r, w)
  /\ join P req w = (Ret r, w)
  /\ leave P req w = (Ret r, w)
  /\ delete P req w = (Ret r, w).
Proof.
  intros P req w r.
  apply (unauthenticated_requests_change_nothing P req r w). reflexivity.
Defined.

(** Alice may not delete Bob's physics session, and nobody can delete a
    meeting that is not there. *)
Lemma delete_forbidden_or_missing_changes_nothing_witness :
  let P := Sample.offline None None in
  let w := Sample.at_time Sample.t17 Sample.campus in
  let other := Sample.request (Some (Sample.as_user Sample.alice)) "m2" JNull in
  let missing := Sample.request (Some (Sample.as_user Sample.alice)) "m9" JNull in
  delete P other w = (Ret (mkResponse 403 (Failure "Forbidden")), w)
  /\ delete P missing w = (Ret (mkResponse 404 (Failure "Not found")), w).
Proof.
  intros P w other missing. split.
  - apply (proj1 (delete_forbidden_or_missing_changes_nothing P other other w
                    eq_refl) Sample.physics); reflexivity.
  - apply (proj2 (delete_forbidden_or_missing_changes_nothing P missing missing w
                    eq_refl)). reflexivity.
Defined.

End GateFacts.

(** ** What the routes say to the calendar *)

Module CalendarFacts.

Import StoreFacts AuthFacts AsyncFacts DeleteFacts PatchFacts.

Lemma when_truthy_some (s : option string) (k : string) :
  when_truthy s = Some k -> s = Some k /\ truthy_str k = true.
Proof.
  unfold when_truthy, truthy, truthy_str. destruct s as [x|]; [|discriminate].
  destruct (negb (String.eqb x "")) eqn:E; [|discriminate].
  intros [= ->]. auto.
Qed.

Lemma when_truthy_none (s : option string) :
  when_truthy s = None -> truthy s = false.
Proof.
  unfold when_truthy. destruct (truthy s) eqn:E; [|reflexivity].
  destruct s; [discriminate | cbn in E; discriminate].
Qed.

Lemma toISOString_renderable (t : Time) (w : World) :
  renderable t = true -> toISOString t w = (Ret t, w).
Proof. unfold toISOString, renderable. now intros ->. Qed.

Lemma only_calls_ret {A} (a : A) : only_calls (ret a).
Proof. intros w. cbn. split; [reflexivity|]. exists []. now rewrite app_nil_r. Qed.

Lemma only_calls_throw {A} (e : exn) : only_calls (@throw A e).
Proof. intros w. cbn. split; [reflexivity|]. exists []. now rewrite app_nil_r. Qed.

Lemma only_calls_bind {A B} (m : M A) (k : A -> M B) :
  only_calls m -> (forall a, only_calls (k a)) -> only_calls (bind m k).
Proof.
  intros Hm Hk w. unfold bind.
  destruct (Hm w) as (Hc & calls & Hg).
  destruct (m w) as [[a|e] w1]; cbn [fst snd] in *.
  - destruct (Hk a w1) as (Hc' & calls' & Hg').
    split; [congruence|]. exists (calls ++ calls')%list.
    now rewrite Hg', Hg, app_assoc.
  - eauto.
Qed.

Lemma only_calls_try_catch {A} (m : M A) (h : exn -> M A) :
  only_calls m -> (forall e, only_calls (h e)) -> only_calls (try_catch m h).
Proof.
  intros Hm Hh w. unfold try_catch.
  destruct (Hm w) as (Hc & calls & Hg).
  destruct (m w) as [[a|e] w1]; cbn [fst snd] in *.
  - eauto.
  - destruct (Hh e w1) as (Hc' & calls' & Hg').
    split; [congruence|]. exists (calls ++ calls')%list.
    now rewrite Hg', Hg, app_assoc.
Qed.

Lemma only_calls_toISOString (t : Time) : only_calls (toISOString t).
Proof.
  unfold toISOString.
  destruct (Z.abs t <=? _); [apply only_calls_ret | apply only_calls_throw].
Qed.

Create HintDb traffic.
#[global] Hint Resolve only_calls_ret only_calls_throw only_calls_toISOString
  : traffic.

Ltac traffic :=
  repeat first
    [ progress auto with traffic
    | apply only_calls_bind; [|intros ?]
    | apply only_calls_try_catch; [|intros ?]
    | match goal with
      | |- only_calls (if ?c then _ else _) => destruct c
      | |- only_calls (match ?c with _ => _ end) => destruct c
      end ].

Ltac final_world :=
  unfold bind, log, ret;
  match goal with
  | |- exists w', (_, ?final) = _ /\ _ => exists final
  end.

Section Adapter.
Variable P : Platform.

Lemma only_calls_call (r : grequest) : only_calls (call P r).
Proof.
  intros w. unfold call.
  destruct (gapi P (gcalls w) r); cbn; (split; [reflexivity | eauto]).
Qed.

Hint Resolve only_calls_call : traffic.

Lemma only_calls_delete_each token items : only_calls (delete_each P token items).
Proof.
  induction items as [|item rest IH]; cbn [delete_each].
  - traffic.
  - apply only_calls_bind; [|intros _; exact IH]. traffic.
Qed.

(** None of the adapter's operations writes on the console. *)
Lemma only_calls_fallback creator k title start finish :
  only_calls (deleteGoogleEventWithFallback P creator k title start finish).
Proof.
  unfold deleteGoogleEventWithFallback, deleteGoogleEvent,
    deleteGoogleEventByQuery.
  destruct creator as [token|]; [|traffic].
  destruct (truthy_str token); [|traffic].
  apply only_calls_try_catch; [|traffic].
  destruct (truthy k); [destruct k; traffic|].
  apply only_calls_bind; [traffic|intros ?].
  apply only_calls_bind; [traffic|intros ?].
  apply only_calls_bind; [traffic|intros ?].
  apply only_calls_delete_each.
Qed.

Lemma call_effect (r : grequest) (w : World) :
  exists w',
    call P r w
    = (match gapi P (gcalls w) r with inl e => Throw e | inr d => Ret d end, w')
    /\ db w' = db w /\ console w' = console w
    /\ gcalls w' = (gcalls w ++ [r])%list.
Proof.
  unfold call. destruct (gapi P (gcalls w) r); eexists; repeat split.
Qed.

(** The world after request [r] went out. *)
Let after_call (r : grequest) (w : World) : World :=
  mkWorld (db w) (clock w) (inserted w) (gcalls w ++ [r]) (console w).

Let settle (answer : exn + gdata) : outcome unit :=
  match answer with
  | inr _ => Ret tt
  | inl e => if gone e then Ret tt else Throw e
  end.

Lemma deleteGoogleEvent_run (token k : string) (w : World) :
  let del := EventsDelete token k (Some "all") in
  deleteGoogleEvent P token k w = (settle (gapi P (gcalls w) del), after_call del w).
Proof.
  cbn zeta. unfold deleteGoogleEvent, try_catch, bind, call, settle, after_call.
  destruct (gapi P (gcalls w) _) as [e|d]; [destruct (gone e)|]; reflexivity.
Qed.

Lemma updateGoogleEvent_run
    (token k summary : string) (description location : option string)
    (start finish : Time) (w : World) :
  renderable start = true -> renderable finish = true ->
  let upd := EventsPatch token k (when_truthy (Some summary))
               (or_undefined description) (or_undefined location)
               (Some start) (Some finish) in
  updateGoogleEvent P token k summary description location start finish w
  = (settle (gapi P (gcalls w) upd), after_call upd w).
Proof.
  intros Hs Hf. cbn zeta.
  unfold updateGoogleEvent, bind at 1. rewrite (toISOString_renderable _ _ Hs).
  unfold bind at 1. rewrite (toISOString_renderable _ _ Hf).
  unfold try_catch, bind, call, settle, after_call.
  change (if truthy_str summary then Some summary else None)
    with (when_truthy (Some summary)).
  destruct (gapi P (gcalls w) _) as [e|d]; [destruct (gone e)|]; reflexivity.
Qed.

(** X13. Update and delete-by-id treat "not found" and "gone" as success:
    when the provider answers the one request they make with an error whose
    code is 404 or 410, they return normally; any other error is thrown on
    to the caller unchanged.  Either way exactly one request went out (for
    the update, given dates that can be rendered). *)
Theorem gone_counts_as_success
    (token k summary : string) (description location : option string)
    (start finish : Time) (w : World) (e : exn) :
  let del := EventsDelete token k (Some "all") in
  let upd := EventsPatch token k (when_truthy (Some summary))
               (or_undefined description) (or_undefined location)
               (Some start) (Some finish) in
  (gapi P (gcalls w) del = inl e ->
   fst (deleteGoogleEvent P token k w)
   = (if gone e then Ret tt else Throw e)
   /\ gcalls (snd (deleteGoogleEvent P token k w)) = (gcalls w ++ [del])%list)
  /\ (renderable start = true -> renderable finish = true ->
      gapi P (gcalls w) upd = inl e ->
      fst (updateGoogleEvent P token k summary description location start
             finish w)
      = (if gone e then Ret tt else Throw e)
      /\ gcalls (snd (updateGoogleEvent P token k summary description location
                        start finish w)) = (gcalls w ++ [upd])%list).
Proof.
  cbn zeta. split.
  - intros H. rewrite deleteGoogleEvent_run. cbn zeta. rewrite H.
    split; reflexivity.
  - intros Hs Hf H. rewrite (updateGoogleEvent_run _ _ _ _ _ _ _ _ Hs Hf).
    cbn zeta. rewrite H. split; reflexivity.
Qed.

Lemma answer_at_first (before : list grequest) (r : grequest)
    (rest : list grequest) :
  answer_at P before (r :: rest) 0 = Some (gapi P before r).
Proof. unfold answer_at. cbn. now rewrite app_nil_r. Qed.

Lemma answer_at_next (before : list grequest) (r : grequest)
    (rest : list grequest) (i : nat) :
  answer_at P before (r :: rest) (S i) = answer_at P (before ++ [r]) rest i.
Proof. unfold answer_at. cbn. now rewrite <- app_assoc. Qed.

(** The loop of the fallback: one delete request per listed id, in order.
    An answer 404 or 410 lets it go on; it stops at the first other error,
    which it throws. *)
Lemma delete_each_traffic (token : string) (items : list (option string))
    (w w' : World) (o : outcome unit) :
  delete_each P token items w = (o, w') ->
  let deletes := map (fun k => EventsDelete token k None) (listed_ids items) in
  exists n,
    gcalls w' = (gcalls w ++ firstn n deletes)%list
    /\ console w' = console w
    /\ db w' = db w
    /\ match o with
       | Ret _ =>
           n = List.length deletes
           /\ forall i, (i < n)%nat ->
                passes (answer_at P (gcalls w) deletes i) = true
       | Throw e =>
           exists i,
             n = S i
             /\ answer_at P (gcalls w) deletes i = Some (inl e)
             /\ gone e = false
             /\ forall j, (j < i)%nat ->
                  passes (answer_at P (gcalls w) deletes j) = true
       end.
Proof.
  cbn zeta. revert w. induction items as [|item rest IH]; intros w E.
  - injection E as <- <-. exists 0%nat. cbn. rewrite app_nil_r.
    repeat split. intros i Hi. lia.
  - cbn [delete_each listed_ids flat_map] in *.
    fold (listed_ids rest).
    destruct (when_truthy item) as [k|] eqn:Hitem.
    + apply when_truthy_some in Hitem as [-> Hk].
      assert (truthy (Some k) = true) as Ht by exact Hk.
      rewrite Ht in E. unfold bind at 1, try_catch, bind at 1, call in E.
      cbn [app map].
      set (del := EventsDelete token k None) in *.
      set (deletes := map (fun k => EventsDelete token k None) (listed_ids rest))
        in *.
      assert (forall w1,
                gcalls w1 = (gcalls w ++ [del])%list ->
                console w1 = console w -> db w1 = db w ->
                passes (Some (gapi P (gcalls w) del)) = true ->
                delete_each P token rest w1 = (o, w') ->
                exists n,
                  gcalls w' = (gcalls w ++ firstn n (del :: deletes))%list
                  /\ console w' = console w /\ db w' = db w
                  /\ match o with
                     | Ret _ =>
                         n = List.length (del :: deletes)
                         /\ forall i, (i < n)%nat ->
                              passes (answer_at P (gcalls w) (del :: deletes) i)
                              = true
                     | Throw e =>
                         exists i,
                           n = S i
                           /\ answer_at P (gcalls w) (del :: deletes) i
                              = Some (inl e)
                           /\ gone e = false
                           /\ forall j, (j < i)%nat ->
                                passes (answer_at P (gcalls w) (del :: deletes) j)
                                = true
                     end)
        as Hnext.
      { intros w1 Hg1 Hc1 Hd1 Hpass E1.
        destruct (IH w1 E1) as (n & Hg & Hc & Hd & Hend).
        fold deletes in Hg, Hend. rewrite Hg1 in Hg, Hend.
        exists (S n). cbn [firstn].
        rewrite Hg, Hc, Hd, Hc1, Hd1, <- app_assoc.
        split; [reflexivity|]. split; [reflexivity|]. split; [reflexivity|].
        destruct o as [[]|e].
        - destruct Hend as [-> Hall]. split; [reflexivity|].
          intros [|i] Hi.
          + now rewrite answer_at_first.
          + rewrite answer_at_next. apply Hall. cbn in Hi. lia.
        - destruct Hend as (i & -> & Hat & Hgone & Hall).
          exists (S i). split; [reflexivity|].
          rewrite answer_at_next. split; [exact Hat|]. split; [exact Hgone|].
          intros [|j] Hj.
          + now rewrite answer_at_first.
          + rewrite answer_at_next. apply Hall. lia. }
      destruct (gapi P (gcalls w) del) as [e|d] eqn:Hans;
        [destruct (gone e) eqn:Hgone|]; cbn in E.
      * eapply Hnext; [| | | |exact E]; try reflexivity. exact Hgone.
      * injection E as <- <-. exists 1%nat. cbn [firstn gcalls console db].
        repeat split. exists 0%nat. split; [reflexivity|].
        rewrite answer_at_first, Hans. repeat split; [exact Hgone|].
        intros j Hj. lia.
      * eapply Hnext; [| | | |exact E]; reflexivity.
    + apply when_truthy_none in Hitem. rewrite Hitem in E.
      unfold bind at 1, try_catch, ret at 1 in E. cbn [app].
      exact (IH w E).
Qed.

(** The fallback by query, once the provider has listed [d]. *)
Lemma delete_by_query_traffic
    (token summary : string) (timeMin timeMax : Time) (w w' : World) (d : gdata)
    (o : outcome unit) :
  let list := EventsList token summary timeMin timeMax 5 in
  let deletes := map (fun k => EventsDelete token k None)
                   (listed_ids (match data_items d with
                                | Some l => l
                                | None => []
                                end)) in
  let before := (gcalls w ++ [list])%list in
  gapi P (gcalls w) list = inr d ->
  deleteGoogleEventByQuery P token summary timeMin timeMax w = (o, w') ->
  exists n,
    gcalls w' = (before ++ firstn n deletes)%list
    /\ console w' = console w
    /\ db w' = db w
    /\ match o with
       | Ret _ =>
           n = List.length deletes
           /\ forall i, (i < n)%nat ->
                passes (answer_at P before deletes i) = true
       | Throw e =>
           exists i,
             n = S i
             /\ answer_at P before deletes i = Some (inl e)
             /\ gone e = false
             /\ forall j, (j < i)%nat ->
                  passes (answer_at P before deletes j) = true
       end.
Proof.
  cbn zeta. intros Hlist.
  unfold deleteGoogleEventByQuery, bind, call. rewrite Hlist. intros E.
  apply delete_each_traffic in E. exact E.
Qed.

(** X11. The fallback by query asks the provider for up to 5 events that
    match the title in the time window, then sends one delete request for
    each listed event that has an id, in the order listed.  A delete that is
    answered with an error 404 or 410 does not stop it; the first delete
    answered with another error does, and that error is thrown.  So when it
    returns normally every listed id got its delete request, and when it
    throws the last request sent is the one that failed.  It talks to
    nothing but the provider. *)
Theorem fallback_deletes_each_listed_event
    (token summary : string) (timeMin timeMax : Time) (w : World) (d : gdata) :
  let list := EventsList token summary timeMin timeMax 5 in
  let deletes := map (fun k => EventsDelete token k None)
                   (listed_ids (match data_items d with
                                | Some l => l
                                | None => []
                                end)) in
  let before := (gcalls w ++ [list])%list in
  let run := deleteGoogleEventByQuery P token summary timeMin timeMax w in
  gapi P (gcalls w) list = inr d ->
  exists n,
    gcalls (snd run) = (before ++ firstn n deletes)%list
    /\ console (snd run) = console w
    /\ db (snd run) = db w
    /\ match fst run with
       | Ret _ =>
           n = List.length deletes
           /\ forall i, (i < n)%nat ->
                passes (answer_at P before deletes i) = true
       | Throw e =>
           exists i,
             n = S i
             /\ answer_at P before deletes i = Some (inl e)
             /\ gone e = false
             /\ forall j, (j < i)%nat ->
                  passes (answer_at P before deletes j) = true
       end.
Proof.
  cbn zeta. intros Hlist.
  destruct (deleteGoogleEventByQuery P token summary timeMin timeMax w)
    as [o w'] eqn:E.
  exact (delete_by_query_traffic token summary timeMin timeMax w w' d o Hlist E).
Qed.

Lemma fallback_without_token (creator k : option string) (title : string)
    (start finish : Time) (w : World) :
  when_truthy creator = None ->
  deleteGoogleEventWithFallback P creator k title start finish w = (Ret tt, w).
Proof.
  intros H. apply when_truthy_none in H.
  unfold deleteGoogleEventWithFallback.
  destruct creator as [token|]; [|reflexivity].
  cbn in H. unfold truthy_str. now rewrite H.
Qed.

Lemma fallback_by_id (creator k : option string) (token g title : string)
    (start finish : Time) (w : World) :
  when_truthy creator = Some token ->
  when_truthy k = Some g ->
  deleteGoogleEventWithFallback P creator k title start finish w
  = (Ret tt, after_call (EventsDelete token g (Some "all")) w).
Proof.
  intros Ht Hk.
  apply when_truthy_some in Ht as [-> Ht]. apply when_truthy_some in Hk as [-> Hk].
  unfold deleteGoogleEventWithFallback. rewrite Ht.
  assert (truthy (Some g) = true) as -> by exact Hk.
  unfold try_catch. rewrite deleteGoogleEvent_run. cbn zeta.
  destruct (settle _) as [[]|e]; reflexivity.
Qed.

Lemma fallback_by_query (creator k : option string) (token title : string)
    (start finish : Time) (w : World) :
  when_truthy creator = Some token ->
  when_truthy k = None ->
  renderable (start - windowMinutes * 60000) = true ->
  renderable (finish + windowMinutes * 60000) = true ->
  let list := EventsList token title (start - windowMinutes * 60000)
                (finish + windowMinutes * 60000) 5 in
  exists w',
    deleteGoogleEventWithFallback P creator k title start finish w = (Ret tt, w')
    /\ console w' = console w
    /\ match gapi P (gcalls w) list with
       | inl _ => gcalls w' = (gcalls w ++ [list])%list
       | inr d =>
           exists n,
             gcalls w'
             = (gcalls w
                ++ list :: map (fun k => EventsDelete token k None)
                             (firstn n (listed_ids
                                          (match data_items d with
                                           | Some l => l
                                           | None => []
                                           end))))%list
       end.
Proof.
  intros Ht Hk Hs Hf. cbn zeta.
  apply when_truthy_some in Ht as [-> Ht]. apply when_truthy_none in Hk.
  unfold deleteGoogleEventWithFallback. rewrite Ht, Hk.
  unfold try_catch, bind at 1. rewrite (toISOString_renderable _ _ Hs).
  unfold bind at 1. rewrite (toISOString_renderable _ _ Hf).
  destruct (gapi P (gcalls w)
              (EventsList token title (start - windowMinutes * 60000)
                 (finish + windowMinutes * 60000) 5)) as [e|d] eqn:Hlist.
  - unfold deleteGoogleEventByQuery, bind, call. rewrite Hlist.
    eexists. cbn. repeat split.
  - destruct (deleteGoogleEventByQuery P token title _ _ w) as [o w1] eqn:E.
    destruct (delete_by_query_traffic token title _ _ w w1 d o Hlist E)
      as (n & Hg & Hc & _).
    rewrite <- app_assoc, firstn_map in Hg. cbn [app] in Hg.
    destruct o as [[]|e]; eexists; (split; [reflexivity|]);
      (split; [exact Hc|]); exists n; exact Hg.
Qed.

Lemma cleanup_is_the_fallback (f : MeetingFull) (w : World) :
  cleanup P f w
  = deleteGoogleEventWithFallback P (creator_token f) (googleEventId (meeting f))
      (title (meeting f)) (startTime (meeting f)) (endTime (meeting f)) w.
Proof.
  unfold cleanup, try_catch.
  destruct (delete_with_fallback_never_throws P (creator_token f)
              (googleEventId (meeting f)) (title (meeting f))
              (startTime (meeting f)) (endTime (meeting f)) w) as (w' & ->).
  reflexivity.
Qed.

(** X9. What DELETE says to the calendar, for a stored meeting and an owner
    or administrator.  The route never writes a calendar warning on the
    console, whatever the provider answers.  When the creator has no refresh
    token nothing is sent.  When the meeting has an event id, exactly one
    request is sent: delete that event, with [sendUpdates: 'all'].  When it
    has none, the first request lists events by the meeting's title between
    60 minutes before its start and 60 minutes after its end, at most 5; if
    the provider refuses it nothing else is sent, and otherwise the further
    requests are delete requests for the items of the list it answered that
    have an id, in the order listed, up to the one at which the loop
    stopped. *)
Theorem delete_calendar_traffic (req req' : Request) (w : World) (m : Meeting) :
  requireAuth P req = Next req' ->
  find_meeting (db w) (param_id req) = Some m ->
  is_owner m (user req') || is_admin (user req') = true ->
  exists w',
    delete P req w = (Ret (mkResponse 200 Success), w')
    /\ console w' = console w
    /\ match when_truthy (creator_token (with_relations (db w) m)),
             when_truthy (googleEventId m) with
       | None, _ => gcalls w' = gcalls w
       | Some token, Some g =>
           gcalls w' = (gcalls w ++ [EventsDelete token g (Some "all")])%list
       | Some token, None =>
           renderable (startTime m - 60 * 60000) = true ->
           renderable (endTime m + 60 * 60000) = true ->
           let list := EventsList token (title m) (startTime m - 60 * 60000)
                         (endTime m + 60 * 60000) 5 in
           match gapi P (gcalls w) list with
           | inl _ => gcalls w' = (gcalls w ++ [list])%list
           | inr d =>
               exists n,
                 gcalls w'
                 = (gcalls w
                    ++ list :: map (fun k => EventsDelete token k None)
                                 (firstn n (listed_ids
                                              (match data_items d with
                                               | Some l => l
                                               | None => []
                                               end))))%list
           end
       end.
Proof.
  intros Hauth Hm Hok.
  destruct (requireAuth_next P req req' Hauth) as (_ & Hid & _ & _).
  rewrite <- Hid in Hm.
  destruct (delete_handler_allowed P req' w m Hm Hok) as (w1 & Hc & _ & Hrun).
  eexists. unfold delete. rewrite Hauth. split; [exact Hrun|].
  cbn [console gcalls set_db].
  rewrite cleanup_is_the_fallback in Hc.
  cbn [meeting with_relations] in Hc.
  fold (with_relations (db w) m) in Hc.
  pose proof (only_calls_fallback (creator_token (with_relations (db w) m))
                (googleEventId m) (title m) (startTime m) (endTime m) w)
    as [Hsilent _].
  rewrite Hc in Hsilent. cbn [snd] in Hsilent. split; [exact Hsilent|].
  destruct (when_truthy (creator_token _)) as [token|] eqn:Ht.
  - destruct (when_truthy (googleEventId m)) as [g|] eqn:Hg.
    + rewrite (fallback_by_id _ _ token g _ _ _ w Ht Hg) in Hc.
      injection Hc as <-. reflexivity.
    + intros Hs Hf.
      destruct (fallback_by_query _ _ token (title m) (startTime m) (endTime m)
                  w Ht Hg Hs Hf) as (w2 & Hrun2 & _ & Hcalls).
      rewrite Hrun2 in Hc. injection Hc as <-. exact Hcalls.
  - rewrite (fallback_without_token _ _ _ _ _ w Ht) in Hc.
    now injection Hc as <-.
Qed.

(** X8. What PATCH says to the calendar, for a stored meeting, an owner or
    administrator and a valid payload.  The answer is always the 200 with
    the updated meeting.  Unless the meeting had an event id and its creator
    has a refresh token, nothing is sent and nothing is logged.  Otherwise
    exactly one request is sent: patch that event with the title,
    description, location, start and end of the meeting as updated (an empty
    title, description or location is left out).  One warning is written on
    the console exactly when the provider refuses that request with an
    error other than 404 or 410; when the provider accepts it, or the event
    is gone, the console stays as it was. *)
Theorem patch_calendar_traffic
    (req req' : Request) (b : PatchBody) (w : World) (m : Meeting) :
  requireAuth P req = Next req' ->
  PatchMeetingSchema P (body req) = Some b ->
  (forall s, pb_startTime b = Some s \/ pb_endTime b = Some s ->
             s <> "" /\ Date_parse P s <> None) ->
  find_meeting (db w) (param_id req) = Some m ->
  is_owner m (user req') || is_admin (user req') = true ->
  let m' := apply_update (clock w) (patch_data P b) m in
  exists w',
    patch P req w
    = (Ret (mkResponse 200 (OneMeeting (Some (with_relations (db w') m')))), w')
    /\ match when_truthy (googleEventId m),
             when_truthy (creator_token (with_relations (db w) m)) with
       | Some g, Some token =>
           renderable (startTime m') = true ->
           renderable (endTime m') = true ->
           gcalls w'
           = (gcalls w
              ++ [EventsPatch token g (when_truthy (Some (title m')))
                    (or_undefined (description m')) (or_undefined (location m'))
                    (Some (startTime m')) (Some (endTime m'))])%list
           /\ console w'
              = match gapi P (gcalls w)
                        (EventsPatch token g (when_truthy (Some (title m')))
                           (or_undefined (description m'))
                           (or_undefined (location m'))
                           (Some (startTime m')) (Some (endTime m'))) with
                | inr _ => console w
                | inl e =>
                    if gone e then console w
                    else (console w ++ ["[calendar] update failed:"])%list
                end
       | _, _ => gcalls w' = gcalls w /\ console w' = console w
       end.
Proof.
  intros Hauth Hb Hdates Hm Hok m'.
  destruct (requireAuth_next P req req' Hauth) as (_ & Hid & Hbody & _).
  rewrite <- Hid in Hm. apply allowed_iff in Hok.
  unfold patch, validate. rewrite Hauth, Hbody, Hb.
  unfold patch_handler, bind at 1, meeting_findUnique_full, bind at 1, get_db,
    ret at 1.
  rewrite Hm. cbn [option_map meeting with_relations]. rewrite Hok.
  unfold bind at 1.
  rewrite (meeting_update_run _ _ w m (patch_dates_ok P b Hdates) Hm). fold m'.
  unfold bind at 1, get_db. cbn [db set_db].
  fold (with_relations (db w) m).
  set (w1 := set_db (replaced (param_id req') m' (db w)) w).
  change (creator_token (mkFull m (attendees_of (db w) (id m))
                           (find_user (db w) (createdById m))))
    with (creator_token (with_relations (db w) m)).
  destruct (when_truthy (googleEventId m)) as [g|];
    [destruct (when_truthy (creator_token _)) as [token|]|].
  - destruct (renderable (startTime m') && renderable (endTime m')) eqn:Hr.
    + apply andb_true_iff in Hr as [Hs Hf].
      unfold bind at 1, try_catch.
      rewrite (updateGoogleEvent_run token g _ _ _ _ _ w1 Hs Hf). cbn zeta.
      unfold settle. change (gcalls w1) with (gcalls w).
      destruct (gapi P (gcalls w) _) as [e|d]; [destruct (gone e)|].
      * final_world. split; [reflexivity|]. intros _ _. split; reflexivity.
      * final_world. split; [reflexivity|]. intros _ _. split; reflexivity.
      * final_world. split; [reflexivity|]. intros _ _. split; reflexivity.
    + pose proof (best_effort
                    (updateGoogleEvent P token g (title m') (description m')
                       (location m') (startTime m') (endTime m'))
                    "[calendar] update failed:" w1
                    (keeps_update_event P _ _ _ _ _ _ _)) as (w' & H & Hdb & _).
      unfold bind at 1. rewrite H. exists w'. rewrite Hdb.
      split; [reflexivity|]. intros Hs Hf. rewrite Hs, Hf in Hr. discriminate.
  - final_world. split; [reflexivity|]. split; reflexivity.
  - final_world. split; [reflexivity|]. split; reflexivity.
Qed.

(** X12. The create operation of the adapter.  Without a refresh token
    (none, or an empty one) it returns no id and sends nothing.  When it
    returns an id, that id is not empty and is the one the provider gave in
    answer to the single insert request sent, which carries the title, the
    non-empty description and location, and the two instants. *)
Theorem create_event_returns_the_providers_id
    (creator : option string) (title : string) (description : option string)
    (start finish : Time) (location onlineUrl : option string) (w : World) :
  let run := createCalendarEventForMeeting P creator title description start
               finish location onlineUrl w in
  (when_truthy creator = None -> run = (Ret None, w))
  /\ (forall g, fst run = Ret (Some g) ->
        g <> ""
        /\ exists token d,
             let insert := EventsInsert token title (or_undefined description)
                             (or_undefined location) start finish in
             when_truthy creator = Some token
             /\ gapi P (gcalls w) insert = inr d
             /\ data_id d = Some g
             /\ gcalls (snd run) = (gcalls w ++ [insert])%list).
Proof.
  cbn zeta. unfold createCalendarEventForMeeting. split.
  - intros H. apply when_truthy_none in H.
    destruct creator as [token|]; [|reflexivity].
    cbn in H. unfold truthy_str. now rewrite H.
  - intros g. destruct creator as [token|]; [|discriminate].
    destruct (truthy_str token) eqn:Ht; [|discriminate].
    unfold bind at 1, toISOString.
    destruct (Z.abs start <=? _); [|discriminate].
    unfold ret at 1, bind at 1.
    destruct (Z.abs finish <=? _); [|discriminate].
    unfold ret at 1, bind, call.
    destruct (gapi P (gcalls w) _) as [e|d] eqn:Hg; [discriminate|].
    cbn [fst snd ret]. intros [= Hid].
    unfold or_undefined in Hid.
    destruct (truthy (data_id d)) eqn:Htr; [|discriminate].
    split.
    + rewrite Hid in Htr. cbn in Htr. apply negb_true_iff in Htr.
      now apply String.eqb_neq.
    + exists token, d. cbn zeta. split; [|split; [exact Hg|split; [exact Hid|]]].
      * unfold when_truthy, truthy. fold (truthy_str token). now rewrite Ht.
      * rewrite Hg. reflexivity.
Qed.

End Adapter.

(** Every call is answered 404: update and delete-by-id return normally. *)
Lemma gone_counts_as_success_witness :
  let w := Sample.at_time Sample.t17 Sample.campus in
  fst (deleteGoogleEvent Mirror.vanished "rt-alice" "ev1" w) = Ret tt
  /\ fst (updateGoogleEvent Mirror.vanished "rt-alice" "ev1" "Algebra" None None
            Sample.t17 Sample.t18 w) = Ret tt.
Proof.
  intros w.
  destruct (gone_counts_as_success Mirror.vanished "rt-alice" "ev1" "Algebra"
              None None Sample.t17 Sample.t18 w (Sample.failure 404))
    as [Hdel Hupd].
  split.
  - apply (proj1 (Hdel eq_refl)).
  - apply (proj1 (Hupd eq_refl eq_refl eq_refl)).
Defined.

(** The provider lists four items, two of them with an id.  When the first
    of the two is gone already, both get their delete request and the
    fallback returns; when the provider refuses deletes, the fallback stops
    at the first and throws the refusal. *)
Lemma fallback_deletes_each_listed_event_witness :
  let w := Sample.at_time Sample.t17 Sample.campus in
  let list := EventsList "rt-bob" "Physics" Sample.t17 Sample.t19 5 in
  let run P :=
    deleteGoogleEventByQuery P "rt-bob" "Physics" Sample.t17 Sample.t19 w in
  (fst (run Mirror.half_gone) = Ret tt
   /\ gcalls (snd (run Mirror.half_gone))
      = [list; EventsDelete "rt-bob" "e1" None; EventsDelete "rt-bob" "e2" None])
  /\ (fst (run Mirror.read_only) = Throw (Sample.failure 403)
      /\ gcalls (snd (run Mirror.read_only))
         = [list; EventsDelete "rt-bob" "e1" None]).
Proof.
  intros w list run. split.
  - destruct (fallback_deletes_each_listed_event Mirror.half_gone "rt-bob"
                "Physics" Sample.t17 Sample.t19 w Mirror.found eq_refl)
      as (n & Hg & _ & _ & Hend).
    change (fst (deleteGoogleEventByQuery Mirror.half_gone "rt-bob" "Physics"
                   Sample.t17 Sample.t19 w))
      with (@Ret unit tt) in Hend.
    destruct Hend as [-> _].
    split; [reflexivity | exact Hg].
  - destruct (fallback_deletes_each_listed_event Mirror.read_only "rt-bob"
                "Physics" Sample.t17 Sample.t19 w Mirror.found eq_refl)
      as (n & Hg & _ & _ & Hend).
    change (fst (deleteGoogleEventByQuery Mirror.read_only "rt-bob" "Physics"
                   Sample.t17 Sample.t19 w))
      with (@Throw unit (Sample.failure 403)) in Hend.
    destruct Hend as (i & -> & Hat & _ & Hall).
    split; [reflexivity|].
    destruct i as [|i]; [exact Hg|].
    specialize (Hall 0%nat (Nat.lt_0_succ i)). discriminate Hall.
Defined.

(** Alice deletes her algebra session, which has an event id. *)
Lemma delete_calendar_traffic_witness :
  let P := Sample.offline None None in
  let req := Sample.request (Some (Sample.as_user Sample.alice)) "m1" JNull in
  let w := Sample.at_time Sample.t17 Sample.campus in
  exists w',
    delete P req w = (Ret (mkResponse 200 Success), w')
    /\ console w' = []
    /\ gcalls w' = [EventsDelete "rt-alice" "ev1" (Some "all")].
Proof.
  intros P req w.
  destruct (delete_calendar_traffic P req req w Sample.algebra
              eq_refl eq_refl eq_refl) as (w' & Hrun & Hc & Hg).
  exists w'. repeat split; assumption.
Defined.

(** Alice patches her algebra session while the provider is down. *)
Lemma patch_calendar_traffic_witness :
  let P := Sample.offline None None in
  let req := Sample.request (Some (Sample.as_user Sample.alice)) "m1"
               Sample.retitle in
  let w := Sample.at_time Sample.t17 Sample.campus in
  exists f w',
    patch P req w = (Ret (mkResponse 200 (OneMeeting (Some f))), w')
    /\ gcalls w'
       = [EventsPatch "rt-alice" "ev1" (Some "Algebra") None None
            (Some Sample.t17) (Some Sample.t19)]
    /\ console w' = ["[calendar] update failed:"].
Proof.
  intros P req w.
  destruct (patch_calendar_traffic P req req
              (mkPatchBody None (Some None) (Some (Some "Maths")) None None None
                 (Some "2025-09-24T19:00:00.000Z") (Some (Some "")) None)
              w Sample.algebra eq_refl eq_refl) as (w' & Hrun & Htraffic);
    [ intros s [H|H]; [discriminate H|];
      injection H as <-; split; discriminate
    | reflexivity | reflexivity | ].
  eexists. exists w'. split; [exact Hrun|].
  cbn in Htraffic. destruct (Htraffic eq_refl eq_refl) as [Hg _].
  split; [exact Hg|].
  pose proof (f_equal snd Hrun) as Hw. cbn [snd] in Hw. rewrite <- Hw.
  reflexivity.
Defined.

(** The provider accepts the insert as event "ev9"; without a token it is
    not asked. *)
Lemma create_event_returns_the_providers_id_witness :
  let P := Mirror.answering_calendar (Mirror.inserted_as "ev9") in
  let w := Sample.at_time Sample.t17 Sample.campus in
  createCalendarEventForMeeting P None "Revision" None Sample.t18 Sample.t19
    None None w = (Ret None, w)
  /\ "ev9" <> "".
Proof.
  intros P w.
  destruct (create_event_returns_the_providers_id P None "Revision" None
              Sample.t18 Sample.t19 None None w) as [Hnone _].
  destruct (create_event_returns_the_providers_id P (Some "rt-alice") "Revision"
              None Sample.t18 Sample.t19 None None w) as [_ Hsome].
  split; [apply Hnone; reflexivity|].
  apply (Hsome "ev9"). reflexivity.
Defined.

End CalendarFacts.

(** ** The scorer *)

Module ScorerFacts.

Import StoreFacts RecommendFacts ListFacts CalendarFacts.

(** *** The bracketed part of an answer *)

Lemma append_assoc (a b c : string) : (a ++ b) ++ c = a ++ b ++ c.
Proof. induction a as [|x a IH]; cbn; [reflexivity | now rewrite IH]. Qed.

Lemma upto_last_close_none (s : string) :
  occurs "]" s = false -> upto_last_close s = None.
Proof.
  induction s as [|c r IH]; cbn; [reflexivity|].
  intros H. apply orb_false_iff in H as [Hc Hr].
  now rewrite (IH Hr), Hc.
Qed.

Lemma upto_last_close_complete (body post : string) :
  occurs "]" post = false ->
  upto_last_close (body ++ "]" ++ post) = Some (body ++ "]").
Proof.
  intros Hpost. induction body as [|c r IH]; cbn.
  - now rewrite (upto_last_close_none post Hpost).
  - cbn in IH. now rewrite IH.
Qed.

Lemma upto_last_close_sound (s t : string) :
  upto_last_close s = Some t ->
  exists body post,
    t = body ++ "]" /\ s = body ++ "]" ++ post /\ occurs "]" post = false.
Proof.
  revert t. induction s as [|c r IH]; cbn; [discriminate|].
  intros t. destruct (upto_last_close r) as [t'|] eqn:E.
  - intros [= <-]. destruct (IH t' eq_refl) as (body & post & -> & -> & Hp).
    exists (String c body), post. auto.
  - destruct (Ascii.eqb_spec c "]") as [->|Hne]; [|discriminate].
    intros [= <-]. exists "", r. repeat split.
    clear IH. induction r as [|x r IH]; cbn in *; [reflexivity|].
    destruct (upto_last_close r); [discriminate|].
    destruct (Ascii.eqb x "]"); [discriminate|]. cbn. auto.
Qed.

(** X19. The JSON array is looked for from the first opening bracket of the
    answer to the last closing bracket after it: the match is [j] exactly
    when the answer is [pre ++ j ++ post] where [j] starts with "[" and ends
    with "]", [pre] has no "[" and [post] has no "]".  In particular an
    answer with no "[" or with no "]" after the first "[" has no match. *)
Theorem match_array_spans_first_open_to_last_close (text j : string) :
  match_array text = Some j <->
  exists pre body post,
    text = pre ++ j ++ post
    /\ j = "[" ++ body ++ "]"
    /\ occurs "[" pre = false
    /\ occurs "]" post = false.
Proof.
  split.
  - revert j. induction text as [|c r IH]; intros j; [discriminate|].
    cbn [match_array].
    destruct (Ascii.eqb_spec c "[") as [->|Hne].
    + intros H. apply upto_last_close_sound in H as (b & post & -> & Hs & Hp).
      destruct b as [|x b]; [discriminate|].
      cbn in Hs. injection Hs as <- ->.
      exists "", b, post. cbn. rewrite append_assoc. auto.
    + intros H. destruct (IH j H) as (pre & body & post & -> & -> & Hpre & Hp).
      exists (String c pre), body, post. cbn. repeat split; auto.
      apply Ascii.eqb_neq in Hne. now rewrite Hne.
  - intros (pre & body & post & -> & -> & Hpre & Hpost).
    induction pre as [|c r IH]; cbn in *.
    + pose proof (upto_last_close_complete ("[" ++ body) post Hpost) as H.
      rewrite append_assoc in H. cbn in *. rewrite append_assoc. exact H.
    + apply orb_false_iff in Hpre as [Hc Hr]. rewrite Hc. auto.
Qed.

(** *** Profile *)

Lemma add_nodup (s : string) (set : list string) :
  NoDup set -> NoDup (add s set).
Proof.
  intros H. unfold add. destruct (existsb (String.eqb s) set) eqn:E; [exact H|].
  apply (Permutation_NoDup (Permutation_cons_append set s)).
  constructor; [|exact H]. intros Hin.
  assert (existsb (String.eqb s) set = true)
    by (apply existsb_exists; exists s; split; [exact Hin | apply String.eqb_refl]).
  congruence.
Qed.

Lemma add_in (s x : string) (set : list string) :
  In x (add s set) <-> In x set \/ x = s.
Proof.
  unfold add. destruct (existsb (String.eqb s) set) eqn:E.
  - apply existsb_exists in E as (y & Hy & Heq). apply String.eqb_eq in Heq.
    subst y. split; [auto | intros [H| ->]; auto].
  - rewrite in_app_iff. cbn. intuition.
Qed.

(** The loop that fills a [Set]: no value twice, and a value is in it
    exactly when it is the non-empty [column] of an attended meeting. *)
Lemma collect_spec (d : DB) (column : Meeting -> option string)
    (attended : list Attendee) :
  NoDup (collect d column attended)
  /\ forall s, In s (collect d column attended) <->
               s <> ""
               /\ exists a m, In a attended
                              /\ find_meeting d (att_meetingId a) = Some m
                              /\ column m = Some s.
Proof.
  unfold collect.
  assert (forall acc,
            NoDup acc ->
            let out := fold_left
                         (fun set a =>
                            match find_meeting d (att_meetingId a) with
                            | Some m => add_truthy (column m) set
                            | None => set
                            end) attended acc in
            NoDup out
            /\ forall s, In s out <->
                         In s acc
                         \/ (s <> ""
                             /\ exists a m, In a attended
                                            /\ find_meeting d (att_meetingId a) = Some m
                                            /\ column m = Some s)) as H.
  { induction attended as [|a r IH]; intros acc Hacc; cbn.
    - split; [exact Hacc|]. intros s. split; [auto|].
      intros [H|(_ & a & m & [] & _)]. exact H.
    - set (acc' := match find_meeting d (att_meetingId a) with
                   | Some m => add_truthy (column m) acc
                   | None => acc
                   end).
      assert (NoDup acc') as Hacc'.
      { unfold acc', add_truthy. destruct (find_meeting d _); [|exact Hacc].
        destruct (when_truthy _); [now apply add_nodup | exact Hacc]. }
      destruct (IH acc' Hacc') as [Hnd Hin]. split; [exact Hnd|].
      intros s. rewrite Hin. unfold acc', add_truthy.
      destruct (find_meeting d (att_meetingId a)) as [m|] eqn:Hm.
      + destruct (when_truthy (column m)) as [k|] eqn:Hk.
        * apply CalendarFacts.when_truthy_some in Hk as [Hcol Hne].
          rewrite add_in. split.
          -- intros [[H| ->]|(Hs & a' & m' & Ha' & Hm' & Hc')]; auto.
             ++ right. split.
                ** unfold truthy_str in Hne. apply negb_true_iff in Hne.
                   now apply String.eqb_neq.
                ** exists a, m. auto.
             ++ right. split; [exact Hs|]. exists a', m'. auto.
          -- intros [H|(Hs & a' & m' & [<-|Ha'] & Hm' & Hc')]; auto.
             ++ left. right. congruence.
             ++ right. split; [exact Hs|]. exists a', m'. auto.
        * apply CalendarFacts.when_truthy_none in Hk. split.
          -- intros [H|(Hs & a' & m' & Ha' & Hm' & Hc')]; auto.
             right. split; [exact Hs|]. exists a', m'. auto.
          -- intros [H|(Hs & a' & m' & [<-|Ha'] & Hm' & Hc')]; auto.
             ++ exfalso. rewrite Hm in Hm'. injection Hm' as <-.
                rewrite Hc' in Hk. cbn in Hk. apply negb_false_iff in Hk.
                apply String.eqb_eq in Hk. contradiction.
             ++ right. split; [exact Hs|]. exists a', m'. auto.
      + split.
        * intros [H|(Hs & a' & m' & Ha' & Hm' & Hc')]; auto.
          right. split; [exact Hs|]. exists a', m'. auto.
        * intros [H|(Hs & a' & m' & [<-|Ha'] & Hm' & Hc')]; auto.
          -- congruence.
          -- right. split; [exact Hs|]. exists a', m'. auto. }
  destruct (H [] (NoDup_nil _)) as [Hnd Hin]. split; [exact Hnd|].
  intros s. rewrite Hin. cbn. tauto.
Qed.

(** The same for the attendee rows of one user. *)
Lemma collect_of_user (d : DB) (column : Meeting -> option string)
    (userId s : string) :
  In s (collect d column (filter (of_user userId) (attendees d))) <->
  s <> ""
  /\ exists a m, In a (attendees d)
                 /\ att_userId a = userId
                 /\ find_meeting d (att_meetingId a) = Some m
                 /\ column m = Some s.
Proof.
  rewrite (proj2 (collect_spec _ _ _) s). split.
  - intros (Hs & a & m & Ha & Hm & Hc).
    apply filter_In in Ha as [Ha Hu]. apply String.eqb_eq in Hu.
    split; [exact Hs|]. exists a, m. auto.
  - intros (Hs & a & m & Ha & Hu & Hm & Hc).
    split; [exact Hs|]. exists a, m. repeat split; auto.
    apply filter_In. split; [exact Ha|]. unfold of_user. now apply String.eqb_eq.
Qed.

(** X18. The profile of a user.  For an id with no "User" row there is no
    profile.  Otherwise the profile has the user's id and name, counts the
    user's attendee rows, and its subjects, its levels and its
    specializations each hold no value twice and hold exactly the non-empty
    values of that column over the meetings the user attends.  Building it
    changes nothing. *)
Theorem profile_holds_each_attended_value_once (userId : string) (w : World) :
  let attended (column : Meeting -> option string) (s : string) :=
    s <> ""
    /\ exists a m, In a (attendees (db w))
                   /\ att_userId a = userId
                   /\ find_meeting (db w) (att_meetingId a) = Some m
                   /\ column m = Some s in
  match find_user (db w) userId with
  | None => getUserProfile userId w = (Ret None, w)
  | Some u =>
      exists p,
        getUserProfile userId w = (Ret (Some p), w)
        /\ profile_userId p = user_id u
        /\ profile_name p = user_name u
        /\ totalMeetingsJoined p
           = List.length (filter (of_user userId) (attendees (db w)))
        /\ NoDup (subjects p) /\ NoDup (levels p) /\ NoDup (specializations p)
        /\ (forall s, In s (subjects p) <-> attended subject s)
        /\ (forall s, In s (levels p) <-> attended level s)
        /\ (forall s, In s (specializations p) <-> attended specialization s)
  end.
Proof.
  cbn zeta.
  unfold getUserProfile, bind, user_findUnique, bind, get_db, ret,
    meetingAttendee_findMany, bind, get_db, ret.
  destruct (find_user (db w) userId) as [u|]; [|reflexivity].
  eexists. split; [reflexivity|].
  cbn [profile_userId profile_name totalMeetingsJoined subjects levels
       specializations].
  split; [reflexivity|]. split; [reflexivity|]. split; [reflexivity|].
  split; [apply collect_spec|]. split; [apply collect_spec|].
  split; [apply collect_spec|].
  split; [|split]; intros s; apply collect_of_user.
Qed.

(** *** Candidates *)

Lemma sorted_filter {A} (R : A -> A -> Prop) (f : A -> bool) (l : list A) :
  StronglySorted R l -> StronglySorted R (filter f l).
Proof.
  induction 1 as [|x r Hs IH Hall]; cbn; [constructor|].
  destruct (f x); [|exact IH]. constructor; [exact IH|].
  rewrite Forall_forall in *. intros y Hy. apply filter_In in Hy. apply Hall, Hy.
Qed.

Lemma length_filter_le {A} (f : A -> bool) (l : list A) :
  (List.length (filter f l) <= List.length l)%nat.
Proof.
  induction l as [|x r IH]; cbn; [lia|]. destruct (f x); cbn; lia.
Qed.

Lemma not_joined (k uid : string) (l : list Attendee) :
  existsb (String.eqb k) (map att_meetingId (filter (of_user uid) l)) = false ->
  existsb (of_pair k uid) l = false.
Proof.
  induction l as [|a r IH]; cbn; [reflexivity|].
  unfold of_pair at 1, of_meeting.
  destruct (of_user uid a) eqn:Hu; cbn.
  - intros H. apply orb_false_iff in H as [Hk Hr].
    rewrite String.eqb_sym, Hk. cbn. auto.
  - rewrite andb_false_r. cbn. auto.
Qed.

Lemma Ret_injective {A} (a b : A) : Ret a = Ret b -> a = b.
Proof. congruence. Qed.

Lemma getAvailableMeetings_value (userId : string) (w : World) :
  getAvailableMeetings userId w
  = (Ret (map candidate
            (filter
               (fun f =>
                  negb (existsb (String.eqb (id (meeting f)))
                          (map att_meetingId
                             (filter (of_user userId) (attendees (db w))))))
               (map (with_relations (db w))
                  (selected (upcoming (clock w)) (Some 20%nat) (db w))))),
     w).
Proof.
  unfold getAvailableMeetings, bind, now, meetingAttendee_findMany, bind,
    get_db, ret.
  now rewrite (findMany_run (upcoming (clock w)) (Some 20%nat) w eq_refl).
Qed.

(** X16. The candidates for a user are at most 20, in ascending order of
    start time, and each is a stored meeting that ends after the current
    time and for which the user has no attendee row, with its number of
    attendee rows as the attendee count.  Fetching them changes nothing. *)
Theorem candidates_are_open_and_not_joined
    (userId : string) (w : World) (available : list Candidate) :
  fst (getAvailableMeetings userId w) = Ret available ->
  snd (getAvailableMeetings userId w) = w
  /\ (List.length available <= 20)%nat
  /\ StronglySorted (fun a b => cand_startTime a <= cand_startTime b) available
  /\ forall c, In c available ->
       exists m,
         In m (meetings (db w))
         /\ c = candidate (with_relations (db w) m)
         /\ clock w < endTime m
         /\ existsb (of_pair (id m) userId) (attendees (db w)) = false
         /\ attendeesCount c = List.length (attendees_of (db w) (id m)).
Proof.
  rewrite getAvailableMeetings_value. unfold fst, snd.
  intros H. apply Ret_injective in H. subst available.
  split; [reflexivity|]. split; [|split].
  - rewrite length_map. etransitivity; [apply length_filter_le|].
    rewrite length_map. apply firstn_le_length.
  - eapply SortFacts.sorted_map with
      (R := fun a b => startTime (meeting a) <= startTime (meeting b)).
    + intros a b H. exact H.
    + apply sorted_filter.
      eapply SortFacts.sorted_map; [|apply selected_sorted]. cbn. auto.
  - intros c Hc. apply in_map_iff in Hc as (f & <- & Hf).
    apply filter_In in Hf as [Hf Hnew].
    apply in_map_iff in Hf as (m & <- & Hm).
    apply selected_matches in Hm as [Hin Hmatch].
    exists m. split; [exact Hin|]. split; [reflexivity|]. split; [|split].
    + apply (matches_not_ended _ (clock w)) in Hmatch; [exact Hmatch|reflexivity].
    + apply negb_true_iff in Hnew. cbn [meeting with_relations] in Hnew.
      now apply not_joined.
    + reflexivity.
Qed.

(** *** The service *)

Lemma getUserProfile_total (userId : string) (w : World) :
  exists p, getUserProfile userId w = (Ret p, w).
Proof.
  unfold getUserProfile, bind, user_findUnique, bind, get_db, ret,
    meetingAttendee_findMany, bind, get_db, ret.
  destruct (find_user (db w) userId); eauto.
Qed.

Lemma popular_in (why : string) (available : list Candidate) (r : Recommendation) :
  In r (popular why available) -> In (rec_meeting r) available.
Proof.
  unfold popular. intros H. apply in_map_iff in H as (c & <- & Hc).
  cbn. apply SortFacts.in_firstn in Hc.
  eapply Permutation_in; [|exact Hc].
  apply Permutation_sym, SortFacts.sort_perm.
Qed.

Lemma map_get_in (available : list Candidate) (key : option json) (c : Candidate) :
  map_get available key = Some c ->
  In c available /\ key = Some (JStr (cand_id c)).
Proof.
  unfold map_get. destruct key as [[| | |k| |]|]; try discriminate.
  intros H. apply find_some in H as [Hin Hk]. apply String.eqb_eq in Hk.
  split; [now apply in_rev | now subst].
Qed.

Lemma rank_in (available : list Candidate) (rankings : json)
    (l : list Recommendation) (w w' : World) :
  rank available rankings w = (Ret l, w') ->
  w' = w
  /\ forall r, In r l ->
       In (rec_meeting r) available
       /\ exists entry, prop "id" entry = Some (JStr (cand_id (rec_meeting r)))
                        /\ score r = prop "score" entry
                        /\ reason r = prop "reason" entry.
Proof.
  unfold rank. destruct rankings as [| | | |rs|]; try discriminate.
  destruct (existsb is_null rs); [discriminate|].
  intros [= <- <-]. split; [reflexivity|]. intros r Hr.
  apply in_flat_map in Hr as (entry & _ & Hr).
  destruct (map_get available (prop "id" entry)) as [c|] eqn:E; [|destruct Hr].
  destruct Hr as [<-|[]]. apply map_get_in in E as [Hin Hk]. cbn. eauto.
Qed.

Lemma map_get_names (available : list Candidate) (entry : json) :
  match map_get available (prop "id" entry) with
  | Some c => names_candidate available entry = true
              /\ prop "id" entry = Some (JStr (cand_id c))
  | None => names_candidate available entry = false
  end.
Proof.
  unfold names_candidate.
  destruct (map_get available (prop "id" entry)) as [c|] eqn:E.
  - destruct (map_get_in _ _ _ E) as [Hin Hk]. split; [|exact Hk].
    rewrite Hk. apply existsb_exists. exists c. split; [exact Hin|].
    apply String.eqb_refl.
  - unfold map_get in E.
    destruct (prop "id" entry) as [[| | |k| |]|]; try reflexivity.
    destruct (existsb _ available) eqn:Hex; [|reflexivity].
    apply existsb_exists in Hex as (c & Hin & Hc).
    apply in_rev in Hin. apply (find_none _ _ E) in Hin. congruence.
Qed.

(** What [rank] keeps of the model's entries: those that name a candidate,
    in the model's order, each with the model's score and reason. *)
Lemma rank_keeps (available : list Candidate) (entries : list json)
    (l : list Recommendation) (w w' : World) :
  rank available (JArr entries) w = (Ret l, w') ->
  map (fun r => (Some (JStr (cand_id (rec_meeting r))), score r, reason r)) l
  = map (fun e => (prop "id" e, prop "score" e, prop "reason" e))
      (filter (names_candidate available) entries).
Proof.
  unfold rank. destruct (existsb is_null entries); [discriminate|].
  intros [= <- _]. clear w.
  induction entries as [|e rest IH]; [reflexivity|].
  cbn [flat_map filter]. rewrite map_app, IH.
  pose proof (map_get_names available e) as H.
  destruct (map_get available (prop "id" e)) as [c|].
  - destruct H as [-> Hk]. cbn. now rewrite Hk.
  - rewrite H. reflexivity.
Qed.

Section Service.
Variable P : Platform.

(** Every way the service can end. *)
Lemma getRecommendations_cases
    (userId : string) (w : World) (available : list Candidate) :
  getAvailableMeetings userId w = (Ret available, w) ->
  exists l w',
    getRecommendations P userId w = (Ret l, w')
    /\ db w' = db w /\ clock w' = clock w /\ inserted w' = inserted w
    /\ gcalls w' = gcalls w
    /\ (l = []
        \/ (exists why, l = popular why available)
        \/ (exists rankings w0, rank available rankings w0 = (Ret l, w0))).
Proof.
  intros Havail. unfold getRecommendations.
  destruct (truthy (env P "GEMINI_API_KEY")); cbn [negb].
  2: { eexists. eexists. split; [reflexivity|]. cbn. auto 10. }
  destruct (getUserProfile_total userId w) as ([profile|] & Hp);
    unfold bind at 1; rewrite Hp.
  2: { eexists. eexists. split; [reflexivity|]. auto 10. }
  unfold bind at 1. rewrite Havail.
  destruct (Nat.eqb (List.length available) 0).
  { eexists. eexists. split; [reflexivity|]. auto 10. }
  destruct (Nat.eqb (totalMeetingsJoined profile) 0).
  { eexists. eexists. split; [reflexivity|]. eauto 10. }
  unfold try_catch, bind at 1, generateContent.
  destruct (gemini P profile available) as [e|text].
  { eexists. eexists. split; [reflexivity|]. cbn. eauto 10. }
  unfold ret at 1. destruct (match_array text) as [j|].
  2: { eexists. eexists. split; [reflexivity|]. cbn. auto 10. }
  unfold bind at 1, parse. destruct (JSON_parse P j) as [rankings|].
  2: { eexists. eexists. split; [reflexivity|]. cbn. eauto 10. }
  unfold ret at 1.
  destruct (rank available rankings w) as [[l|e] w1] eqn:Hrank.
  - destruct (rank_in _ _ _ _ _ Hrank) as [-> _].
    eexists. eexists. split; [reflexivity|]. eauto 12.
  - assert (w1 = w) as ->.
    { unfold rank in Hrank. destruct rankings; try (now injection Hrank).
      destruct (existsb is_null items); now injection Hrank. }
    eexists. eexists. split; [reflexivity|]. cbn. eauto 10.
Qed.

(** X14. The recommendation service always returns a list: it never throws,
    whatever the ranking model answers, and it writes nothing but console
    lines (the database, the clock, the id generator and the calendar log
    are as before).  So [GET /api/recommendations] answers 401 without a
    user and 200 with that list for a user; its 500 branch is never taken. *)
Theorem recommendations_always_answer (userId : string) (w : World) :
  (exists l w',
     getRecommendations P userId w = (Ret l, w')
     /\ db w' = db w /\ clock w' = clock w /\ inserted w' = inserted w
     /\ gcalls w' = gcalls w)
  /\ recommendations P None w
     = (Ret (mkRecResponse 401 (RecFailure "Not authenticated")), w)
  /\ forall u, ru_id u = userId ->
       exists l w',
         recommendations P (Some u) w = (Ret (mkRecResponse 200 (Ranked l)), w')
         /\ fst (getRecommendations P userId w) = Ret l.
Proof.
  destruct (getRecommendations_cases userId w _ (getAvailableMeetings_value _ _))
    as (l & w' & Hrun & Hdb & Hc & Hi & Hg & _).
  split; [eauto 10|]. split; [reflexivity|].
  intros u <-. exists l, w'. unfold recommendations, try_catch, bind.
  rewrite Hrun. split; reflexivity.
Qed.

(** X15. Every recommendation is for a candidate: whatever the ranking model
    answers, each returned entry carries one of the user's candidate
    meetings.  When the model is asked and answers with a JSON array that
    holds no [null], the entries whose [id] is not the id of a candidate are
    dropped and the others are all returned, in the model's order, each with
    the candidate of that id and the model's score and reason. *)
Theorem recommendations_are_candidates
    (userId : string) (w : World) (l : list Recommendation)
    (available : list Candidate) :
  fst (getRecommendations P userId w) = Ret l ->
  fst (getAvailableMeetings userId w) = Ret available ->
  (forall r, In r l -> In (rec_meeting r) available)
  /\ (forall profile text j entries,
        truthy (env P "GEMINI_API_KEY") = true ->
        fst (getUserProfile userId w) = Ret (Some profile) ->
        totalMeetingsJoined profile <> 0%nat ->
        gemini P profile available = inr text ->
        match_array text = Some j ->
        JSON_parse P j = Some (JArr entries) ->
        existsb is_null entries = false ->
        map (fun r => (Some (JStr (cand_id (rec_meeting r))), score r, reason r)) l
        = map (fun e => (prop "id" e, prop "score" e, prop "reason" e))
            (filter (names_candidate available) entries)).
Proof.
  rewrite getAvailableMeetings_value. unfold fst at 2.
  intros Hl Ha. apply Ret_injective in Ha. split.
  - destruct (getRecommendations_cases userId w _ (getAvailableMeetings_value _ _))
      as (l' & w' & Hrun & _ & _ & _ & _ & Hcases).
    rewrite Hrun in Hl. unfold fst in Hl. apply Ret_injective in Hl. subst l'.
    rewrite Ha in Hcases.
    intros r Hr. destruct Hcases as [->|[(why & ->)|(rankings & w0 & Hrank)]].
    + destruct Hr.
    + now apply popular_in in Hr.
    + apply rank_in in Hrank as [_ H]. now apply H.
  - intros profile text j entries Hkey Hp Hhist Htext Hj Hparse Hnull.
    destruct (getUserProfile_total userId w) as (p & Hp').
    rewrite Hp' in Hp. unfold fst in Hp. apply Ret_injective in Hp. subst p.
    pose proof (getAvailableMeetings_value userId w) as Hav. rewrite Ha in Hav.
    destruct available as [|c rest].
    { unfold getRecommendations in Hl. rewrite Hkey in Hl. cbn [negb] in Hl.
      unfold bind at 1 in Hl. rewrite Hp' in Hl. unfold bind at 1 in Hl.
      rewrite Hav in Hl. cbn in Hl. apply Ret_injective in Hl. subst l.
      clear. induction entries as [|e r IH]; [reflexivity|].
      cbn [filter]. unfold names_candidate at 1.
      destruct (prop "id" e) as [[| | |k| |]|]; exact IH. }
    rewrite (getRecommendations_ranked P userId w profile (c :: rest)
               Hkey Hp' Hhist Hav) in Hl by discriminate.
    unfold try_catch, bind at 1, generateContent in Hl. rewrite Htext in Hl.
    unfold ret at 1 in Hl. rewrite Hj in Hl.
    unfold bind at 1, parse in Hl. rewrite Hparse in Hl. unfold ret at 1 in Hl.
    destruct (rank (c :: rest) (JArr entries) w) as [[l'|e] w1] eqn:Hrank.
    + cbn in Hl. apply Ret_injective in Hl. subst l'.
      exact (rank_keeps _ _ _ _ _ Hrank).
    + unfold rank in Hrank. rewrite Hnull in Hrank. discriminate.
Qed.


End Service.

(** Bob has a history and one candidate, the algebra session.  The ranking
    model names a session "zz" that is not stored and then the algebra
    session: the first is dropped, the second is returned as ranked. *)
Lemma recommendations_are_candidates_witness :
  let P := Sample.answering "Here you are: [...]" (Some Mirror.ranked) in
  let w := Sample.at_time 0 Sample.campus in
  let algebra := candidate (with_relations Sample.campus Sample.algebra) in
  let r := mkRec algebra (Some (JNum 90)) (Some (JStr "Math again")) in
  let entries :=
    [JObj [("id", JStr "zz"); ("score", JNum 95); ("reason", JStr "New")];
     JObj [("id", JStr "m1"); ("score", JNum 90); ("reason", JStr "Math again")]] in
  fst (getRecommendations P "bob" w) = Ret [r]
  /\ In (rec_meeting r) [algebra]
  /\ map (fun r => (Some (JStr (cand_id (rec_meeting r))), score r, reason r)) [r]
     = map (fun e => (prop "id" e, prop "score" e, prop "reason" e))
         (filter (names_candidate [algebra]) entries).
Proof.
  intros P w algebra r entries. split; [reflexivity|].
  destruct (recommendations_are_candidates P "bob" w [r] [algebra]
              eq_refl eq_refl) as [Hall Hkept].
  split; [apply Hall; now left|].
  refine (Hkept _ "Here you are: [...]" "[...]" entries
            eq_refl eq_refl _ eq_refl eq_refl eq_refl eq_refl).
  discriminate.
Defined.

(** At midnight before the sessions, Bob's candidates are the algebra
    session alone: he attends the physics session. *)
Lemma candidates_are_open_and_not_joined_witness :
  let w := Sample.at_time 0 Sample.campus in
  let available := [candidate (with_relations Sample.campus Sample.algebra)] in
  (List.length available <= 20)%nat
  /\ forall c, In c available ->
       exists m,
         In m (meetings (db w))
         /\ c = candidate (with_relations (db w) m)
         /\ clock w < endTime m
         /\ existsb (of_pair (id m) "bob") (attendees (db w)) = false
         /\ attendeesCount c = List.length (attendees_of (db w) (id m)).
Proof.
  intros w available.
  destruct (candidates_are_open_and_not_joined "bob" w available eq_refl)
    as (_ & Hlen & _ & Hall).
  split; assumption.
Defined.


End ScorerFacts.

(** ** What every route keeps *)

Module InvariantFacts.

Import StoreFacts AuthFacts AsyncFacts CreateFacts TimeOrderFacts.

(** *** Combinators *)

Lemma preserves_keeps (I : DB -> Prop) {A} (m : M A) :
  keeps_store m -> preserves I m.
Proof. intros H w Hi. destruct (H w) as (-> & _). exact Hi. Qed.

Lemma preserves_bind (I : DB -> Prop) {A B} (m : M A) (k : A -> M B) :
  preserves I m -> (forall a, preserves I (k a)) -> preserves I (bind m k).
Proof.
  intros Hm Hk w Hi. unfold bind. specialize (Hm w Hi).
  destruct (m w) as [[a|e] w1]; cbn [snd] in *; [now apply Hk | exact Hm].
Qed.

Lemma preserves_try_catch (I : DB -> Prop) {A} (m : M A) (h : exn -> M A) :
  preserves I m -> (forall e, preserves I (h e)) -> preserves I (try_catch m h).
Proof.
  intros Hm Hh w Hi. unfold try_catch. specialize (Hm w Hi).
  destruct (m w) as [[a|e] w1]; cbn [snd] in *; [exact Hm | now apply Hh].
Qed.

Lemma preserves_ret (I : DB -> Prop) {A} (a : A) : preserves I (ret a).
Proof. intros w Hi. exact Hi. Qed.

Lemma preserves_throw (I : DB -> Prop) {A} (e : exn) : preserves I (@throw A e).
Proof. intros w Hi. exact Hi. Qed.

Lemma preserves_log (I : DB -> Prop) (line : string) : preserves I (log line).
Proof. intros w Hi. exact Hi. Qed.

Lemma preserves_get_db (I : DB -> Prop) : preserves I get_db.
Proof. intros w Hi. exact Hi. Qed.

Lemma preserves_now (I : DB -> Prop) : preserves I now.
Proof. intros w Hi. exact Hi. Qed.

(** A transaction keeps what each of its statements keeps: when it rolls
    back, the database is the one it started from. *)
Lemma preserves_transaction (I : DB -> Prop) (ops : list (M unit)) :
  Forall (preserves I) ops -> preserves I (transaction ops).
Proof.
  intros Hops w Hi. unfold transaction, bind at 1, get_db, try_catch.
  assert (preserves I (run_all ops)) as Hall.
  { induction Hops as [|op rest Hop _ IH]; cbn [run_all].
    - apply preserves_ret.
    - apply preserves_bind; auto. }
  specialize (Hall w Hi).
  destruct (run_all ops w) as [[[]|e] w1]; cbn [snd] in *; [exact Hall|].
  exact Hi.
Qed.

(** *** Reading *)

Lemma preserves_reads (I : DB -> Prop) :
  (forall k, preserves I (meeting_findUnique k))
  /\ (forall k, preserves I (meeting_findUnique_full k))
  /\ (forall q n, preserves I (meeting_findMany q n))
  /\ (forall req, preserves I (the_user req)).
Proof.
  repeat split; intros; intros w Hi.
  - exact Hi.
  - exact Hi.
  - unfold meeting_findMany. destruct (mode_ok q); [|exact Hi].
    now destruct (_ && _).
  - unfold the_user. now destruct (user req).
Qed.

(** *** The constraints of the schema *)

Lemma NoDup_map_filter {A B} (f : A -> B) (g : A -> bool) (l : list A) :
  NoDup (map f l) -> NoDup (map f (filter g l)).
Proof.
  induction l as [|x r IH]; cbn; [auto|].
  intros H. inversion H as [|? ? Hx Hr]; subst.
  destruct (g x); cbn; [|auto]. constructor; [|auto].
  intros Hin. apply Hx. apply in_map_iff in Hin as (y & Hy & Hin).
  apply filter_In in Hin as [Hin _]. apply in_map_iff. eauto.
Qed.

Lemma NoDup_snoc {A} (l : list A) (x : A) :
  NoDup l -> ~ In x l -> NoDup (l ++ [x]).
Proof.
  intros Hl Hx. apply (Permutation_NoDup (Permutation_cons_append l x)).
  now constructor.
Qed.

Lemma has_meeting_in (d : DB) (k : string) :
  has_meeting d k = true <-> In k (map id (meetings d)).
Proof.
  unfold has_meeting. rewrite existsb_exists, in_map_iff. unfold is_id.
  split; intros (m & H1 & H2).
  - apply String.eqb_eq in H2. eauto.
  - exists m. split; [exact H2|]. now apply String.eqb_eq.
Qed.

Lemma has_meeting_ids (d d' : DB) :
  map id (meetings d') = map id (meetings d) ->
  forall k, has_meeting d' k = has_meeting d k.
Proof.
  intros H k. apply eq_true_iff_eq. rewrite !has_meeting_in. now rewrite H.
Qed.

Lemma replaced_ids (k : string) (m' : Meeting) (d : DB) :
  id m' = k -> map id (meetings (replaced k m' d)) = map id (meetings d).
Proof.
  intros Hk. unfold replaced. cbn [meetings]. rewrite map_map.
  apply map_ext_in. intros x _. unfold is_id.
  destruct (String.eqb_spec (id x) k); congruence.
Qed.

Lemma consistent_create (P : Platform) (c : MeetingCreate) :
  preserves consistent (meeting_create P c).
Proof.
  intros w Hi. unfold meeting_create.
  destruct (c_startTime c) as [s|]; [|exact Hi].
  destruct (c_endTime c) as [e|]; [|exact Hi].
  unfold bind, fresh_id, now, get_db, put_db, ret, throw. cbn.
  destruct (has_meeting (db w) (gen_id P (inserted w))) eqn:Hk; [exact Hi|].
  destruct (has_user (db w) (c_createdById c)) eqn:Hu; [|exact Hi].
  cbn. destruct Hi as [Hmk Hak Hap Har Hmr]. constructor; cbn.
  - rewrite map_app. cbn. apply NoDup_snoc; [exact Hmk|].
    intros Hin. apply has_meeting_in in Hin. congruence.
  - exact Hak.
  - exact Hap.
  - intros a Ha. destruct (Har a Ha) as [H1 H2]. split; [|exact H2].
    unfold has_meeting in H1. apply existsb_exists in H1 as (m & Hm & Hid).
    apply existsb_exists. exists m. split; [|exact Hid].
    apply in_or_app. now left.
  - intros m Hm. apply in_app_or in Hm as [Hm|[<-|[]]]; [now apply Hmr | exact Hu].
Qed.

Lemma consistent_update (k : string) (u : MeetingUpdate) :
  preserves consistent (meeting_update k u).
Proof.
  intros w Hi. unfold meeting_update.
  destruct (date_ok (u_startTime u) && date_ok (u_endTime u)); [|exact Hi].
  unfold bind, now, get_db, put_db, ret, throw.
  destruct (find_meeting (db w) k) as [m|] eqn:Hm; [|exact Hi].
  cbn [snd db set_db].
  pose proof (find_meeting_id _ _ _ Hm) as [Hid Hin].
  set (m' := apply_update (clock w) u m).
  assert (map id (meetings (replaced k m' (db w))) = map id (meetings (db w)))
    as Hids by (apply replaced_ids; exact Hid).
  destruct Hi as [Hmk Hak Hap Har Hmr]. constructor.
  - now rewrite Hids.
  - exact Hak.
  - exact Hap.
  - intros a Ha. rewrite (has_meeting_ids _ _ Hids). now apply Har.
  - intros x Hx. cbn in Hx. apply in_map_iff in Hx as (y & Hy & Hiny).
    unfold has_user. cbn [users replaced].
    destruct (is_id k y); subst x; [apply (Hmr m Hin) | now apply Hmr].
Qed.

Lemma consistent_enroll (P : Platform) (mid uid status : string) :
  preserves consistent (meetingAttendee_create P mid uid status).
Proof.
  intros w Hi. unfold meetingAttendee_create.
  unfold bind, fresh_id, now, get_db, put_db, ret, throw. cbn.
  destruct (existsb _ (attendees (db w))) eqn:Hk; [exact Hi|].
  destruct (existsb (of_pair mid uid) (attendees (db w))) eqn:Hp; [exact Hi|].
  destruct (has_meeting (db w) mid) eqn:Hm; [|exact Hi].
  destruct (has_user (db w) uid) eqn:Hu; [|exact Hi].
  cbn. destruct Hi as [Hmk Hak Hap Har Hmr]. constructor; cbn.
  - exact Hmk.
  - rewrite map_app. cbn. apply NoDup_snoc; [exact Hak|].
    intros Hin. apply in_map_iff in Hin as (a & Ha & Hin).
    assert (existsb (fun a => String.eqb (att_id a) (gen_id P (inserted w)))
              (attendees (db w)) = true).
    { apply existsb_exists. exists a. split; [exact Hin|]. now apply String.eqb_eq. }
    congruence.
  - rewrite map_app. cbn. apply NoDup_snoc; [exact Hap|].
    intros Hin. apply in_map_iff in Hin as (a & Ha & Hin).
    injection Ha as H1 H2.
    assert (existsb (of_pair mid uid) (attendees (db w)) = true).
    { apply existsb_exists. exists a. split; [exact Hin|].
      unfold of_pair, of_meeting, of_user. rewrite H1, H2.
      now rewrite !String.eqb_refl. }
    congruence.
  - intros a Ha. apply in_app_or in Ha as [Ha|[<-|[]]]; [now apply Har|].
    cbn. auto.
  - exact Hmr.
Qed.

Lemma consistent_deleteMany (sel : Attendee -> bool) :
  preserves consistent (meetingAttendee_deleteMany sel).
Proof.
  intros w Hi. unfold meetingAttendee_deleteMany, bind, get_db, put_db. cbn.
  destruct Hi as [Hmk Hak Hap Har Hmr]. constructor; cbn.
  - exact Hmk.
  - now apply NoDup_map_filter.
  - now apply NoDup_map_filter.
  - intros a Ha. apply filter_In in Ha as [Ha _]. now apply Har.
  - exact Hmr.
Qed.

Lemma consistent_delete (k : string) : preserves consistent (meeting_delete k).
Proof.
  intros w Hi. unfold meeting_delete, bind, get_db, put_db, throw.
  destruct (find_meeting (db w) k); [|exact Hi]. cbn.
  destruct Hi as [Hmk Hak Hap Har Hmr]. constructor; cbn.
  - now apply NoDup_map_filter.
  - now apply NoDup_map_filter.
  - now apply NoDup_map_filter.
  - intros a Ha. apply filter_In in Ha as [Ha Hne].
    destruct (Har a Ha) as [H1 H2]. split; [|exact H2].
    unfold has_meeting in *. cbn. apply existsb_exists in H1 as (x & Hm & Hid).
    apply existsb_exists. exists x. split; [|exact Hid].
    apply filter_In. split; [exact Hm|].
    unfold of_meeting in Hne. unfold is_id in *. apply String.eqb_eq in Hid.
    rewrite Hid. exact Hne.
  - intros x Hx. apply filter_In in Hx as [Hx _]. now apply Hmr.
Qed.

Lemma ordered_create (P : Platform) (c : MeetingCreate) :
  (forall ts te, c_startTime c = Some ts -> c_endTime c = Some te -> ts < te) ->
  preserves ordered (meeting_create P c).
Proof.
  intros Hlt w Hi. unfold meeting_create.
  destruct (c_startTime c) as [s|]; [|exact Hi].
  destruct (c_endTime c) as [e|]; [|exact Hi].
  unfold bind, fresh_id, now, get_db, put_db, ret, throw. cbn.
  destruct (has_meeting (db w) (gen_id P (inserted w))); [exact Hi|].
  destruct (has_user (db w) (c_createdById c)); [|exact Hi].
  cbn. intros m Hm. apply in_app_or in Hm as [Hm|[<-|[]]]; [now apply Hi|].
  cbn. now apply Hlt.
Qed.

Lemma ordered_update (k : string) (u : MeetingUpdate) :
  u_startTime u = None -> u_endTime u = None ->
  preserves ordered (meeting_update k u).
Proof.
  intros Hs He w Hi. unfold meeting_update.
  destruct (date_ok (u_startTime u) && date_ok (u_endTime u)); [|exact Hi].
  unfold bind, now, get_db, put_db, ret, throw.
  destruct (find_meeting (db w) k) as [m|] eqn:Hm; [|exact Hi].
  cbn [snd db set_db].
  pose proof (find_meeting_id _ _ _ Hm) as [Hid Hin].
  intros x Hx. cbn in Hx. apply in_map_iff in Hx as (y & Hy & Hiny).
  destruct (is_id k y); [|subst x; now apply Hi].
  subst x. cbn. rewrite Hs, He. cbn. now apply Hi.
Qed.

Lemma ordered_enroll (P : Platform) (mid uid status : string) :
  preserves ordered (meetingAttendee_create P mid uid status).
Proof.
  intros w Hi. unfold meetingAttendee_create.
  unfold bind, fresh_id, now, get_db, put_db, ret, throw. cbn.
  repeat match goal with
         | |- context [if ?c then _ else _] => destruct c
         end; exact Hi.
Qed.

Lemma ordered_deleteMany (sel : Attendee -> bool) :
  preserves ordered (meetingAttendee_deleteMany sel).
Proof. intros w Hi. exact Hi. Qed.

Lemma ordered_delete (k : string) : preserves ordered (meeting_delete k).
Proof.
  intros w Hi. unfold meeting_delete, bind, get_db, put_db, throw.
  destruct (find_meeting (db w) k); [|exact Hi]. cbn.
  intros x Hx. apply filter_In in Hx as [Hx _]. now apply Hi.
Qed.

(** *** The routes that write *)

Section Writers.
Variable P : Platform.
Variable I : DB -> Prop.

Hypothesis insert_ok :
  forall c,
    (forall ts te, c_startTime c = Some ts -> c_endTime c = Some te -> ts < te) ->
    preserves I (meeting_create P c).
Hypothesis mark_ok :
  forall k g,
    preserves I (meeting_update k
                   (mkUpdate None None None None None None None None None
                      (Some (Some g)))).
Hypothesis enroll_ok :
  forall mid uid status, preserves I (meetingAttendee_create P mid uid status).
Hypothesis unenroll_ok :
  forall sel, preserves I (meetingAttendee_deleteMany sel).
Hypothesis remove_ok : forall k, preserves I (meeting_delete k).

Let reads := preserves_reads I.

Lemma create_preserves (req : Request) : preserves I (create P req).
Proof.
  destruct reads as (_ & Hfull & _ & Huser).
  unfold create. destruct (requireAuth P req) as [req'|r]; [|apply preserves_ret].
  unfold validate.
  destruct (CreateMeetingSchema P (body req')) as [b|] eqn:Hb; [|apply preserves_ret].
  destruct (create_refine_dates P b (create_schema_refine P _ _ Hb))
    as (ts & te & Hs & He & Hlt).
  unfold create_handler.
  apply preserves_bind; [apply Huser | intros u].
  apply preserves_bind; [|intros m].
  { apply insert_ok. cbn [c_startTime c_endTime]. rewrite Hs, He.
    intros ? ? [= <-] [= <-]. exact Hlt. }
  apply preserves_bind; [apply enroll_ok | intros _].
  apply preserves_bind; [|intros _].
  - apply preserves_try_catch; [|intros e; apply preserves_log].
    apply preserves_bind; [apply preserves_keeps, keeps_create_event|].
    intros [g|]; [|apply preserves_ret].
    apply preserves_bind; [apply mark_ok | intros _; apply preserves_ret].
  - apply preserves_bind; [apply Hfull | intros full; apply preserves_ret].
Qed.

Lemma join_preserves (req : Request) : preserves I (join P req).
Proof.
  destruct reads as (Hone & _ & _ & Huser).
  unfold join. destruct (requireAuth P req) as [req'|r]; [|apply preserves_ret].
  unfold join_handler.
  apply preserves_bind; [apply Hone|]. intros [m|]; [|apply preserves_ret].
  apply preserves_bind; [apply preserves_now | intros t].
  destruct (endTime m <=? t); [apply preserves_ret|].
  apply preserves_try_catch.
  - apply preserves_bind; [apply Huser | intros u].
    apply preserves_bind; [apply enroll_ok | intros a; apply preserves_ret].
  - intros e. destruct (code_is_str _ _); apply preserves_ret.
Qed.

Lemma leave_preserves (req : Request) : preserves I (leave P req).
Proof.
  destruct reads as (_ & _ & _ & Huser).
  unfold leave. destruct (requireAuth P req) as [req'|r]; [|apply preserves_ret].
  unfold leave_handler.
  apply preserves_bind; [apply Huser | intros u].
  apply preserves_bind; [apply unenroll_ok | intros _; apply preserves_ret].
Qed.

Lemma delete_preserves (req : Request) : preserves I (delete P req).
Proof.
  destruct reads as (_ & Hfull & _ & _).
  unfold delete. destruct (requireAuth P req) as [req'|r]; [|apply preserves_ret].
  unfold delete_handler.
  apply preserves_bind; [apply Hfull|]. intros [f|]; [|apply preserves_ret].
  destruct (negb _ && negb _); [apply preserves_ret|].
  apply preserves_bind; [|intros _].
  - unfold cleanup. apply preserves_try_catch; [|intros e; apply preserves_log].
    apply preserves_keeps, keeps_delete_with_fallback.
  - apply preserves_bind; [|intros _; apply preserves_ret].
    unfold delete_locally. apply preserves_transaction.
    repeat constructor; [apply unenroll_ok | apply remove_ok].
Qed.
End Writers.

Lemma patch_keeps_constraints (P : Platform) (req : Request) :
  preserves consistent (patch P req).
Proof.
  destruct (preserves_reads consistent) as (_ & Hfull & _ & _).
  unfold patch. destruct (requireAuth P req) as [req'|r]; [|apply preserves_ret].
  unfold validate.
  destruct (PatchMeetingSchema P (body req')) as [b|]; [|apply preserves_ret].
  unfold patch_handler.
  apply preserves_bind; [apply Hfull|]. intros [f|]; [|apply preserves_ret].
  destruct (negb _ && negb _); [apply preserves_ret|].
  apply preserves_bind; [apply consistent_update | intros updated].
  apply preserves_bind; [apply preserves_get_db | intros d].
  apply preserves_bind; [|intros _; apply preserves_ret].
  destruct (when_truthy (googleEventId (meeting f))) as [g|]; [|apply preserves_ret].
  destruct (when_truthy (creator_token f)) as [token|]; [|apply preserves_ret].
  apply preserves_try_catch; [|intros e; apply preserves_log].
  apply preserves_keeps, keeps_update_event.
Qed.

Lemma campus_is_consistent : consistent Sample.campus.
Proof.
  constructor; cbn.
  - repeat constructor; cbn; intuition discriminate.
  - repeat constructor; cbn; intuition discriminate.
  - repeat constructor; cbn; intuition discriminate.
  - intros a [<-|[<-|[<-|[]]]]; split; reflexivity.
  - intros m [<-|[<-|[]]]; reflexivity.
Qed.

Lemma campus_is_ordered : ordered Sample.campus.
Proof.
  intros m [<-|[<-|[]]]; cbn; unfold Sample.t17, Sample.t18, Sample.t19; lia.
Qed.

(** X20.  The five routes that write keep the constraints of
    [migration.sql]: primary keys and the unique index on (meetingId,
    userId) stay free of duplicates, and every attendee row and every
    meeting keeps pointing at rows that exist.  This holds for every request,
    whether the route answers, refuses or throws. *)
Theorem writing_routes_keep_the_schema_constraints
    (P : Platform) (req : Request) (w : World) :
  consistent (db w) ->
  consistent (db (snd (create P req w)))
  /\ consistent (db (snd (patch P req w)))
  /\ consistent (db (snd (join P req w)))
  /\ consistent (db (snd (leave P req w)))
  /\ consistent (db (snd (delete P req w))).
Proof.
  intros Hi.
  split; [|split; [|split; [|split]]].
  - apply (create_preserves P consistent); auto using consistent_update,
      consistent_enroll. intros c _. apply consistent_create.
  - now apply patch_keeps_constraints.
  - apply (join_preserves P consistent); auto using consistent_enroll.
  - apply (leave_preserves P consistent); auto using consistent_deleteMany.
  - apply (delete_preserves P consistent);
      auto using consistent_deleteMany, consistent_delete.
Qed.

(** Alice creates a revision session on the sample campus. *)
Lemma writing_routes_keep_the_schema_constraints_witness :
  let P := Sample.offline None None in
  let req := Sample.request (Some (Sample.as_user Sample.alice)) "m2"
               Sample.revision in
  let w := Sample.at_time Sample.t17 Sample.campus in
  consistent (db (snd (create P req w)))
  /\ consistent (db (snd (patch P req w)))
  /\ consistent (db (snd (join P req w)))
  /\ consistent (db (snd (leave P req w)))
  /\ consistent (db (snd (delete P req w))).
Proof.
  intros P req w.
  apply (writing_routes_keep_the_schema_constraints P req w).
  exact campus_is_consistent.
Defined.

(** X21.  Every writing route other than PATCH keeps each meeting's start
    before its end: CREATE inserts only what the schema's refinement let
    through, its calendar bookkeeping writes [googleEventId] alone, and the
    others do not write dates. *)
Theorem routes_other_than_patch_keep_the_time_order
    (P : Platform) (req : Request) (w : World) :
  ordered (db w) ->
  ordered (db (snd (create P req w)))
  /\ ordered (db (snd (join P req w)))
  /\ ordered (db (snd (leave P req w)))
  /\ ordered (db (snd (delete P req w))).
Proof.
  intros Hi.
  split; [|split; [|split]].
  - apply (create_preserves P ordered); auto using ordered_create, ordered_enroll.
    intros k g. now apply ordered_update.
  - apply (join_preserves P ordered); auto using ordered_enroll.
  - apply (leave_preserves P ordered); auto using ordered_deleteMany.
  - apply (delete_preserves P ordered);
      auto using ordered_deleteMany, ordered_delete.
Qed.

(** Alice creates a revision session on the sample campus. *)
Lemma routes_other_than_patch_keep_the_time_order_witness :
  let P := Sample.offline None None in
  let req := Sample.request (Some (Sample.as_user Sample.alice)) "m2"
               Sample.revision in
  let w := Sample.at_time Sample.t17 Sample.campus in
  ordered (db (snd (create P req w)))
  /\ ordered (db (snd (join P req w)))
  /\ ordered (db (snd (leave P req w)))
  /\ ordered (db (snd (delete P req w))).
Proof.
  intros P req w.
  apply (routes_other_than_patch_keep_the_time_order P req w).
  exact campus_is_ordered.
Defined.

End InvariantFacts.

(** ** Callers without a "User" row *)

Module CallerFacts.

Import StoreFacts AuthFacts AsyncFacts JoinFacts CreateFacts.

Lemma unknown_user_has_no_row (d : DB) (mid uid : string) :
  consistent d -> has_user d uid = false ->
  existsb (of_pair mid uid) (attendees d) = false.
Proof.
  intros Hi Hu.
  destruct (existsb (of_pair mid uid) (attendees d)) eqn:E; [|reflexivity].
  apply existsb_exists in E as (a & Hin & Hp).
  unfold of_pair, of_user in Hp. apply andb_true_iff in Hp as [_ Hp].
  apply String.eqb_eq in Hp.
  destruct (attendee_refs d Hi a Hin) as [_ H]. congruence.
Qed.

Section Caller.
Variable P : Platform.

(** X24. JOIN by a caller whose id has no "User" row is answered 400
    "Join failed" and stores nothing: the foreign key of the attendee row
    refuses the insert.  The synthetic administrator that [requireAuth]
    makes of the bearer of ADMIN_TOKEN is such a caller unless a user with
    the id "admin" has been stored. *)
Theorem join_fails_for_a_caller_without_a_user_row
    (req req' : Request) (u : ReqUser) (w : World) (m : Meeting) :
  requireAuth P req = Next req' ->
  user req' = Some u ->
  consistent (db w) ->
  has_user (db w) (ru_id u) = false ->
  find_meeting (db w) (param_id req) = Some m ->
  clock w < endTime m ->
  existsb (fun a => String.eqb (att_id a) (gen_id P (inserted w)))
    (attendees (db w)) = false ->
  exists w',
    join P req w = (Ret (mkResponse 400 (Failure "Join failed")), w')
    /\ db w' = db w /\ gcalls w' = gcalls w.
Proof.
  intros Hauth Hu Hi Hrow Hm Hopen Hfresh.
  destruct (requireAuth_next P req req' Hauth) as (_ & Hid & _ & _).
  rewrite <- Hid in Hm.
  pose proof (unknown_user_has_no_row (db w) (param_id req') (ru_id u) Hi Hrow)
    as Hpair.
  unfold join. rewrite Hauth. rewrite (join_handler_open P req' w m Hm Hopen).
  unfold try_catch, bind at 1, the_user. rewrite Hu. unfold ret at 1.
  unfold bind at 1, meetingAttendee_create, bind, fresh_id, now, get_db, throw.
  cbn. rewrite Hfresh, Hpair, Hrow, andb_false_r. cbn.
  eexists. repeat split.
Qed.

(** X25. CREATE by such a caller answers nothing: the insert of the meeting
    is refused by the foreign key of [createdById], the rejection is not
    caught, no row is stored and the calendar is not called. *)
Theorem create_throws_for_a_caller_without_a_user_row
    (req req' : Request) (u : ReqUser) (b : CreateBody) (w : World) :
  requireAuth P req = Next req' ->
  user req' = Some u ->
  CreateMeetingSchema P (body req) = Some b ->
  has_user (db w) (ru_id u) = false ->
  has_meeting (db w) (gen_id P (inserted w)) = false ->
  exists w',
    create P req w = (Throw (known "P2003"), w')
    /\ db w' = db w /\ gcalls w' = gcalls w.
Proof.
  intros Hauth Hu Hb Hrow Hfresh.
  destruct (requireAuth_next P req req' Hauth) as (_ & _ & Hbody & _).
  destruct (create_refine_dates P b (create_schema_refine P _ _ Hb))
    as (ts & te & Hs & He & _).
  unfold create, validate. rewrite Hauth, Hbody, Hb.
  unfold create_handler, bind at 1, the_user. rewrite Hu. unfold ret at 1.
  unfold bind at 1, meeting_create. cbn [c_startTime c_endTime c_createdById].
  rewrite Hs, He.
  unfold bind, fresh_id, now, get_db, throw. cbn. rewrite Hfresh, Hrow. cbn.
  eexists. repeat split.
Qed.
End Caller.

(** The bearer of ADMIN_TOKEN=s3cret joins Alice's algebra session. *)
Lemma join_fails_for_a_caller_without_a_user_row_witness :
  let P := Sample.offline (Some "s3cret") None in
  let req := mkRequest (Some "Bearer s3cret") None "m1" Sample.no_query JNull in
  let w := Sample.at_time Sample.t17 Sample.campus in
  exists w',
    join P req w = (Ret (mkResponse 400 (Failure "Join failed")), w')
    /\ db w' = db w /\ gcalls w' = gcalls w.
Proof.
  intros P req w.
  apply (join_fails_for_a_caller_without_a_user_row P req (set_user admin req)
           admin w Sample.algebra);
    try reflexivity.
  exact InvariantFacts.campus_is_consistent.
Defined.

(** The bearer of ADMIN_TOKEN=s3cret sends the sample CREATE payload. *)
Lemma create_throws_for_a_caller_without_a_user_row_witness :
  let P := Sample.offline (Some "s3cret") None in
  let req := mkRequest (Some "Bearer s3cret") None "" Sample.no_query
               Sample.revision in
  let w := Sample.at_time Sample.t17 Sample.campus in
  exists w',
    create P req w = (Throw (known "P2003"), w')
    /\ db w' = db w /\ gcalls w' = gcalls w.
Proof.
  intros P req w.
  apply (create_throws_for_a_caller_without_a_user_row P req
           (set_user admin req) admin
           (mkCreateBody "Revision" None (Some (Some "Math")) None None
              "2025-09-24T18:00:00.000Z" "2025-09-24T19:00:00.000Z" None None) w);
    reflexivity.
Defined.

End CallerFacts.

(** ** Payloads *)

Module PayloadFacts.

Import AuthFacts CreateFacts TimeOrderFacts.

Lemma string_min1_inv (v : option json) (s : string) :
  string_min1 v = Some s -> v = Some (JStr s) /\ s <> "".
Proof.
  unfold string_min1. destruct v as [[]|]; try discriminate.
  match goal with |- context [Nat.leb 1 (String.length ?x)] => destruct x end;
    cbn; [discriminate|].
  intros [= <-]. split; [reflexivity | discriminate].
Qed.

Lemma iso_inv (P : Platform) (v : option json) (s : string) :
  iso P v = Some s -> v = Some (JStr s) /\ zod_datetime P s = true.
Proof.
  unfold iso. destruct v as [[]|]; try discriminate.
  match goal with |- context [zod_datetime P ?x] =>
    destruct (zod_datetime P x) eqn:E end; [|discriminate].
  intros [= <-]. auto.
Qed.

Section Payload.
Variable P : Platform.

Lemma create_schema_fields (body : json) (b : CreateBody) :
  CreateMeetingSchema P body = Some b ->
  exists o,
    body = JObj o
    /\ assoc "title" o = Some (JStr (cb_title b)) /\ cb_title b <> ""
    /\ assoc "startTime" o = Some (JStr (cb_startTime b))
    /\ zod_datetime P (cb_startTime b) = true
    /\ assoc "endTime" o = Some (JStr (cb_endTime b))
    /\ zod_datetime P (cb_endTime b) = true.
Proof.
  unfold CreateMeetingSchema. destruct body as [| | | | |o]; try discriminate.
  unfold and_then.
  destruct (string_min1 (assoc "title" o)) as [t|] eqn:Ht; [|discriminate].
  destruct (string_optional_nullable (assoc "description" o)); [|discriminate].
  destruct (string_optional_nullable (assoc "subject" o)); [|discriminate].
  destruct (string_optional_nullable (assoc "level" o)); [|discriminate].
  destruct (string_optional_nullable (assoc "specialization" o)); [|discriminate].
  destruct (iso P (assoc "startTime" o)) as [s|] eqn:Hs; [|discriminate].
  destruct (iso P (assoc "endTime" o)) as [e|] eqn:He; [|discriminate].
  destruct (string_optional_nullable (assoc "location" o)); [|discriminate].
  destruct (string_optional_nullable (assoc "onlineUrl" o)); [|discriminate].
  cbv zeta. destruct (create_refine P _); [|discriminate].
  intros [= <-]. cbn [cb_title cb_startTime cb_endTime] in *.
  apply string_min1_inv in Ht as [Ht Hne].
  apply iso_inv in Hs as [Hs Hzs]. apply iso_inv in He as [He Hze].
  exists o. repeat split; assumption.
Qed.

Lemma unordered_fails_create (o : list (string * json)) (s e : string)
    (ts te : Time) :
  assoc "startTime" o = Some (JStr s) -> assoc "endTime" o = Some (JStr e) ->
  Date_parse P s = Some ts -> Date_parse P e = Some te -> te <= ts ->
  CreateMeetingSchema P (JObj o) = None.
Proof.
  intros Hs He Hts Hte Hle.
  destruct (CreateMeetingSchema P (JObj o)) as [b|] eqn:Hb; [|reflexivity].
  destruct (create_refine_dates P b (create_schema_refine P _ _ Hb))
    as (ts' & te' & H1 & H2 & Hlt).
  destruct (create_schema_fields _ _ Hb)
    as (o' & [= <-] & _ & _ & Hs' & _ & He' & _).
  rewrite Hs in Hs'. rewrite He in He'.
  injection Hs' as Es. injection He' as Ee.
  rewrite <- Es, Hts in H1. rewrite <- Ee, Hte in H2.
  injection H1 as <-. injection H2 as <-. lia.
Qed.

Lemma unordered_fails_patch (o : list (string * json)) (s e : string)
    (ts te : Time) :
  assoc "startTime" o = Some (JStr s) -> assoc "endTime" o = Some (JStr e) ->
  s <> "" -> e <> "" ->
  Date_parse P s = Some ts -> Date_parse P e = Some te -> te <= ts ->
  PatchMeetingSchema P (JObj o) = None.
Proof.
  intros Hs He Hsne Hene Hts Hte Hle.
  unfold PatchMeetingSchema, and_then, iso_optional, iso. rewrite Hs, He.
  destruct (string_min1_optional (assoc "title" o)); [|reflexivity].
  destruct (string_optional_nullable (assoc "description" o)); [|reflexivity].
  destruct (string_optional_nullable (assoc "subject" o)); [|reflexivity].
  destruct (string_optional_nullable (assoc "level" o)); [|reflexivity].
  destruct (string_optional_nullable (assoc "specialization" o)); [|reflexivity].
  destruct (zod_datetime P s); [|reflexivity].
  destruct (zod_datetime P e); [|reflexivity].
  cbn [option_map].
  destruct (string_optional_nullable (assoc "location" o)); [|reflexivity].
  destruct (string_optional_nullable (assoc "onlineUrl" o)); [|reflexivity].
  cbv zeta. unfold patch_refine. cbn [pb_startTime pb_endTime].
  unfold truthy_str. apply String.eqb_neq in Hsne, Hene. rewrite Hsne, Hene.
  cbn [negb andb]. unfold ends_after. rewrite Hts, Hte.
  apply Z.ltb_ge in Hle. now rewrite Hle.
Qed.

(** X22. What [CreateMeetingSchema] lets through: a JSON object whose title
    is a non-empty string, whose [startTime] and [endTime] are strings in the
    ISO date-time format, and whose end is a later instant than its start.
    The parsed payload carries these three values as they were sent. *)
Theorem create_schema_accepts_titled_ordered_payloads
    (body : json) (b : CreateBody) :
  CreateMeetingSchema P body = Some b ->
  exists o,
    body = JObj o
    /\ assoc "title" o = Some (JStr (cb_title b)) /\ cb_title b <> ""
    /\ assoc "startTime" o = Some (JStr (cb_startTime b))
    /\ zod_datetime P (cb_startTime b) = true
    /\ assoc "endTime" o = Some (JStr (cb_endTime b))
    /\ zod_datetime P (cb_endTime b) = true
    /\ exists ts te,
         Date_parse P (cb_startTime b) = Some ts
         /\ Date_parse P (cb_endTime b) = Some te
         /\ ts < te.
Proof.
  intros Hb.
  destruct (create_schema_fields _ _ Hb) as (o & H1 & H2 & H3 & H4 & H5 & H6 & H7).
  exists o. repeat (split; [assumption|]).
  exact (create_refine_dates P b (create_schema_refine P _ _ Hb)).
Qed.

(** X23. A payload whose [endTime] is not after its [startTime] never
    reaches a handler: CREATE and PATCH both answer 400 "Validation failed"
    to an authenticated caller, and nothing is written or sent to the
    calendar. *)
Theorem unordered_dates_are_rejected_before_any_write
    (req req' : Request) (o : list (string * json)) (s e : string)
    (ts te : Time) (w : World) :
  requireAuth P req = Next req' ->
  body req = JObj o ->
  assoc "startTime" o = Some (JStr s) -> assoc "endTime" o = Some (JStr e) ->
  s <> "" -> e <> "" ->
  Date_parse P s = Some ts -> Date_parse P e = Some te -> te <= ts ->
  create P req w = (Ret (mkResponse 400 ValidationFailed), w)
  /\ patch P req w = (Ret (mkResponse 400 ValidationFailed), w).
Proof.
  intros Hauth Hbody Hs He Hsne Hene Hts Hte Hle.
  destruct (requireAuth_next P req req' Hauth) as (_ & _ & Hb & _).
  unfold create, patch, validate. rewrite Hauth, Hb, Hbody.
  rewrite (unordered_fails_create o s e ts te Hs He Hts Hte Hle).
  rewrite (unordered_fails_patch o s e ts te Hs He Hsne Hene Hts Hte Hle).
  split; reflexivity.
Qed.

End Payload.

(** The sample CREATE payload. *)
Lemma create_schema_accepts_titled_ordered_payloads_witness :
  let P := Sample.offline None None in
  exists o,
    Sample.revision = JObj o
    /\ assoc "title" o = Some (JStr "Revision") /\ "Revision" <> ""
    /\ assoc "startTime" o = Some (JStr "2025-09-24T18:00:00.000Z")
    /\ zod_datetime P "2025-09-24T18:00:00.000Z" = true
    /\ assoc "endTime" o = Some (JStr "2025-09-24T19:00:00.000Z")
    /\ zod_datetime P "2025-09-24T19:00:00.000Z" = true
    /\ exists ts te,
         Date_parse P "2025-09-24T18:00:00.000Z" = Some ts
         /\ Date_parse P "2025-09-24T19:00:00.000Z" = Some te
         /\ ts < te.
Proof.
  intros P.
  apply (create_schema_accepts_titled_ordered_payloads P Sample.revision
           (mkCreateBody "Revision" None (Some (Some "Math")) None None
              "2025-09-24T18:00:00.000Z" "2025-09-24T19:00:00.000Z" None None)).
  reflexivity.
Defined.

(** Alice sends a session that would end an hour before it starts. *)
Lemma unordered_dates_are_rejected_before_any_write_witness :
  let P := Sample.offline None None in
  let o := [("title", JStr "Backwards");
            ("startTime", JStr "2025-09-24T18:00:00.000Z");
            ("endTime", JStr "2025-09-24T17:00:00.000Z")] in
  let req := Sample.request (Some (Sample.as_user Sample.alice)) "m1" (JObj o) in
  let w := Sample.at_time Sample.t17 Sample.campus in
  create P req w = (Ret (mkResponse 400 ValidationFailed), w)
  /\ patch P req w = (Ret (mkResponse 400 ValidationFailed), w).
Proof.
  intros P o req w.
  apply (unordered_dates_are_rejected_before_any_write P req req o
           "2025-09-24T18:00:00.000Z" "2025-09-24T17:00:00.000Z"
           Sample.t18 Sample.t17 w);
    try reflexivity; try discriminate.
Defined.

End PayloadFacts.

(** ** LIST and DETAIL *)

Module ReadFacts.

Import StoreFacts ListFacts.

Lemma find_user_of_has (d : DB) (k : string) :
  has_user d k = true ->
  exists c, find_user d k = Some c /\ In c (users d) /\ user_id c = k.
Proof.
  unfold has_user, find_user. intros H.
  apply existsb_exists in H as (c & Hin & Hc).
  destruct (find (fun u => String.eqb (user_id u) k) (users d)) as [c'|] eqn:E.
  - apply find_some in E as [Hin' Hc']. apply String.eqb_eq in Hc'. eauto.
  - apply (find_none _ _ E) in Hin. congruence.
Qed.

Lemma nullable_equals_iff (p : string) (s : option string) :
  nullable_equals p s = true <-> s = Some p.
Proof.
  unfold nullable_equals. destruct s as [s|]; [|split; discriminate].
  rewrite String.eqb_eq. split; [now intros -> | now intros [= ->]].
Qed.

(** The attendee rows sent with a meeting are its rows in the table, each
    once; the order is the engine's. *)
Lemma attendees_of_perm (d : DB) (k : string) :
  Permutation (attendees_of d k) (filter (of_meeting k) (attendees d)).
Proof. unfold attendees_of. apply Permutation_sym, SortFacts.sort_perm. Qed.

(** The date filters of LIST: [from] and [to] are used when they are not
    empty. *)
Lemma list_where_dates (P : Platform) (t : Time) (q : Query) :
  where_startTime_gte (list_where P t q)
  = option_map (Date_parse P) (when_truthy (q_from q))
  /\ where_startTime_lte (list_where P t q)
     = option_map (Date_parse P) (when_truthy (q_to q)).
Proof.
  unfold list_where, when_truthy. cbn.
  destruct (truthy (q_from q)), (truthy (q_to q)); split; reflexivity.
Qed.

(** The filters of LIST, read on a meeting. *)
Lemma matches_list_where (P : Platform) (t : Time) (q : Query) (m : Meeting) :
  date_ok (option_map (Date_parse P) (when_truthy (q_from q))) = true ->
  date_ok (option_map (Date_parse P) (when_truthy (q_to q))) = true ->
  matches (list_where P t q) m = true <->
  t < endTime m
  /\ (forall lv, when_truthy (q_level q) = Some lv -> level m = Some lv)
  /\ (forall sp, when_truthy (q_specialization q) = Some sp ->
                 specialization m = Some sp)
  /\ (forall s ts, when_truthy (q_from q) = Some s ->
                   Date_parse P s = Some ts -> ts <= startTime m)
  /\ (forall s ts, when_truthy (q_to q) = Some s ->
                   Date_parse P s = Some ts -> startTime m <= ts).
Proof.
  intros Hfrom Hto. unfold matches.
  destruct (list_where_dates P t q) as [-> ->].
  cbn [list_where where_endTime_gt where_level_equals
       where_specialization_equals opt_test].
  rewrite !andb_true_iff, Z.ltb_lt.
  assert (opt_test (when_truthy (q_level q))
            (fun p => nullable_equals p (level m)) = true
          <-> forall lv, when_truthy (q_level q) = Some lv -> level m = Some lv)
    as ->.
  { destruct (when_truthy (q_level q)) as [lv|]; cbn.
    - rewrite nullable_equals_iff. split; [now intros -> ? [= <-] | auto].
    - split; [discriminate | reflexivity]. }
  assert (opt_test (when_truthy (q_specialization q))
            (fun p => nullable_equals p (specialization m)) = true
          <-> forall sp, when_truthy (q_specialization q) = Some sp ->
                         specialization m = Some sp)
    as ->.
  { destruct (when_truthy (q_specialization q)) as [sp|]; cbn.
    - rewrite nullable_equals_iff. split; [now intros -> ? [= <-] | auto].
    - split; [discriminate | reflexivity]. }
  assert (date_test (option_map (Date_parse P) (when_truthy (q_from q)))
            (fun t0 => t0 <=? startTime m) = true
          <-> forall s ts, when_truthy (q_from q) = Some s ->
                           Date_parse P s = Some ts -> ts <= startTime m)
    as ->.
  { destruct (when_truthy (q_from q)) as [s|]; cbn in *.
    - destruct (Date_parse P s) as [ts|] eqn:E; [|discriminate].
      rewrite Z.leb_le. split; [|eauto].
      intros H s0 ts0 [= <-] E'. rewrite E in E'. now injection E' as <-.
    - split; [discriminate | reflexivity]. }
  assert (date_test (option_map (Date_parse P) (when_truthy (q_to q)))
            (fun t0 => startTime m <=? t0) = true
          <-> forall s ts, when_truthy (q_to q) = Some s ->
                           Date_parse P s = Some ts -> startTime m <= ts)
    as ->.
  { destruct (when_truthy (q_to q)) as [s|]; cbn in *.
    - destruct (Date_parse P s) as [ts|] eqn:E; [|discriminate].
      rewrite Z.leb_le. split; [|eauto].
      intros H s0 ts0 [= <-] E'. rewrite E in E'. now injection E' as <-.
    - split; [discriminate | reflexivity]. }
  tauto.
Qed.

(** What makes LIST answer, and what it answers then. *)
Lemma list_answered (P : Platform) (req : Request) (w : World)
    (items : list MeetingFull) :
  fst (list_meetings P req w) = Ret (mkResponse 200 (ManyMeetings items)) ->
  let q := list_where P (clock w) (query req) in
  mode_ok q = true
  /\ date_ok (where_startTime_gte q) && date_ok (where_startTime_lte q) = true
  /\ items = map (with_relations (db w)) (selected q None (db w)).
Proof.
  unfold list_meetings, bind, now. cbn zeta.
  set (q := list_where P (clock w) (query req)).
  destruct (mode_ok q) eqn:Hmode.
  2: { rewrite (findMany_refused q None w) by now rewrite Hmode. discriminate. }
  destruct (date_ok (where_startTime_gte q) && date_ok (where_startTime_lte q))
    eqn:Hok.
  2: { rewrite (findMany_refused q None w) by now rewrite Hmode, Hok.
       discriminate. }
  rewrite (findMany_run q None w Hmode Hok). cbn [fst ret json_].
  intros [= <-]. auto.
Qed.

(** X26. What [GET /] lists, when it answers.  The request has no [subject]
    and no [q] filter.  A meeting is listed exactly when it is stored, ends
    after the time of the query, has the level and the specialization asked
    for, and starts between [from] and [to] where these are given; it is
    listed as often as it is stored.  Each item carries the attendee rows of
    its meeting, each once and in no stated order, and the "User" row of
    its creator. *)
Theorem list_returns_every_open_match
    (P : Platform) (req : Request) (w : World) (items : list MeetingFull) :
  fst (list_meetings P req w) = Ret (mkResponse 200 (ManyMeetings items)) ->
  let q := query req in
  let listed m :=
    clock w < endTime m
    /\ (forall lv, when_truthy (q_level q) = Some lv -> level m = Some lv)
    /\ (forall sp, when_truthy (q_specialization q) = Some sp ->
                   specialization m = Some sp)
    /\ (forall s ts, when_truthy (q_from q) = Some s ->
                     Date_parse P s = Some ts -> ts <= startTime m)
    /\ (forall s ts, when_truthy (q_to q) = Some s ->
                     Date_parse P s = Some ts -> startTime m <= ts) in
  truthy (q_subject q) = false
  /\ truthy (q_q q) = false
  /\ (forall m, In m (map meeting items) <-> In m (meetings (db w)) /\ listed m)
  /\ (exists others,
        Permutation (meetings (db w)) (map meeting items ++ others)
        /\ forall m, In m others -> ~ listed m)
  /\ (forall f, In f items ->
        Permutation (full_attendees f)
          (filter (of_meeting (id (meeting f))) (attendees (db w)))
        /\ full_createdBy f = find_user (db w) (createdById (meeting f))).
Proof.
  intros Hrun. cbn zeta.
  destruct (list_answered P req w items Hrun) as (Hmode & Hok & ->).
  set (q := list_where P (clock w) (query req)) in *.
  destruct (list_where_dates P (clock w) (query req)) as [Hgte Hlte].
  fold q in Hgte, Hlte. rewrite Hgte, Hlte in Hok.
  apply andb_true_iff in Hok as [Hfrom Hto].
  assert (forall m, matches q m = true <-> _) as Hread
      by (intros m; exact (matches_list_where P (clock w) (query req) m Hfrom Hto)).
  assert (Permutation (map meeting (map (with_relations (db w)) (selected q None (db w))))
            (filter (matches q) (meetings (db w)))) as Hperm.
  { rewrite meeting_of_relations. unfold selected. cbn [take].
    apply Permutation_sym, SortFacts.sort_perm. }
  unfold mode_ok in Hmode. apply andb_true_iff in Hmode as [Hsub Hq].
  split; [|split; [|split; [|split]]].
  - subst q. unfold list_where, when_truthy in Hsub. cbn in Hsub.
    destruct (truthy (q_subject (query req))) eqn:E; [|reflexivity].
    destruct (q_subject (query req)); cbn in *; discriminate.
  - subst q. unfold list_where, when_truthy in Hq. cbn in Hq.
    destruct (truthy (q_q (query req))) eqn:E; [|reflexivity].
    destruct (q_q (query req)); cbn in *; discriminate.
  - intros m. split.
    + intros Hm. apply (Permutation_in _ Hperm) in Hm.
      apply filter_In in Hm as [Hin Hm]. split; [exact Hin|]. now apply Hread.
    + intros [Hin Hm]. apply (Permutation_in _ (Permutation_sym Hperm)).
      apply filter_In. split; [exact Hin|]. now apply Hread.
  - exists (filter (fun m => negb (matches q m)) (meetings (db w))). split.
    + etransitivity; [|apply Permutation_app_tail, Permutation_sym, Hperm].
      clear. induction (meetings (db w)) as [|m r IH]; cbn; [constructor|].
      destruct (matches q m); cbn.
      * now constructor.
      * now apply Permutation_cons_app.
    + intros m Hm Hlisted. apply filter_In in Hm as [_ Hm].
      apply Hread in Hlisted. rewrite Hlisted in Hm. discriminate.
  - intros f Hf. apply in_map_iff in Hf as (m & <- & _).
    cbn [with_relations full_attendees full_createdBy meeting].
    split; [apply attendees_of_perm | reflexivity].
Qed.

(** X10. What [GET /:id] sends.  Without a stored meeting of that id it
    answers 404; otherwise 200 with the meeting, the attendee rows of that
    meeting, each once and in no stated order, and, in a store that
    satisfies the constraints of the schema, the "User" row of its creator.
    Nothing changes. *)
Theorem detail_carries_attendees_and_creator (req : Request) (w : World) :
  consistent (db w) ->
  match find_meeting (db w) (param_id req) with
  | None => detail req w = (Ret (mkResponse 404 Failed), w)
  | Some m =>
      exists rows c,
        detail req w
        = (Ret (mkResponse 200 (OneMeeting (Some (mkFull m rows (Some c))))), w)
        /\ Permutation rows
             (filter (of_meeting (param_id req)) (attendees (db w)))
        /\ id m = param_id req
        /\ In c (users (db w)) /\ user_id c = createdById m
  end.
Proof.
  intros Hi. unfold detail, bind, meeting_findUnique_full, bind, get_db, ret.
  destruct (find_meeting (db w) (param_id req)) as [m|] eqn:Hm; [|reflexivity].
  destruct (find_meeting_id _ _ _ Hm) as [Hid Hin].
  destruct (find_user_of_has (db w) (createdById m) (meeting_refs _ Hi m Hin))
    as (c & Hc & Hcin & Hcid).
  exists (attendees_of (db w) (param_id req)), c.
  cbn. unfold with_relations. rewrite Hc, Hid.
  repeat split; try assumption. apply attendees_of_perm.
Qed.

(** Bob's physics session on the sample campus, which Alice attends too. *)
Lemma detail_carries_attendees_and_creator_witness :
  let req := Sample.request None "m2" JNull in
  let w := Sample.at_time Sample.t17 Sample.campus in
  exists rows c,
    detail req w
    = (Ret (mkResponse 200 (OneMeeting (Some (mkFull Sample.physics rows (Some c))))),
       w)
    /\ Permutation rows (filter (of_meeting "m2") (attendees (db w)))
    /\ id Sample.physics = "m2"
    /\ In c (users (db w)) /\ user_id c = createdById Sample.physics.
Proof.
  intros req w.
  apply (detail_carries_attendees_and_creator req w).
  exact InvariantFacts.campus_is_consistent.
Defined.

(** The unfiltered list at 17:00 on the sample campus. *)
Lemma list_returns_every_open_match_witness :
  let P := Sample.offline None None in
  let req := Sample.request None "" JNull in
  let w := Sample.at_time Sample.t17 Sample.campus in
  let items := map (with_relations Sample.campus) [Sample.algebra; Sample.physics] in
  fst (list_meetings P req w) = Ret (mkResponse 200 (ManyMeetings items))
  /\ (forall m, In m (map meeting items) <->
                In m (meetings (db w)) /\ clock w < endTime m)
  /\ (forall f, In f items ->
        Permutation (full_attendees f)
          (filter (of_meeting (id (meeting f))) (attendees (db w)))).
Proof.
  intros P req w items.
  destruct (list_returns_every_open_match P req w items eq_refl)
    as (_ & _ & Hiff & _ & Hrows).
  split; [reflexivity|]. split.
  - intros m. rewrite (Hiff m). cbn.
    split; [tauto|]. intros [Hin Hopen]. split; [exact Hin|].
    repeat split; try exact Hopen; intros; discriminate.
  - intros f Hf. exact (proj1 (Hrows f Hf)).
Defined.

End ReadFacts.
